(** * Segmentation.py: assembling, splitting and importing organ masks

    A shallow embedding of [utlis/Segmentation.py] and the properties of its
    three filters.

    - A numpy array that is only combined voxel by voxel (the assembler, the
      splitter, the overlap analysis) is the list of its voxels in C order.
      Its shape is its length: two arrays of different length cannot be
      combined ([ValueError]); broadcasting of axes of size one is outside
      the model.
    - The slice importer indexes and flips axes, so its arrays are nested
      lists [z][y][x].  The reference image is taken to have an integer type
      that holds the grey levels 0..255.
    - Voxels are integers.  The labels of the assembler live in [int64]
      (a boolean array times a Python [int]) and are 0 or an ID of the table,
      so they never wrap; the cast to [uint8] and the [uint8] sums of the
      splitter are written with their [mod 256].
    - [np.float64] is the primitive binary64 float.
    - A directory is the association list of its entries in listing order;
      every entry of a mask directory is a readable image.
    - The splitter is given the labelled volume as an array: reading it
      from [fpath_seg] has succeeded, and a failure of that read is outside
      the model.
    - Python exceptions are values of [exn]; an effectful method returns the
      list of its I/O events together with its outcome. *)

From Stdlib Require Import ZArith Ascii String Floats Uint63 Permutation.
From stdpp Require Import base list strings gmap pretty.

Local Open Scope string_scope.
Local Open Scope list_scope.
Local Open Scope Z_scope.

(** ** Exceptions, outcomes, event logs *)

Inductive exn : Type :=
| AssertionError (msg : string)
| AttributeError
| TypeError
| ValueError
| IndexError
| KeyError
| OSError
| RuntimeError.

Inductive outcome (A : Type) : Type :=
| Ok (a : A)
| Raise (e : exn).
Arguments Ok {A} a.
Arguments Raise {A} e.

(** A computation that logs events of type [E] and then returns or raises. *)
Definition io (E A : Type) : Type := (list E * outcome A)%type.

Definition trace {E A} (m : io E A) : list E := m.1.
Definition result {E A} (m : io E A) : outcome A := m.2.

#[global] Instance io_ret {E} : MRet (io E) := λ A a, ([], Ok a).
#[global] Instance io_bind {E} : MBind (io E) := λ A B k m,
  match m with
  | (l, Ok a) => let '(l', r) := k a in (l ++ l', r)
  | (l, Raise e) => (l, Raise e)
  end.

Definition emit {E} (e : E) : io E unit := ([e], Ok tt).
Definition raise {E A} (e : exn) : io E A := ([], Raise e).
(** [assert cond, msg] *)
Definition assert {E} (cond : bool) (msg : string) : io E unit :=
  if cond then mret tt else raise (AssertionError msg).

(** [if arg is None: arg = attribute] *)
Definition or_attribute {A} (arg attribute : option A) : option A :=
  match arg with None => attribute | Some _ => arg end.

(** ** Arrays of voxels *)

Abbreviation image := (list Z).

(** [np.zeros_like(a)] *)
Definition zeros_like (a : image) : image := (λ _, 0) <$> a.
(** [a.astype(bool)] *)
Definition astype_bool (a : image) : list bool := (λ v, negb (v =? 0)) <$> a.
(** [sitk.Cast(a, sitk.sitkUInt8)] *)
Definition Cast_UInt8 (a : image) : image := (λ v, v `mod` 256) <$> a.
(** [ID in a] *)
Definition contains (ID : Z) (a : image) : bool := existsb (Z.eqb ID) a.

(** A binary operator applied voxel by voxel; operands of different shape
    raise. *)
Definition elementwise {E A B C} (f : A → B → C) (a : list A) (b : list B)
  : io E (list C) :=
  if bool_decide (length a = length b) then mret (zip_with f a b)
  else raise ValueError.

(** ** Directories and file names *)

Abbreviation folder := (list (string * image)).

(** [os.listdir(d)] *)
Definition listdir (d : folder) : list string := d.*1.

Fixpoint lookup_file (d : folder) (fname : string) : option image :=
  match d with
  | [] => None
  | (n, a) :: d' => if bool_decide (n = fname) then Some a else lookup_file d' fname
  end.

(** [fname[0:-4]] *)
Definition drop_last4 (fname : string) : string :=
  String.substring 0 (String.length fname - 4) fname.

(** [os.path.join(a, b)] on POSIX, for a relative [b]. *)
Definition ends_with_slash (a : string) : bool :=
  match String.rev a with
  | String c _ => bool_decide (c = "/"%char)
  | EmptyString => false
  end.
Definition path_join (a b : string) : string :=
  if bool_decide (a = "") then b
  else if ends_with_slash a then a +:+ b
  else a +:+ "/" +:+ b.

(** [a[mask] = c] *)
Definition assign_where (mask : list bool) (c : Z) (a : image) : image :=
  zip_with (λ (m : bool) x, if m then c else x) mask a.

(** [np.sum] of a boolean array: the number of [True] voxels. *)
Definition np_sum (a : list bool) : Z := foldr (λ b acc, Z.b2z b + acc) 0 a.

(** [for x in xs: body(x)] *)
Fixpoint for_each {E A} (xs : list A) (body : A → io E unit) : io E unit :=
  match xs with
  | [] => mret tt
  | x :: xs' => body x;; for_each xs' body
  end.

(** [range(a, b)] *)
Definition range (a b : nat) : list nat := seq a (b - a).

(** [xs[i]] for a non-negative index. *)
Definition getitem {E A} (xs : list A) (i : nat) : io E A :=
  match xs !! i with
  | Some x => mret x
  | None => raise IndexError
  end.

(** ** Double precision numbers ([np.float64]) *)

Module F64.

(** An [np.int64] converted for a true division. *)
Definition of_int (n : Z) : float := PrimFloat.of_uint63 (Uint63.of_Z n).

Definition two52 : float := 4503599627370496%float.

(** [np.rint]: the nearest integer, ties to even.  Below 2^52 adding and
    subtracting 2^52 rounds in the current (nearest-even) mode. *)
Definition rint (x : float) : float :=
  if PrimFloat.ltb (PrimFloat.abs x) two52 then
    if PrimFloat.eqb x 0%float then x
    else if PrimFloat.ltb x 0%float then
      PrimFloat.opp (PrimFloat.sub (PrimFloat.add (PrimFloat.opp x) two52) two52)
    else PrimFloat.sub (PrimFloat.add x two52) two52
  else x.

Definition power_of_ten (decimals : nat) : float :=
  Nat.iter decimals (PrimFloat.mul 10%float) 1%float.

(** [x.round(decimals)] for [decimals >= 0]: multiply, [rint], divide. *)
Definition round (x : float) (decimals : nat) : float :=
  match decimals with
  | O => rint x
  | _ => PrimFloat.div (rint (PrimFloat.mul x (power_of_ten decimals)))
                       (power_of_ten decimals)
  end.

(** [x >= y] *)
Definition geb (x y : float) : bool := PrimFloat.leb y x.

End F64.

(** ** SegmentAssembleImageFilter *)

Module Assemble.

(** A line printed by [AnalyseOverlap]. *)
Record report : Type := Report {
  overlap : Z;
  percent_i : float;
  percent_j : float;
  organ_i : string;
  n_i : Z;
  organ_j : string;
  n_j : Z;
  ratio : float
}.

Inductive event : Type :=
| EvReadImage (fname : string)
| EvWriteImage (path : string) (img : image)
| EvPrint (line : report).

(** The class attribute [OrganID]; the order of the keys is the paint
    order. *)
Definition OrganID : list (string * Z) :=
  [ ("Outline", 10); ("Body", 10);
    ("Skin", 11); ("Muscle", 13);
    ("Bone", 46); ("Skeleton", 46); ("Marrow", 47);
    ("SCord", 65); ("SpinalCore", 65); ("Brain", 18); ("Eyes", 22);
    ("Lung", 33); ("Heart", 26); ("Breast", 19);
    ("Intestine", 44); ("Liver", 32); ("Kidney", 28); ("Stomach", 67);
    ("ParotidGland", 43);
    ("Bladder", 15); ("Ovary", 86); ("Spleen", 66); ("Thyroid", 70);
    ("Pancrease", 38); ("GallBladder", 24) ].

(** [sitk.GetArrayFromImage(sitk.ReadImage(os.path.join(folder, fname)))] *)
Definition ReadImage (d : folder) (fname : string) : io event image :=
  match lookup_file d fname with
  | Some a => emit (EvReadImage fname);; mret a
  | None => raise RuntimeError
  end.

(** [(overlap / n * 100).round(decimals=1)] *)
Definition percentage (overlap n : Z) : float :=
  F64.round (PrimFloat.mul (PrimFloat.div (F64.of_int overlap) (F64.of_int n))
                           100%float) 1.

(** [(n_i / n_j).round(2)] *)
Definition volume_ratio (n_i n_j : Z) : float :=
  F64.round (PrimFloat.div (F64.of_int n_i) (F64.of_int n_j)) 2.

(** Lines 141-157: the body of the two loops of [AnalyseOverlap]. *)
Definition compare_pair (d : folder) (organs : list string) (i j : nat)
  : io event unit :=
  fname_i ← getitem organs i;
  fname_j ← getitem organs j;
  let organ_i := drop_last4 fname_i in
  let organ_j := drop_last4 fname_j in
  a_i ← ReadImage d fname_i;
  let img_i := astype_bool a_i in
  a_j ← ReadImage d fname_j;
  let img_j := astype_bool a_j in
  let n_i := np_sum img_i in
  let n_j := np_sum img_j in
  both ← elementwise andb img_i img_j;
  let overlap := np_sum both in
  let percent_i := percentage overlap n_i in
  let percent_j := percentage overlap n_j in
  let ratio := volume_ratio n_i n_j in
  if negb (overlap =? 0)
     && (F64.geb percent_i 1%float || F64.geb percent_j 1%float)
  then emit (EvPrint (Report overlap percent_i percent_j organ_i n_i organ_j n_j ratio))
  else mret tt.

(** [AnalyseOverlap]; [stop_organ_list = None] is the empty list. *)
Definition AnalyseOverlap (d : folder) (stop_organ_list : option (list string))
  : io event Z :=
  let stop_organ_list := default [] stop_organ_list in
  let organs := listdir d in
  let organs := filter (λ organ, organ ∉ stop_organ_list) organs in
  for_each (range 0 (length organs)) (λ i,
    for_each (range (i + 1) (length organs)) (λ j,
      compare_pair d organs i j));;
  mret 0.

(** Lines 184-188: one organ painted over the labels so far.  The state is
    the pair [(seg, seg_bool)]. *)
Definition paint (st : image * list bool) (organ : image) (ID : Z)
  : io event (image * list bool) :=
  let '(seg, seg_bool) := st in
  let organ_bool := astype_bool organ in
  both ← elementwise andb seg_bool organ_bool;
  seg_minus_organ ← elementwise xorb seg_bool both;
  kept ← elementwise (λ s m, s * Z.b2z m) seg seg_minus_organ;
  seg' ← elementwise Z.add kept ((λ b, Z.b2z b * ID) <$> organ_bool);
  mret (seg', astype_bool seg').

(** Lines 177-188: the loop over the keys of the table.  The keys of a
    dict are distinct, so [OrganID[organ_name]] is the ID listed with the
    key. *)
Fixpoint paint_all (tbl : list (string * Z)) (d : folder)
    (st : image * list bool) : io event (image * list bool) :=
  match tbl with
  | [] => mret st
  | (organ_name, ID) :: tbl' =>
      let fname := organ_name +:+ ".nii" in
      if bool_decide (fname ∈ listdir d) then
        organ ← ReadImage d fname;
        st' ← paint st organ ID;
        paint_all tbl' d st'
      else paint_all tbl' d st
  end.

(** [Execute], with the table as a parameter.  [self_fpath_save] is the
    attribute set by the constructor, [img] the array of [self.img]. *)
Definition ExecuteWith (tbl : list (string * Z))
    (self_fpath_save : option string) (img : image) (d : folder)
    (fpath_save : option string) : io event image :=
  match or_attribute fpath_save self_fpath_save with
  | None => raise (AssertionError "Save path is not specified.")
  | Some path =>
      let fnames_miss :=
        filter (λ fname, drop_last4 fname ∉ tbl.*1) (listdir d) in
      assert (bool_decide (length fnames_miss = 0%nat))
             "Missed organ in OrganID.";;
      let seg := zeros_like img in
      let seg_bool := astype_bool seg in
      st ← paint_all tbl d (seg, seg_bool);
      let seg := Cast_UInt8 st.1 in
      emit (EvWriteImage path seg);;
      mret seg
  end.

Definition Execute := ExecuteWith OrganID.

End Assemble.

(** ** SegmentSplitImageFilter *)

(** What the file system says about a directory that is to be created. *)
Inductive dir_status : Type :=
| DirExists
| DirMissing (creatable : bool).

Module Split.

Inductive event : Type :=
| EvMakedirs (folder_save : string)
| EvWriteImage (path : string) (img : image).

Definition StandardName : list (Z * string) :=
  [ (10, "Body"); (11, "Skin"); (13, "Muscle"); (15, "Bladder"); (18, "Brain");
    (19, "Breast"); (21, "Esophagus"); (22, "Eye"); (23, "Len"); (24, "GallBladder");
    (26, "Heart"); (28, "Kidney"); (29, "Larynx"); (32, "Liver"); (33, "Lung");
    (37, "OralCavity"); (38, "Pancreas"); (42, "Pituitary"); (43, "Parotid"); (44, "Intestine");
    (46, "Bone"); (47, "Marrow"); (63, "TMJ"); (65, "SpinalCord"); (66, "Spleen");
    (67, "Stomach"); (70, "Thyroid"); (73, "Trachea"); (75, "Cochlea"); (76, "BrainStem");
    (77, "TemporalLobe"); (78, "OpticChiasm"); (79, "OpticalNerve"); (80, "Rectum"); (81, "Sigmoid");
    (82, "Duodenum"); (86, "Ovary") ].

Definition MultipleOrgans : gmap Z (list Z) :=
  list_to_map [ (10, [10; 11]); (22, [22; 23]); (18, [18; 76; 77]); (46, [46; 47]) ].

(** Addition of two [uint8] voxels. *)
Definition add_uint8 (a b : Z) : Z := (a + b) `mod` 256.

(** Lines 227-229 and 251-253: the mask of one label. *)
Definition extract (seg : image) (ID : Z) : image :=
  let seg_organ := seg in
  let seg_organ := assign_where ((λ s, negb (s =? ID)) <$> seg) 0 seg_organ in
  assign_where ((λ s, s =? ID) <$> seg) 255 seg_organ.

(** The loop of [_AssembleMultipleOrgans] over the listed labels. *)
Definition sum_extracts (seg : image) (IDs : list Z) : image :=
  foldl (λ seg_organ_main ID, zip_with add_uint8 seg_organ_main (extract seg ID))
        (zeros_like seg) IDs.

Definition _AssembleMultipleOrgans (seg : image) (ID_main : Z) : io event image :=
  match MultipleOrgans !! ID_main with
  | Some IDs => mret (sum_extracts seg IDs)
  | None => raise KeyError
  end.

(** [str(ID) + '_' + StandardName[ID] + ".nii"] *)
Definition file_name (ID : Z) (name : string) : string :=
  pretty ID +:+ "_" +:+ name +:+ ".nii".

(** Lines 246-260: the body of the loop of [Execute]. *)
Definition split_label (folder_save : string) (seg : image) (entry : Z * string)
  : io event unit :=
  let '(ID, name) := entry in
  if contains ID seg then
    seg_organ ←
      (if bool_decide (is_Some (MultipleOrgans !! ID))
       then _AssembleMultipleOrgans seg ID
       else mret (extract seg ID));
    let seg_organ := Cast_UInt8 seg_organ in
    let fpath := path_join folder_save (file_name ID name) in
    emit (EvWriteImage fpath seg_organ)
  else mret tt.

(** [Execute]; [seg] is the array read from [self.fpath_seg]. *)
Definition Execute (self_folder_save : option string) (save_dir : dir_status)
    (seg : image) (folder_save : option string) : io event unit :=
  match or_attribute folder_save self_folder_save with
  | None => raise (AssertionError "folder to save is not specified.")
  | Some folder_save =>
      match save_dir with
      | DirExists => mret tt
      | DirMissing true => emit (EvMakedirs folder_save)
      | DirMissing false => raise OSError
      end;;
      for_each StandardName (split_label folder_save seg)
  end.

(** The files written, in order. *)
Definition written (log : list event) : list (string * image) :=
  omap (λ e, match e with EvWriteImage p a => Some (p, a) | _ => None end) log.

End Split.

(** ** Jpg2niiConverter *)

Module Jpg2nii.

(** A grey-level picture [y][x] and a stack of them [z][y][x]. *)
Abbreviation slice := (list (list Z)).
Abbreviation volume := (list (list (list Z))).

(** An entry of the jpg directory: its name, what [filetype.guess] finds
    ([None] when it recognises nothing, else the extension) and what
    [cv2.imread(fpath, 0)] returns ([None] when it cannot decode). *)
Record entry : Type := Entry {
  fname : string;
  kind : option string;
  pixels : option slice
}.

Inductive event : Type :=
| EvImread (fname : string)
| EvMkdir (folder_save : string)
| EvWriteImage (path : string) (img : volume).

Definition map3 (f : Z → Z) (v : volume) : volume := map (map (map f)) v.

(** [np.zeros_like] *)
Definition zeros_like3 (v : volume) : volume := map3 (λ _, 0) v.

(** [np.flip(v, axis)] for each of the three axes. *)
Definition flip_axis0 (v : volume) : volume := rev v.
Definition flip_axis1 (v : volume) : volume := map (λ sl : slice, rev sl) v.
Definition flip_axis2 (v : volume) : volume :=
  map (λ sl : slice, map (λ row : list Z, rev row) sl) v.

(** [np.flip(v)]: without an axis the order of the elements is reversed
    along every axis, [v[::-1, ::-1, ::-1]]. *)
Definition np_flip (v : volume) : volume :=
  rev (map (λ sl : slice, rev (map (λ row : list Z, rev row) sl)) v).

(** [sitk.Cast(img, sitk.sitkUInt8)] *)
Definition Cast_UInt8 (v : volume) : volume := map3 (λ x, x `mod` 256) v.

(** [fname[-8:-4]] *)
Definition layer_digits (fname : string) : string :=
  let n := String.length fname in
  String.substring (n - 8) ((n - 4) - (n - 8)) fname.

Fixpoint drop_while {A} (f : A → bool) (l : list A) : list A :=
  match l with
  | [] => []
  | x :: l' => if f x then drop_while f l' else l
  end.

(** [posixpath.dirname]: the part up to the last separator, without its
    trailing separators unless it consists of separators only. *)
Definition dirname (p : string) : string :=
  let is_sep (c : ascii) := bool_decide (c = "/"%char) in
  let head := rev (drop_while (λ c, negb (is_sep c)) (rev (list_ascii_of_string p))) in
  if forallb is_sep head then string_of_list_ascii head
  else string_of_list_ascii (rev (drop_while is_sep (rev head))).

Section Convert.

(** Python's [int] on a string. *)
Variable py_int : string → outcome Z.

Definition GetImageLayerByName (fname : string) : outcome Z :=
  py_int (layer_digits fname).

(** [seg[z] = seg_slice] *)
Definition setitem (seg : volume) (z : Z) (seg_slice : option slice)
  : io event volume :=
  let n := Z.of_nat (length seg) in
  if bool_decide (- n ≤ z < n) then
    let k := Z.to_nat (if z <? 0 then z + n else z) in
    match seg_slice, seg !! k with
    | Some new, Some old =>
        if bool_decide (length <$> new = length <$> old)
        then mret (<[k := new]> seg)
        else raise ValueError
    | _, _ => raise TypeError
    end
  else raise IndexError.

(** Lines 83-88: the body of the loop over the directory. *)
Definition place (GetImageLayerMethod : string → outcome Z)
    (seg : volume) (f : entry) : io event volume :=
  match kind f with
  | None => raise AttributeError
  | Some extension =>
      assert (bool_decide (extension = "jpg")) "Wrong type in specified folder.";;
      emit (EvImread (fname f));;
      let seg_slice := pixels f in
      match GetImageLayerMethod (fname f) with
      | Raise e => raise e
      | Ok z => setitem seg z seg_slice
      end
  end.

(** The loop; the first component is the array [seg] when the loop ends
    or is left by an exception. *)
Fixpoint place_all (GetImageLayerMethod : string → outcome Z)
    (seg : volume) (files : list entry) : volume * io event unit :=
  match files with
  | [] => (seg, mret tt)
  | f :: files' =>
      match place GetImageLayerMethod seg f with
      | (log, Ok seg') =>
          let '(mem, (log', r)) := place_all GetImageLayerMethod seg' files' in
          (mem, (log ++ log', r))
      | (log, Raise e) => (seg, (log, Raise e))
      end
  end.

(** Lines 91-92 *)
Definition binarize (threshold : Z) (seg : volume) : volume :=
  let seg := map3 (λ x, if x >? threshold then 255 else x) seg in
  map3 (λ x, if x <=? threshold then 0 else x) seg.

(** [OrganConvert]: the numpy array [seg] as the loop and the thresholds
    leave it, the events and the outcome.  [img] is the array of [self.img];
    [save_dir] tells whether the directory of [fpath_save] exists. *)
Definition OrganConvert (img : volume) (folder_jpg : list entry)
    (save_dir : dir_status) (fpath_save : string)
    (GetImageLayerMethod : option (string → outcome Z)) (threshold : Z)
  : volume * io event volume :=
  let GetImageLayerMethod := default GetImageLayerByName GetImageLayerMethod in
  let seg := zeros_like3 img in
  match place_all GetImageLayerMethod seg folder_jpg with
  | (seg, (log, Raise e)) => (seg, (log, Raise e))
  | (seg, (log, Ok _)) =>
      let seg := binarize threshold seg in
      (seg,
       (log, Ok tt) ≫= λ _,
       let out := Cast_UInt8 (np_flip seg) in
       let folder_save := dirname fpath_save in
       match save_dir with
       | DirExists => mret tt
       | DirMissing true => emit (EvMkdir folder_save)
       | DirMissing false => raise OSError
       end;;
       emit (EvWriteImage fpath_save out);;
       mret out)
  end.

End Convert.

End Jpg2nii.

(** ** Voxel-wise reading of the assembler *)

Module AssembleSpec.

(** The mask of an organ, when its file is in the directory. *)
Definition mask_of (d : folder) (organ_name : string) : option image :=
  lookup_file d (organ_name +:+ ".nii").

(** The organ is an input file and its mask is foreground at voxel [v]. *)
Definition fg (d : folder) (organ_name : string) (v : nat) : bool :=
  match mask_of d organ_name with
  | Some m => match m !! v with Some o => negb (o =? 0) | None => false end
  | None => false
  end.

(** One paint step seen from one voxel. *)
Definition paint_voxel (ID : Z) (s o : Z) : Z := if o =? 0 then s else ID.

(** The label of voxel [v] after painting the table over the label [s]:
    the ID of the last entry whose mask is foreground there. *)
Definition voxel_after (d : folder) (tbl : list (string * Z)) (v : nat) (s : Z) : Z :=
  foldl (λ s e, if fg d e.1 v then e.2 else s) s tbl.

(** The sum of the IDs of the entries that are foreground at [v]. *)
Definition voxel_sum (d : folder) (tbl : list (string * Z)) (v : nat) : Z :=
  foldr (λ e acc, (if fg d e.1 v then e.2 else 0) + acc) 0 tbl.

(** The masks that are painted, each with its ID, in table order. *)
Definition painted (d : folder) (tbl : list (string * Z)) : list (Z * image) :=
  omap (λ e, (λ m, (e.2, m)) <$> mask_of d e.1) tbl.

(** A mask scaled by an ID: the ID where the mask is not 0, and 0 where it
    is. *)
Definition scaled (p : Z * image) : image :=
  (λ o, match o with 0 => 0 | _ => p.1 end) <$> p.2.

(** The union of the labels: the voxel-wise sum of the scaled masks over a
    volume of zeros with as many voxels as the reference image. *)
Definition union_of_labels (d : folder) (tbl : list (string * Z)) (img : image) : image :=
  foldr (zip_with Z.add) (replicate (length img) 0) (scaled <$> painted d tbl).

(** Every file name of the directory, without its last four characters,
    is a key of the table. *)
Definition all_known (tbl : list (string * Z)) (d : folder) : Prop :=
  Forall (λ fname, drop_last4 fname ∈ tbl.*1) (listdir d).

(** Every painted mask has the shape of the reference image. *)
Definition shapes_agree (tbl : list (string * Z)) (d : folder) (img : image) : Prop :=
  ∀ organ_name m,
    organ_name ∈ tbl.*1 → mask_of d organ_name = Some m → length m = length img.

(** The IDs fit the 8-bit output. *)
Definition ids_uint8 (tbl : list (string * Z)) : Prop :=
  Forall (λ e, 0 ≤ e.2 < 256) tbl.

(** No voxel is foreground in the masks of two different organs. *)
Definition pairwise_disjoint (tbl : list (string * Z)) (d : folder) : Prop :=
  ∀ n1 n2 v, n1 ∈ tbl.*1 → n2 ∈ tbl.*1 → n1 ≠ n2 →
             fg d n1 v = true → fg d n2 v = true → False.

(** The part of a name before its last dot, when it has a dot. *)
Fixpoint before_last_dot (s : string) : option string :=
  match s with
  | EmptyString => None
  | String c s' =>
      match before_last_dot s' with
      | Some t => Some (String c t)
      | None => if Ascii.eqb c "." then Some EmptyString else None
      end
  end.

(** The stem of a file name: the name without its extension, split at the
    last dot as [os.path.splitext] does (leading dots start no
    extension). *)
Fixpoint stem (fname : string) : string :=
  match fname with
  | EmptyString => EmptyString
  | String c rest =>
      if Ascii.eqb c "." then String c (stem rest)
      else match before_last_dot rest with
           | Some t => String c t
           | None => fname
           end
  end.

(** The name is a stem, a dot and an extension of three characters, as in
    [Liver.nii]. *)
Definition three_letter_extension (fname : string) : Prop :=
  ∃ c s x y z,
    fname = String c s +:+ String "." (String x (String y (String z "")))
    ∧ c ≠ "."%char ∧ x ≠ "."%char ∧ y ≠ "."%char ∧ z ≠ "."%char.

(** The reads of the paint loop. *)
Definition reads (d : folder) (tbl : list (string * Z)) : list Assemble.event :=
  omap (λ e, if bool_decide (is_Some (mask_of d e.1))
             then Some (Assemble.EvReadImage (e.1 +:+ ".nii")) else None) tbl.

End AssembleSpec.


(** ** Voxel-wise reading of the splitter *)

Module SplitSpec.

(** The mask value of a voxel labelled [s] when label [ID] is extracted. *)
Definition hit (ID s : Z) : Z := if s =? ID then 255 else 0.

(** The sum of the extraction masks in unbounded integers. *)
Definition plain_sum (seg : image) (IDs : list Z) : image :=
  foldl (λ main ID, zip_with Z.add main (Split.extract seg ID)) (zeros_like seg) IDs.

(** The extraction mask of a single label: the voxels equal to the label
    are foreground (255), all others are 0. *)
Definition label_mask (seg : image) (ID : Z) : image := hit ID <$> seg.

(** The voxel-wise union of binary masks with as many voxels as [seg]: a
    voxel is foreground when it is foreground in one of them. *)
Definition union_masks (seg : image) (masks : list image) : image :=
  foldr (zip_with Z.max) (replicate (length seg) 0) masks.

(** The voxel-wise sum of masks with as many voxels as [seg], in unbounded
    integers. *)
Definition sum_masks (seg : image) (masks : list image) : image :=
  foldr (zip_with Z.add) (replicate (length seg) 0) masks.

(** The mask written for a label. *)
Definition split_mask (seg : image) (ID : Z) : image :=
  Cast_UInt8 match Split.MultipleOrgans !! ID with
             | Some IDs => Split.sum_extracts seg IDs
             | None => Split.extract seg ID
             end.

(** The events of the loop of [Execute]. *)
Definition writes (folder_save : string) (seg : image) (tbl : list (Z * string))
  : list Split.event :=
  flat_map (λ e, if contains e.1 seg
                 then [Split.EvWriteImage
                         (path_join folder_save (Split.file_name e.1 e.2))
                         (split_mask seg e.1)]
                 else []) tbl.

(** The directory events before the loop. *)
Definition makedirs_events (save_dir : dir_status) (folder_save : string)
  : list Split.event :=
  match save_dir with
  | DirMissing true => [Split.EvMakedirs folder_save]
  | _ => []
  end.

(** [Execute] writes a file for the entry [(ID, name)]. *)
Definition emitted (log : list Split.event) (folder_save : string)
    (ID : Z) (name : string) : Prop :=
  ∃ img, (path_join folder_save (Split.file_name ID name), img) ∈ Split.written log.

End SplitSpec.

(** ** Pair-wise reading of the overlap analysis *)

Module OverlapSpec.

(** The file names that are compared. *)
Definition compared (d : folder) (stop_organ_list : option (list string))
  : list string :=
  filter (λ organ, organ ∉ default [] stop_organ_list) (listdir d).

(** The number of foreground voxels of a mask, and of two masks at once. *)
Definition volume_of (a : image) : Z := np_sum (astype_bool a).
Definition intersection (a b : image) : Z :=
  np_sum (zip_with andb (astype_bool a) (astype_bool b)).

(** The report condition of a pair of masks. *)
Definition reported (a b : image) : Prop :=
  intersection a b ≠ 0
  ∧ (F64.geb (Assemble.percentage (intersection a b) (volume_of a)) 1%float = true
     ∨ F64.geb (Assemble.percentage (intersection a b) (volume_of b)) 1%float = true).

Definition reportedb (a b : image) : bool :=
  negb (intersection a b =? 0)
  && (F64.geb (Assemble.percentage (intersection a b) (volume_of a)) 1%float
      || F64.geb (Assemble.percentage (intersection a b) (volume_of b)) 1%float).

(** The line of a pair of files. *)
Definition line_of (fname_i fname_j : string) (a b : image) : Assemble.report :=
  Assemble.Report (intersection a b)
    (Assemble.percentage (intersection a b) (volume_of a))
    (Assemble.percentage (intersection a b) (volume_of b))
    (drop_last4 fname_i) (volume_of a)
    (drop_last4 fname_j) (volume_of b)
    (Assemble.volume_ratio (volume_of a) (volume_of b)).

(** The events of one comparison. *)
Definition pair_events (d : folder) (organs : list string) (i j : nat)
  : list Assemble.event :=
  match organs !! i, organs !! j with
  | Some fname_i, Some fname_j =>
      match lookup_file d fname_i, lookup_file d fname_j with
      | Some a, Some b =>
          [Assemble.EvReadImage fname_i; Assemble.EvReadImage fname_j]
          ++ (if reportedb a b
              then [Assemble.EvPrint (line_of fname_i fname_j a b)] else [])
      | _, _ => []
      end
  | _, _ => []
  end.

(** The compared masks all have the same shape. *)
Definition same_shapes (d : folder) (organs : list string) : Prop :=
  ∀ f g a b, f ∈ organs → g ∈ organs →
             lookup_file d f = Some a → lookup_file d g = Some b →
             length a = length b.

(** No voxel is foreground in two of the compared masks. *)
Definition no_overlap (d : folder) (organs : list string) : Prop :=
  ∀ i j f g a b, (i < j)%nat → organs !! i = Some f → organs !! j = Some g →
                 lookup_file d f = Some a → lookup_file d g = Some b →
                 ∀ v x y, a !! v = Some x → b !! v = Some y → x = 0 ∨ y = 0.

End OverlapSpec.

(** ** The report condition in numbers *)

Module ReportSpec.

(** The number of voxels that are not 0 in a mask, and in two masks at
    once. *)
Definition own_voxels (a : image) : Z :=
  Z.of_nat (length (filter (λ x, x ≠ 0) a)).
Definition common_voxels (a b : image) : Z :=
  Z.of_nat (length (filter (λ p, p.1 ≠ 0 ∧ p.2 ≠ 0) (zip a b))).

(** A count as a double, and the double written with one decimal as
    [t / 10]. *)
Definition as_float (n : Z) : float := PrimFloat.of_uint63 (Uint63.of_Z n).
Definition tenths (t : Z) : float := PrimFloat.div (as_float t) 10%float.

(** The percentage of an organ: the intersection divided by the organ's own
    voxel count, times 100, rounded to one decimal. *)
Definition own_percentage (common own : Z) : float :=
  F64.round
    (PrimFloat.mul (PrimFloat.div (as_float common) (as_float own)) 100%float) 1.

(** [p] is at least [bound]. *)
Definition at_least (p bound : float) : Prop := PrimFloat.leb bound p = true.

(** The pair is reported: the intersection is not empty and one of the two
    percentages is at least 1. *)
Definition report_condition (a b : image) : Prop :=
  common_voxels a b ≠ 0
  ∧ (at_least (own_percentage (common_voxels a b) (own_voxels a)) 1%float
     ∨ at_least (own_percentage (common_voxels a b) (own_voxels b)) 1%float).

(** The ratio of the two voxel counts, rounded to two decimals. *)
Definition size_ratio (n_i n_j : Z) : float :=
  F64.round (PrimFloat.div (as_float n_i) (as_float n_j)) 2.

(** The line printed for a pair of files. *)
Definition report_line (fname_i fname_j : string) (a b : image) : Assemble.report :=
  Assemble.Report (common_voxels a b)
    (own_percentage (common_voxels a b) (own_voxels a))
    (own_percentage (common_voxels a b) (own_voxels b))
    (drop_last4 fname_i) (own_voxels a)
    (drop_last4 fname_j) (own_voxels b)
    (size_ratio (own_voxels a) (own_voxels b)).

(** [t] tenths is a nearest number with one decimal to the exact percentage
    [100 * common / own]. *)
Definition nearest_tenth (common own t : Z) : Prop :=
  2 * Z.abs (1000 * common - t * own) ≤ own.

(** The two facts about a percentage that are checked by evaluation: it is
    at least 1 exactly when the exact quotient is at least 0.95 percent, and
    it is the double of a nearest tenth. *)
Definition threshold_checked (common own : Z) : bool :=
  Bool.eqb (PrimFloat.leb 1%float (own_percentage common own))
           (19 * own <=? 2000 * common).

Definition tenth_checked (common own t : Z) : bool :=
  PrimFloat.eqb (own_percentage common own) (tenths t)
  && (2 * Z.abs (1000 * common - t * own) <=? own).

Definition percentage_checked (common own : Z) : bool :=
  threshold_checked common own
  && (tenth_checked common own (1000 * common / own)
      || tenth_checked common own (1000 * common / own + 1)).

(** The counts up to which the percentages are checked. *)
Definition checked_counts : Z := 300.

End ReportSpec.

(** ** Reading of the slice importer *)

Module Jpg2niiSpec.
Import Jpg2nii.

(** The longest prefix of the listing made of jpg files. *)
Fixpoint jpg_prefix (files : list entry) : list entry :=
  match files with
  | [] => []
  | f :: files' =>
      if bool_decide (kind f = Some "jpg") then f :: jpg_prefix files' else []
  end.

(** The row lengths of every slice. *)
Definition shape3 (v : volume) : list (list nat) :=
  (λ sl : slice, length <$> sl) <$> v.

(** Grey levels as [cv2.imread] returns them. *)
Definition uint8_slice (sl : slice) : Prop :=
  Forall (Forall (λ x, 0 ≤ x ≤ 255)) sl.
Definition uint8_volume (v : volume) : Prop := Forall uint8_slice v.

(** The position that [seg[z]] denotes in an array of [n] slices. *)
Definition position (n : nat) (z : Z) : nat :=
  Z.to_nat (if z <? 0 then z + Z.of_nat n else z).

(** A jpg file that decodes to a slice of the shape of the reference image
    and whose layer is inside it. *)
Definition placeable (layer : string → outcome Z) (img : volume) (f : entry)
  : Prop :=
  kind f = Some "jpg"
  ∧ ∃ (sl : slice) (z : Z),
      pixels f = Some sl
      ∧ layer (fname f) = Ok z
      ∧ - Z.of_nat (length img) ≤ z < Z.of_nat (length img)
      ∧ shape3 img !! position (length img) z = Some (length <$> sl)
      ∧ uint8_slice sl.

(** The exception of the type check on a file that is not a jpg. *)
Definition wrong_type_error (f : entry) : exn :=
  match kind f with
  | None => AttributeError
  | Some _ => AssertionError "Wrong type in specified folder."
  end.

(** A slice of zeros of the shape of [sl]. *)
Definition blank_slice (sl : slice) : slice :=
  (λ row : list Z, replicate (length row) 0) <$> sl.

(** The threshold as one function of the voxel. *)
Definition threshold_voxel (threshold x : Z) : Z :=
  if threshold <? x then 255 else 0.

End Jpg2niiSpec.

(** ** Inputs used in the examples *)

(** Three masks that overlap at the single voxel of the volume. *)
Definition three_overlapping : folder :=
  [ ("Body.nii", [255]); ("Skin.nii", [255]); ("Muscle.nii", [255]) ].

(** The example of the specification: A at voxels 0,1,2 and B at 2,3. *)
Definition two_overlapping : folder :=
  [ ("A.nii", [255; 255; 255; 0]); ("B.nii", [0; 0; 255; 255]) ].

(** Two organ masks without a common foreground voxel. *)
Definition two_disjoint : folder :=
  [ ("Lung.nii", [0; 255; 0]); ("Liver.nii", [255; 0; 0]) ].

(** Muscle covers both voxels, Lung the second one. *)
Definition muscle_under_lung : folder :=
  [ ("Muscle.nii", [255; 255]); ("Lung.nii", [0; 255]) ].

(** Liver and Lung on different voxels. *)
Definition liver_and_lung : folder :=
  [ ("Liver.nii", [255; 0; 255]); ("Lung.nii", [0; 255; 0]) ].

(** A Liver mask whose foreground value is 1. *)
Definition liver_of_ones : folder := [ ("Liver.nii", [1; 0]) ].

(** A Liver mask without foreground next to a Lung mask. *)
Definition empty_liver : folder :=
  [ ("Liver.nii", [0; 0]); ("Lung.nii", [0; 255]) ].

(** Two aliases of label 65 on different voxels. *)
Definition two_aliases : folder :=
  [ ("SCord.nii", [255; 0]); ("SpinalCore.nii", [0; 255]) ].

(** Body and Lung share one voxel of the three of Body. *)
Definition body_and_lung : folder :=
  [ ("Body.nii", [255; 255; 255; 0]); ("Lung.nii", [0; 0; 255; 255]) ].

(** Two masks of 106 voxels each that touch in a single voxel. *)
Definition touching : folder :=
  [ ("Body.nii", replicate 106 255 ++ replicate 105 0);
    ("Lung.nii", replicate 105 0 ++ replicate 106 255) ].

(** A naming convention that puts every slice on layer 0. *)
Definition layer_zero (fname : string) : outcome Z := Ok 0.

(** An interpreter of [int] that accepts nothing. *)
Definition no_int (s : string) : outcome Z := Raise ValueError.

(** A reference image of two slices of two rows of two voxels. *)
Definition cube : list (list (list Z)) :=
  [ [ [7; 7]; [7; 7] ]; [ [7; 7]; [7; 7] ] ].

(** One bright voxel in the corner of the slice. *)
Definition corner_slice : list (list Z) := [ [200; 0]; [0; 0] ].

(** A jpg file followed by a file of another type. *)
Definition jpg_then_png : list Jpg2nii.entry :=
  [ Jpg2nii.Entry "a0000.jpg" (Some "jpg") (Some corner_slice);
    Jpg2nii.Entry "a0001.jpg" (Some "png") (Some corner_slice) ].

(** A directory with one jpg file. *)
Definition one_jpg : list Jpg2nii.entry :=
  [ Jpg2nii.Entry "a0000.jpg" (Some "jpg") (Some corner_slice) ].

(** A mask whose name has no extension, and one with a longer extension. *)
Definition lung_without_extension : folder := [ ("Lung1234", [255; 0]) ].
Definition liver_nrrd : folder := [ ("Liver.nrrd", [255; 0]) ].

(** A Liver mask in another format next to a Lung mask. *)
Definition liver_mha_and_lung : folder :=
  [ ("Liver.mha", [255; 255]); ("Lung.nii", [0; 255]) ].

(** ** Further notions *)

Module MoreSpec.

(** The file is named after a key of the table. *)
Definition named_after_key (tbl : list (string * Z)) (fname : string) : bool :=
  bool_decide (fname ∈ (λ n, n +:+ ".nii") <$> tbl.*1).

(** The labels that make a voxel foreground in the file of [ID]. *)
Definition members (ID : Z) : list Z := default [ID] (Split.MultipleOrgans !! ID).

(** The file written for an entry of [StandardName]. *)
Definition file_of (folder_save : string) (seg : image) (e : Z * string)
  : string * image :=
  (path_join folder_save (Split.file_name e.1 e.2), SplitSpec.split_mask seg e.1).

(** The names of the files read, in order. *)
Definition read_names (log : list Assemble.event) : list string :=
  omap (λ ev, match ev with Assemble.EvReadImage f => Some f | _ => None end) log.

(** The lines printed, in order. *)
Definition printed (log : list Assemble.event) : list Assemble.report :=
  omap (λ ev, match ev with Assemble.EvPrint line => Some line | _ => None end) log.

(** The report condition on two files of a directory. *)
Definition files_reported (d : folder) (f g : string) : bool :=
  match lookup_file d f, lookup_file d g with
  | Some a, Some b => OverlapSpec.reportedb a b
  | _, _ => false
  end.

(** The number of pairs of a list, earlier element first, that satisfy a
    relation. *)
Fixpoint count_pairs {A} (R : A → A → bool) (l : list A) : nat :=
  match l with
  | [] => 0
  | x :: l' => length (filter (λ y, R x y = true) l') + count_pairs R l'
  end.

End MoreSpec.

(** ** Further notions for the slice importer *)

Module Jpg2niiMore.
Import Jpg2nii Jpg2niiSpec.

(** The position in an array of [n] slices where a file is placed. *)
Definition placed_at (layer : string → outcome Z) (n : nat) (f : entry)
  : option nat :=
  match layer (fname f) with
  | Ok z => Some (position n z)
  | Raise _ => None
  end.

(** The picture of the last file of the listing that is placed at [k]. *)
Fixpoint last_slice (layer : string → outcome Z) (n k : nat) (files : list entry)
  : option slice :=
  match files with
  | [] => None
  | f :: files' =>
      match last_slice layer n k files' with
      | Some sl => Some sl
      | None => if bool_decide (placed_at layer n f = Some k) then pixels f else None
      end
  end.

(** Every voxel satisfies [P]. *)
Definition all_voxels (P : Z → Prop) (v : volume) : Prop :=
  Forall (Forall (Forall P)) v.

End Jpg2niiMore.

(** Two pictures for the same layer, counted from the end. *)
Definition bright_slice : list (list Z) := [ [0; 0]; [0; 250] ].
Definition last_layer (fname : string) : outcome Z := Ok (-1).
Definition two_for_one_layer : list Jpg2nii.entry :=
  [ Jpg2nii.Entry "a0001.jpg" (Some "jpg") (Some corner_slice);
    Jpg2nii.Entry "b0001.jpg" (Some "jpg") (Some bright_slice) ].

(** A jpg file followed by a file of no known type. *)
Definition jpg_then_unknown : list Jpg2nii.entry :=
  [ Jpg2nii.Entry "a0000.jpg" (Some "jpg") (Some corner_slice);
    Jpg2nii.Entry "notes" None None ].
(** ** Facts about the event monad and file names *)

Lemma bind_logged {E A B} (l : list E) (a : A) (k : A → io E B) :
  ((l, Ok a) ≫= k) = (l ++ (k a).1, (k a).2).
Proof. unfold mbind, io_bind. by destruct (k a). Qed.

Lemma bind_pure {E A B} (a : A) (k : A → io E B) : (mret a ≫= k) = k a.
Proof. unfold mret, io_ret. rewrite bind_logged. by destruct (k a). Qed.

Lemma bind_raised {E A B} (l : list E) (e : exn) (k : A → io E B) :
  ((l, Raise e) ≫= k) = (l, Raise e).
Proof. done. Qed.

Lemma bind_raise {E A B} (e : exn) (k : A → io E B) :
  (raise e ≫= k) = raise e.
Proof. done. Qed.

Lemma bind_emit {E B} (e : E) (k : unit → io E B) :
  (emit e ≫= k) = (e :: (k tt).1, (k tt).2).
Proof. unfold emit. by rewrite bind_logged. Qed.

Lemma elementwise_same {E A B C} (f : A → B → C) (a : list A) (b : list B) :
  length a = length b →
  elementwise (E:=E) f a b = mret (zip_with f a b).
Proof. intros H. unfold elementwise. by rewrite bool_decide_eq_true_2. Qed.

Lemma lookup_file_listed (d : folder) (fname : string) :
  fname ∈ listdir d ↔ is_Some (lookup_file d fname).
Proof.
  unfold listdir. induction d as [|[n a] d IH]; simpl.
  - split; [by intros ?%elem_of_nil | by intros [? ?]].
  - rewrite elem_of_cons. case_bool_decide; subst.
    + split; eauto.
    + rewrite <- IH. split; [intros [?|?]; [congruence | done] | by right].
Qed.

Lemma substring_whole_prefix (s t : string) :
  String.substring 0 (String.length s) (s +:+ t) = s.
Proof. induction s as [|c s IH]; simpl; [by destruct t | by rewrite IH]. Qed.

Lemma length_string_app (s t : string) :
  String.length (s +:+ t) = (String.length s + String.length t)%nat.
Proof. induction s as [|c s IH]; simpl; [done | by rewrite IH]. Qed.

Lemma drop_last4_nii (organ_name : string) :
  drop_last4 (organ_name +:+ ".nii") = organ_name.
Proof.
  unfold drop_last4. rewrite length_string_app. simpl.
  replace (String.length organ_name + 4 - 4)%nat with (String.length organ_name) by lia.
  apply substring_whole_prefix.
Qed.

Lemma drop_last4_app (s t : string) :
  String.length t = 4%nat → drop_last4 (s +:+ t) = s.
Proof.
  intros Ht. unfold drop_last4. rewrite length_string_app, Ht.
  replace (String.length s + 4 - 4)%nat with (String.length s) by lia.
  apply substring_whole_prefix.
Qed.

Lemma string_app_inj_l (a x y : string) : a +:+ x = a +:+ y → x = y.
Proof. induction a as [|c a IH]; simpl; [done | intros [= H]; auto]. Qed.

Lemma path_join_inj (a x y : string) : path_join a x = path_join a y → x = y.
Proof.
  unfold path_join. case_bool_decide; [done|].
  destruct (ends_with_slash a).
  - apply string_app_inj_l.
  - intros Hxy%string_app_inj_l. by apply (string_app_inj_l "/").
Qed.

(** ** The assembler, voxel by voxel *)

Section AssembleFacts.
Import Assemble AssembleSpec.

Lemma paint_arrays (seg organ : image) (ID : Z) :
  zip_with Z.add
    (zip_with (λ s (m : bool), s * Z.b2z m) seg
       (zip_with xorb (astype_bool seg)
          (zip_with andb (astype_bool seg) (astype_bool organ))))
    ((λ b : bool, Z.b2z b * ID) <$> astype_bool organ)
  = zip_with (paint_voxel ID) seg organ.
Proof.
  unfold astype_bool. revert organ.
  induction seg as [|s seg IH]; intros [|o organ]; simpl; try done.
  rewrite IH. f_equal. unfold paint_voxel.
  destruct (Z.eqb_spec s 0), (Z.eqb_spec o 0); simpl; lia.
Qed.

Lemma paint_voxelwise (seg organ : image) (ID : Z) :
  length organ = length seg →
  paint (seg, astype_bool seg) organ ID
  = mret (zip_with (paint_voxel ID) seg organ,
          astype_bool (zip_with (paint_voxel ID) seg organ)).
Proof.
  intros Hlen. unfold paint.
  assert (Hb : ∀ a : image, length (astype_bool a) = length a)
    by (intros a; apply length_fmap).
  rewrite elementwise_same, bind_pure by (rewrite !Hb; lia).
  rewrite elementwise_same, bind_pure
    by (rewrite length_zip_with, !Hb; lia).
  rewrite elementwise_same, bind_pure
    by (rewrite !length_zip_with, !Hb; lia).
  rewrite elementwise_same, bind_pure
    by (rewrite !length_zip_with, length_fmap, !Hb; lia).
  by rewrite paint_arrays.
Qed.

Lemma lookup_paint_voxelwise (seg organ : image) (ID : Z) (v : nat) :
  length organ = length seg →
  zip_with (paint_voxel ID) seg organ !! v
  = (λ s, match organ !! v with Some o => paint_voxel ID s o | None => s end)
      <$> seg !! v.
Proof.
  intros Hlen. rewrite lookup_zip_with.
  destruct (seg !! v) as [s|] eqn:Hs; simpl; [|done].
  destruct (organ !! v) as [o|] eqn:Ho; simpl; [done|].
  apply lookup_lt_Some in Hs. apply lookup_ge_None in Ho. lia.
Qed.

Lemma ReadImage_listed (d : folder) (fname : string) (m : image) :
  lookup_file d fname = Some m →
  ReadImage d fname = ([EvReadImage fname], Ok m).
Proof. intros H. unfold ReadImage. rewrite H. by rewrite bind_emit. Qed.

Lemma voxel_after_cons d n ID tbl v s :
  voxel_after d ((n, ID) :: tbl) v s
  = voxel_after d tbl v (if fg d n v then ID else s).
Proof. done. Qed.

(** The paint loop succeeds on masks of the right shape, reads each
    present organ once, and leaves at each voxel the ID of the last mask
    that is foreground there. *)
Lemma paint_all_voxelwise (tbl : list (string * Z)) (d : folder) (seg : image) :
  (∀ n m, n ∈ tbl.*1 → mask_of d n = Some m → length m = length seg) →
  ∃ seg' : image,
    paint_all tbl d (seg, astype_bool seg)
    = (reads d tbl, Ok (seg', astype_bool seg'))
    ∧ length seg' = length seg
    ∧ ∀ v, seg' !! v = voxel_after d tbl v <$> seg !! v.
Proof.
  revert seg. induction tbl as [|[n ID] tbl IH]; intros seg Hshape.
  - exists seg. split_and!; [done..|].
    intros v. by destruct (seg !! v).
  - cbn [paint_all]. unfold reads. cbn [omap list_omap fst].
    fold (reads d tbl).
    destruct (mask_of d n) as [m|] eqn:Hm.
    + assert (Hlisted : (n +:+ ".nii") ∈ listdir d)
        by (apply lookup_file_listed; unfold mask_of in Hm; eauto).
      rewrite bool_decide_eq_true_2 by done.
      rewrite bool_decide_eq_true_2 by eauto.
      assert (Hlen : length m = length seg).
      { apply (Hshape n); [rewrite fmap_cons; left | done]. }
      rewrite (ReadImage_listed d _ m Hm), bind_logged.
      rewrite paint_voxelwise, bind_pure by done.
      destruct (IH (zip_with (paint_voxel ID) seg m)) as (seg' & Hrun & Hl & Hv).
      { intros n' m' Hn' Hm'. rewrite length_zip_with, Hlen, Nat.min_id.
        apply (Hshape n'); [rewrite fmap_cons; by right | done]. }
      exists seg'. rewrite Hrun. split_and!; [done| |].
      * rewrite Hl, length_zip_with. lia.
      * intros v. rewrite Hv, lookup_paint_voxelwise by done.
        rewrite <- option_fmap_compose. apply option_fmap_ext. intros s.
        unfold compose. rewrite voxel_after_cons. f_equal.
        unfold fg. rewrite Hm. unfold paint_voxel.
        destruct (m !! v) as [o|]; [by destruct (o =? 0)|done].
    + assert (Hnot : (n +:+ ".nii") ∉ listdir d).
      { intros [x Hx]%lookup_file_listed. unfold mask_of in Hm. congruence. }
      rewrite bool_decide_eq_false_2 by done.
      rewrite bool_decide_eq_false_2 by (intros [? ?]; congruence).
      destruct (IH seg) as (seg' & Hrun & Hl & Hv).
      { intros n' m' Hn' Hm'. apply (Hshape n'); [rewrite fmap_cons; by right|done]. }
      exists seg'. split_and!; [done..|].
      intros v. rewrite Hv. apply option_fmap_ext. intros s.
      rewrite voxel_after_cons. unfold fg. by rewrite Hm.
Qed.

Lemma validation_passes (tbl : list (string * Z)) (d : folder) :
  all_known tbl d →
  filter (λ fname, drop_last4 fname ∉ tbl.*1) (listdir d) = [].
Proof.
  unfold all_known. induction (listdir d) as [|f l IH]; [done|].
  intros [Hf Hl]%Forall_cons. rewrite filter_cons.
  destruct (decide _); [done | by apply IH].
Qed.

Lemma validation_fails (tbl : list (string * Z)) (d : folder) :
  ¬ all_known tbl d →
  length (filter (λ fname, drop_last4 fname ∉ tbl.*1) (listdir d)) ≠ 0%nat.
Proof.
  unfold all_known. intros Hnot Hlen. apply Hnot.
  apply Forall_forall. intros f Hf.
  destruct (decide (drop_last4 f ∈ tbl.*1)) as [|Hout]; [done|].
  apply nil_length_inv in Hlen.
  assert (Hin : f ∈ filter (λ fname, drop_last4 fname ∉ tbl.*1) (listdir d))
    by (apply list_elem_of_filter; done).
  rewrite Hlen in Hin. by apply elem_of_nil in Hin.
Qed.

(** [ExecuteWith] on a directory that passes the validation, with masks of
    the shape of the reference image. *)
Lemma ExecuteWith_voxelwise tbl self_fpath_save (img : image) (d : folder)
    fpath_save path :
  or_attribute fpath_save self_fpath_save = Some path →
  all_known tbl d →
  shapes_agree tbl d img →
  ∃ seg : image,
    ExecuteWith tbl self_fpath_save img d fpath_save
    = (reads d tbl ++ [EvWriteImage path seg], Ok seg)
    ∧ length seg = length img
    ∧ ∀ v, seg !! v = (λ _, voxel_after d tbl v 0 `mod` 256) <$> img !! v.
Proof.
  intros Hpath Hknown Hshape. unfold ExecuteWith. rewrite Hpath.
  rewrite validation_passes by done. cbn [length].
  rewrite bool_decide_eq_true_2 by done.
  unfold assert. rewrite bind_pure.
  destruct (paint_all_voxelwise tbl d (zeros_like img)) as (seg & Hrun & Hl & Hv).
  { intros n m Hn Hm. unfold zeros_like. rewrite length_fmap. by apply (Hshape n). }
  rewrite Hrun, bind_logged. cbn [fst snd].
  rewrite bind_emit. cbn [fst snd mret io_ret].
  exists (Cast_UInt8 seg). split_and!; [done| |].
  - unfold Cast_UInt8. rewrite length_fmap, Hl. unfold zeros_like.
    by rewrite length_fmap.
  - intros v. unfold Cast_UInt8. rewrite list_lookup_fmap, Hv.
    unfold zeros_like. rewrite list_lookup_fmap.
    by destruct (img !! v).
Qed.

(** *** What one voxel holds after the loop *)

Lemma voxel_after_app d l1 l2 v s :
  voxel_after d (l1 ++ l2) v s = voxel_after d l2 v (voxel_after d l1 v s).
Proof. apply foldl_app. Qed.

Lemma voxel_after_no_fg d l v s :
  (∀ n, n ∈ l.*1 → fg d n v = false) → voxel_after d l v s = s.
Proof.
  revert s. induction l as [|[n ID] l IH]; intros s Hno; [done|].
  rewrite voxel_after_cons, (Hno n) by (rewrite fmap_cons; left).
  apply IH. intros n' Hn'. apply Hno. rewrite fmap_cons. by right.
Qed.

Lemma voxel_after_last_fg d l1 B idB l3 v s :
  fg d B v = true →
  (∀ n, n ∈ l3.*1 → fg d n v = false) →
  voxel_after d (l1 ++ (B, idB) :: l3) v s = idB.
Proof.
  intros HB Hno. rewrite voxel_after_app, voxel_after_cons, HB.
  by apply voxel_after_no_fg.
Qed.

(** The label is the initial one, or the ID of an entry that is
    foreground at the voxel and after which no entry is. *)
Lemma voxel_after_cases d l v s :
  (voxel_after d l v s = s ∧ ∀ n, n ∈ l.*1 → fg d n v = false)
  ∨ ∃ l1 n ID l3, l = l1 ++ (n, ID) :: l3 ∧ fg d n v = true
      ∧ (∀ n', n' ∈ l3.*1 → fg d n' v = false)
      ∧ voxel_after d l v s = ID.
Proof.
  revert s. induction l as [|[n ID] l IH]; intros s.
  - left. split; [done|]. intros n Hn. by apply elem_of_nil in Hn.
  - rewrite voxel_after_cons.
    destruct (IH (if fg d n v then ID else s))
      as [[Heq Hno]|(l1 & n' & ID' & l3 & -> & Hfg & Hno & Heq)].
    + destruct (fg d n v) eqn:Hn.
      * right. exists [], n, ID, l. by rewrite Heq.
      * left. split; [done|]. intros n' [->|Hn']%elem_of_cons; auto.
    + right. exists ((n, ID) :: l1), n', ID', l3. by rewrite Heq.
Qed.

Lemma fg_in_range d tbl img n v :
  shapes_agree tbl d img → n ∈ tbl.*1 → fg d n v = true →
  is_Some (img !! v).
Proof.
  intros Hshape Hn Hfg. unfold fg in Hfg.
  destruct (mask_of d n) as [m|] eqn:Hm; [|done].
  destruct (m !! v) as [o|] eqn:Ho; [|done].
  apply lookup_lt_is_Some. rewrite <- (Hshape n m Hn Hm).
  by apply lookup_lt_Some in Ho.
Qed.

Lemma fg_listed d n v : fg d n v = true → (n +:+ ".nii") ∈ listdir d.
Proof.
  unfold fg, mask_of. intros H. apply lookup_file_listed.
  destruct (lookup_file d (n +:+ ".nii")); [eauto | done].
Qed.

Lemma nii_inj n n' : n +:+ ".nii" = n' +:+ ".nii" → n = n'.
Proof. intros H. by rewrite <- (drop_last4_nii n), H, drop_last4_nii. Qed.

(** *** Disjoint masks: painting is summing *)

Lemma voxel_sum_cons d n ID tbl v :
  voxel_sum d ((n, ID) :: tbl) v
  = (if fg d n v then ID else 0) + voxel_sum d tbl v.
Proof. done. Qed.

Lemma voxel_sum_no_fg d l v :
  (∀ n, n ∈ l.*1 → fg d n v = false) → voxel_sum d l v = 0.
Proof.
  induction l as [|[n ID] l IH]; intros Hno; [done|].
  rewrite voxel_sum_cons, (Hno n) by (rewrite fmap_cons; left).
  rewrite IH; [done|]. intros n' Hn'. apply Hno. rewrite fmap_cons. by right.
Qed.

Lemma voxel_sum_perm d l l' v : l ≡ₚ l' → voxel_sum d l v = voxel_sum d l' v.
Proof.
  induction 1 as [|[n ID] l l' _ IH|[n1 ID1] [n2 ID2] l|l1 l2 l3 _ IH1 _ IH2].
  - done.
  - by rewrite !voxel_sum_cons, IH.
  - rewrite !voxel_sum_cons. lia.
  - congruence.
Qed.

(** With distinct keys and disjoint masks, the label left at a voxel that
    started at 0 is the sum of the scaled masks there. *)
Lemma voxel_after_disjoint d l v :
  NoDup l.*1 →
  (∀ n1 n2, n1 ∈ l.*1 → n2 ∈ l.*1 → n1 ≠ n2 →
            fg d n1 v = true → fg d n2 v = true → False) →
  voxel_after d l v 0 = voxel_sum d l v.
Proof.
  intros Hnd Hdis.
  destruct (voxel_after_cases d l v 0)
    as [[Heq Hno]|(l1 & n & ID & l3 & -> & Hfg & Hno & Heq)].
  - by rewrite Heq, voxel_sum_no_fg.
  - rewrite Heq.
    rewrite (voxel_sum_perm d _ ((n, ID) :: l1 ++ l3))
      by (symmetry; apply Permutation_middle).
    rewrite voxel_sum_cons, Hfg, voxel_sum_no_fg; [lia|].
    intros n' Hn'. destruct (fg d n' v) eqn:Hfg'; [exfalso|done].
    rewrite fmap_app, fmap_cons in Hnd, Hdis. cbn [fst] in Hnd, Hdis.
    apply NoDup_app in Hnd as (_ & Hnd1 & [Hnd2 _]%NoDup_cons).
    rewrite fmap_app, elem_of_app in Hn'.
    apply (Hdis n n'); [| |intros ->|done..].
    + rewrite elem_of_app, elem_of_cons. auto.
    + rewrite elem_of_app, elem_of_cons. tauto.
    + destruct Hn' as [Hn'|Hn'].
      * apply (Hnd1 n' Hn'). by left.
      * by rewrite (Hno n' Hn') in Hfg.
Qed.

Lemma voxel_after_uint8 d l v s :
  ids_uint8 l → 0 ≤ s < 256 → 0 ≤ voxel_after d l v s < 256.
Proof.
  intros Hids Hs.
  destruct (voxel_after_cases d l v s)
    as [[-> _]|(l1 & n & ID & l3 & -> & _ & _ & ->)]; [done|].
  unfold ids_uint8 in Hids. rewrite Forall_app, Forall_cons in Hids.
  by destruct Hids as (_ & ? & _).
Qed.

Lemma painted_cons d n ID tbl :
  painted d ((n, ID) :: tbl)
  = match mask_of d n with
    | Some m => (ID, m) :: painted d tbl
    | None => painted d tbl
    end.
Proof. unfold painted. cbn [omap list_omap fst snd]. by destruct (mask_of d n). Qed.

Lemma lookup_union_of_labels d tbl (img : image) v :
  shapes_agree tbl d img →
  union_of_labels d tbl img !! v = (λ _, voxel_sum d tbl v) <$> img !! v.
Proof.
  unfold union_of_labels. induction tbl as [|[n ID] tbl IH]; intros Hshape.
  - cbn. destruct (img !! v) as [x|] eqn:Hx; cbn.
    + apply lookup_replicate_2. by apply lookup_lt_Some in Hx.
    + apply lookup_ge_None. rewrite length_replicate. by apply lookup_ge_None.
  - assert (Htl : shapes_agree tbl d img).
    { intros n' m' Hn'. apply (Hshape n'). rewrite fmap_cons. by right. }
    rewrite painted_cons, voxel_sum_cons. unfold fg.
    destruct (mask_of d n) as [m|] eqn:Hm.
    + rewrite fmap_cons. cbn [foldr]. rewrite lookup_zip_with, (IH Htl).
      unfold scaled. cbn [fst snd]. rewrite !list_lookup_fmap.
      assert (Hlen : length m = length img)
        by (apply (Hshape n); [rewrite fmap_cons; by left | done]).
      destruct (img !! v) as [x|] eqn:Hx.
      * destruct (lookup_lt_is_Some_2 m v) as [o Ho].
        { rewrite Hlen. by apply lookup_lt_Some in Hx. }
        rewrite Ho. cbn. f_equal. destruct o; cbn; lia.
      * by destruct (m !! v).
    + rewrite (IH Htl). destruct (img !! v); cbn; [f_equal; lia | done].
Qed.

(** *** Stems *)

Lemma before_last_dot_app (s t : string) :
  before_last_dot t = None → before_last_dot (s +:+ String "." t) = Some s.
Proof.
  intros Ht. induction s as [|c s IH]; simpl.
  - by rewrite Ht.
  - by rewrite IH.
Qed.

Lemma stem_three_letter_extension (fname : string) :
  three_letter_extension fname → stem fname = drop_last4 fname.
Proof.
  intros (c & s & x & y & z & -> & Hc & Hx & Hy & Hz).
  rewrite drop_last4_app by done.
  apply Ascii.eqb_neq in Hc, Hx, Hy, Hz.
  change (String c s +:+ String "." (String x (String y (String z ""))))
    with (String c (s +:+ String "." (String x (String y (String z ""))))).
  cbn [stem]. rewrite Hc, before_last_dot_app; [done|].
  cbn [before_last_dot]. by rewrite Hx, Hy, Hz.
Qed.

(** *** The failures of [ExecuteWith] *)

Lemma paint_raises st organ ID e :
  (paint st organ ID).2 = Raise e → e = ValueError.
Proof.
  destruct st as [seg seg_bool]. unfold paint, elementwise.
  repeat (case_bool_decide; [rewrite bind_pure | by intros [= <-]]).
  by intros [=].
Qed.

Lemma paint_all_raises tbl d st e :
  (paint_all tbl d st).2 = Raise e → e = ValueError ∨ e = RuntimeError.
Proof.
  revert st. induction tbl as [|[n ID] tbl IH]; intros st; cbn [paint_all].
  - by intros [=].
  - case_bool_decide; [|by apply IH].
    destruct (lookup_file d (n +:+ ".nii")) as [m|] eqn:Hm.
    + rewrite (ReadImage_listed _ _ _ Hm), bind_logged. cbn [snd].
      destruct (paint st m ID) as [l [st'|e']] eqn:Hp.
      * rewrite bind_logged. cbn [snd]. apply IH.
      * rewrite bind_raised. intros [= <-]. left.
        apply (paint_raises st m ID). by rewrite Hp.
    + unfold ReadImage. rewrite Hm, bind_raise. intros [= <-]. by right.
Qed.

End AssembleFacts.

(** ** The splitter, voxel by voxel *)

Section SplitFacts.
Import Split SplitSpec.

Lemma zip_with_fmap_same {A B C D} (f : B → C → D) (g : A → B) (h : A → C)
    (l : list A) :
  zip_with f (g <$> l) (h <$> l) = (λ x, f (g x) (h x)) <$> l.
Proof. induction l as [|x l IH]; [done|]. cbn. by rewrite IH. Qed.

Lemma contains_spec (ID : Z) (seg : image) : contains ID seg = true ↔ ID ∈ seg.
Proof.
  unfold contains. rewrite existsb_exists. split.
  - intros (x & Hx & ->%Z.eqb_eq). by apply list_elem_of_In.
  - intros H. exists ID. split; [by apply list_elem_of_In | apply Z.eqb_refl].
Qed.

Lemma extract_voxelwise (seg : image) (ID : Z) : extract seg ID = hit ID <$> seg.
Proof.
  unfold extract, assign_where, hit.
  induction seg as [|s seg IH]; [done|]. cbn. rewrite IH. f_equal.
  by destruct (s =? ID).
Qed.

Lemma fold_extracts_voxelwise (add : Z → Z → Z) (f : Z → Z) (seg : image)
    (IDs : list Z) :
  foldl (λ main ID, zip_with add main (extract seg ID)) (f <$> seg) IDs
  = (λ s, foldl (λ acc ID, add acc (hit ID s)) (f s) IDs) <$> seg.
Proof.
  revert f. induction IDs as [|ID IDs IH]; intros f; [done|].
  cbn [foldl]. rewrite extract_voxelwise, zip_with_fmap_same.
  by rewrite (IH (λ s, add (f s) (hit ID s))).
Qed.

Lemma sum_extracts_voxelwise (seg : image) (IDs : list Z) :
  sum_extracts seg IDs
  = (λ s, foldl (λ acc ID, add_uint8 acc (hit ID s)) 0 IDs) <$> seg.
Proof. apply (fold_extracts_voxelwise add_uint8 (λ _, 0)). Qed.

Lemma plain_sum_voxelwise (seg : image) (IDs : list Z) :
  plain_sum seg IDs = (λ s, foldl (λ acc ID, acc + hit ID s) 0 IDs) <$> seg.
Proof. apply (fold_extracts_voxelwise Z.add (λ _, 0)). Qed.

Lemma fold_masks_voxelwise (op : Z → Z → Z) (seg : image) (IDs : list Z) :
  foldr (zip_with op) (replicate (length seg) 0) (label_mask seg <$> IDs)
  = (λ s, foldr (λ ID acc, op (hit ID s) acc) 0 IDs) <$> seg.
Proof.
  induction IDs as [|ID IDs IH].
  - cbn. symmetry. by apply const_fmap.
  - rewrite fmap_cons. cbn [foldr].
    unfold label_mask at 1. by rewrite IH, zip_with_fmap_same.
Qed.

Lemma union_masks_voxelwise (seg : image) (IDs : list Z) :
  union_masks seg (label_mask seg <$> IDs)
  = (λ s, foldr (λ ID acc, Z.max (hit ID s) acc) 0 IDs) <$> seg.
Proof. apply fold_masks_voxelwise. Qed.

Lemma sum_masks_voxelwise (seg : image) (IDs : list Z) :
  sum_masks seg (label_mask seg <$> IDs)
  = (λ s, foldr (λ ID acc, hit ID s + acc) 0 IDs) <$> seg.
Proof. apply fold_masks_voxelwise. Qed.

(** A voxel equals at most one of a list of distinct labels: the sum of its
    mask values is 255 when it is one of them and 0 otherwise, with or
    without the 8-bit wrap. *)
Lemma sum_hits_from (IDs : list Z) (s acc : Z) :
  NoDup IDs → (acc = 0 ∨ acc = 255 ∧ s ∉ IDs) →
  foldl (λ acc ID, add_uint8 acc (hit ID s)) acc IDs
  = foldl (λ acc ID, acc + hit ID s) acc IDs
  ∧ foldl (λ acc ID, acc + hit ID s) acc IDs
    = if bool_decide (acc = 255 ∨ s ∈ IDs) then 255 else 0.
Proof.
  revert acc. induction IDs as [|ID IDs IH]; intros acc Hnd Hacc.
  - cbn. split; [done|]. case_bool_decide as H.
    + destruct H as [?|H]; [done|]. by apply elem_of_nil in H.
    + destruct Hacc as [->|[-> _]]; [done|]. exfalso. apply H. by left.
  - apply NoDup_cons in Hnd as [Hnotin Hnd]. cbn [foldl].
    assert (Hstep : add_uint8 acc (hit ID s) = acc + hit ID s
                    ∧ (acc + hit ID s = 0 ∨ acc + hit ID s = 255 ∧ s ∉ IDs)
                    ∧ (acc + hit ID s = 255 ↔ acc = 255 ∨ s = ID)).
    { unfold add_uint8, hit. destruct (Z.eqb_spec s ID) as [->|Hne].
      - destruct Hacc as [->|[_ Hs]]; [|exfalso; apply Hs; by left].
        split_and!; [done | by right | split; [by right | done]].
      - destruct Hacc as [->|[-> Hs]].
        + split_and!; [done | by left | ]. split; [lia | intros [?|?]; done].
        + split_and!; [done | | split; [by left | done]].
          right. split; [done|]. intros ?. apply Hs. by right. }
    destruct Hstep as (-> & Hacc' & Hiff).
    destruct (IH _ Hnd Hacc') as [-> ->]. split; [done|].
    apply (f_equal (λ b : bool, if b then 255 else 0)).
    apply bool_decide_ext. rewrite elem_of_cons, Hiff. tauto.
Qed.

Lemma sum_hits (IDs : list Z) (s : Z) :
  NoDup IDs →
  foldl (λ acc ID, add_uint8 acc (hit ID s)) 0 IDs
  = if bool_decide (s ∈ IDs) then 255 else 0.
Proof.
  intros Hnd. destruct (sum_hits_from IDs s 0 Hnd) as [-> ->]; [by left|].
  apply (f_equal (λ b : bool, if b then 255 else 0)). apply bool_decide_ext. split; [intros [?|?]; done | by right].
Qed.

Lemma plain_sum_hits (IDs : list Z) (s : Z) :
  NoDup IDs →
  foldl (λ acc ID, acc + hit ID s) 0 IDs
  = if bool_decide (s ∈ IDs) then 255 else 0.
Proof.
  intros Hnd. destruct (sum_hits_from IDs s 0 Hnd) as [_ ->]; [by left|].
  apply (f_equal (λ b : bool, if b then 255 else 0)). apply bool_decide_ext. split; [intros [?|?]; done | by right].
Qed.

Lemma max_hits (IDs : list Z) (s : Z) :
  foldr (λ ID acc, Z.max (hit ID s) acc) 0 IDs
  = if bool_decide (s ∈ IDs) then 255 else 0.
Proof.
  induction IDs as [|ID IDs IH]; [done|].
  cbn [foldr]. rewrite IH. unfold hit.
  destruct (Z.eqb_spec s ID) as [->|Hne].
  - rewrite (bool_decide_eq_true_2 (ID ∈ ID :: IDs)) by (by left).
    case_bool_decide; lia.
  - rewrite (bool_decide_ext (s ∈ ID :: IDs) (s ∈ IDs)).
    + case_bool_decide; lia.
    + rewrite elem_of_cons. split; [intros [?|?]; done | by right].
Qed.

Lemma sum_of_hits (IDs : list Z) (s : Z) :
  NoDup IDs →
  foldr (λ ID acc, hit ID s + acc) 0 IDs
  = if bool_decide (s ∈ IDs) then 255 else 0.
Proof.
  induction IDs as [|ID IDs IH]; intros Hnd; [done|].
  apply NoDup_cons in Hnd as [Hnotin Hnd].
  cbn [foldr]. rewrite (IH Hnd). unfold hit.
  destruct (Z.eqb_spec s ID) as [->|Hne].
  - rewrite (bool_decide_eq_true_2 (ID ∈ ID :: IDs)) by (by left).
    by rewrite (bool_decide_eq_false_2 (ID ∈ IDs)).
  - rewrite (bool_decide_ext (s ∈ ID :: IDs) (s ∈ IDs)); [done|].
    rewrite elem_of_cons. split; [intros [?|?]; done | by right].
Qed.

(** The table [MultipleOrgans], entry by entry. *)
Lemma MultipleOrgans_entries (ID : Z) (IDs : list Z) :
  MultipleOrgans !! ID = Some IDs →
  (ID, IDs) ∈ [ (10, [10; 11]); (22, [22; 23]); (18, [18; 76; 77]); (46, [46; 47]) ].
Proof. apply elem_of_list_to_map_2. Qed.

Lemma MultipleOrgans_sound (ID : Z) (IDs : list Z) :
  MultipleOrgans !! ID = Some IDs → NoDup IDs ∧ ID ∈ IDs ∧ ID ∈ StandardName.*1.
Proof.
  intros H%MultipleOrgans_entries.
  repeat (apply elem_of_cons in H as [[= -> ->]|H];
          [split_and!; by apply (bool_decide_unpack _)|]).
  by apply elem_of_nil in H.
Qed.

(** *** The run of [Execute] *)

Lemma split_label_run folder_save (seg : image) ID name :
  split_label folder_save seg (ID, name) = (writes folder_save seg [(ID, name)], Ok tt).
Proof.
  unfold split_label, writes, split_mask. cbn [flat_map fst snd].
  destruct (contains ID seg); [|done].
  unfold _AssembleMultipleOrgans.
  destruct (MultipleOrgans !! ID) as [IDs|] eqn:HID.
  - rewrite bool_decide_eq_true_2 by eauto. by rewrite bind_pure.
  - rewrite bool_decide_eq_false_2 by (by intros [? ?]). by rewrite bind_pure.
Qed.

Lemma for_each_split folder_save (seg : image) (tbl : list (Z * string)) :
  for_each tbl (split_label folder_save seg) = (writes folder_save seg tbl, Ok tt).
Proof.
  induction tbl as [|[ID name] tbl IH]; [done|].
  cbn [for_each]. rewrite split_label_run, bind_logged, IH.
  cbn [fst snd]. unfold writes. cbn [flat_map]. by rewrite app_nil_r.
Qed.

Lemma Execute_run self_folder_save save_dir (seg : image) folder_save folder :
  or_attribute folder_save self_folder_save = Some folder →
  save_dir ≠ DirMissing false →
  Execute self_folder_save save_dir seg folder_save
  = (makedirs_events save_dir folder ++ writes folder seg StandardName, Ok tt).
Proof.
  intros Hfolder Hdir. unfold Execute. rewrite Hfolder.
  destruct save_dir as [|[|]]; [| |done].
  - by rewrite bind_pure, for_each_split.
  - by rewrite bind_emit, for_each_split.
Qed.

Lemma written_writes folder (seg : image) tbl p (img : image) :
  (p, img) ∈ written (writes folder seg tbl)
  ↔ ∃ ID name, (ID, name) ∈ tbl ∧ ID ∈ seg
      ∧ p = path_join folder (file_name ID name) ∧ img = split_mask seg ID.
Proof.
  unfold written, writes. induction tbl as [|[ID name] tbl IH].
  - cbn. split; [by intros ?%elem_of_nil|].
    by intros (?&?&?%elem_of_nil&_).
  - cbn [flat_map fst snd]. rewrite omap_app, elem_of_app, IH.
    destruct (contains ID seg) eqn:Hc.
    + apply contains_spec in Hc. cbn. rewrite list_elem_of_singleton. split.
      * intros [[= -> ->]|(ID' & name' & Hin & ?)].
        -- exists ID, name. split_and!; [by left | done..].
        -- exists ID', name'. split; [by right | done].
      * intros (ID' & name' & [[= -> ->]|Hin]%elem_of_cons & Hs & -> & ->).
        -- by left.
        -- right. by exists ID', name'.
    + assert (Hnot : ID ∉ seg).
      { intros H%contains_spec. congruence. }
      cbn. split.
      * intros [?%elem_of_nil|(ID' & name' & Hin & ?)]; [done|].
        exists ID', name'. split; [by right | done].
      * intros (ID' & name' & [[= -> ->]|Hin]%elem_of_cons & Hs & -> & ->);
          [done|]. right. by exists ID', name'.
Qed.

Lemma written_makedirs save_dir folder (l : list event) :
  written (makedirs_events save_dir folder ++ l) = written l.
Proof. by destruct save_dir as [|[|]]. Qed.

Lemma file_names_distinct : NoDup ((λ e, file_name e.1 e.2) <$> StandardName).
Proof. by apply (bool_decide_unpack _). Qed.

Lemma NoDup_fmap_eq {A B} (f : A → B) (l : list A) (x y : A) :
  NoDup (f <$> l) → x ∈ l → y ∈ l → f x = f y → x = y.
Proof.
  induction l as [|a l IH]; [by intros _ ?%elem_of_nil|].
  rewrite fmap_cons. intros [Hnot Hnd]%NoDup_cons.
  intros [->|Hx]%elem_of_cons [->|Hy]%elem_of_cons Hf; [done| | |by apply IH].
  - exfalso. apply Hnot. rewrite Hf. by apply list_elem_of_fmap_2.
  - exfalso. apply Hnot. rewrite <- Hf. by apply list_elem_of_fmap_2.
Qed.

(** The file of a label of [StandardName] is written exactly when the label
    occurs in the volume, and then it holds [split_mask]. *)
Lemma written_for_label self_folder_save save_dir (seg : image) folder_save
    folder ID name (img : image) :
  or_attribute folder_save self_folder_save = Some folder →
  save_dir ≠ DirMissing false →
  (ID, name) ∈ StandardName →
  (path_join folder (file_name ID name), img)
    ∈ written (trace (Execute self_folder_save save_dir seg folder_save))
  ↔ ID ∈ seg ∧ img = split_mask seg ID.
Proof.
  intros Hfolder Hdir Hin.
  rewrite (Execute_run _ _ _ _ folder Hfolder Hdir). unfold trace. cbn [fst].
  rewrite written_makedirs, written_writes. split.
  - intros (ID' & name' & Hin' & Hs & Hp%path_join_inj & ->).
    assert (Heq : (ID, name) = (ID', name')).
    { by apply (NoDup_fmap_eq (λ e, file_name e.1 e.2) StandardName);
        [apply file_names_distinct|..]. }
    by injection Heq as -> ->.
  - intros [Hs ->]. by exists ID, name.
Qed.

End SplitFacts.

(** ** The overlap analysis, pair by pair *)

Section OverlapFacts.
Import Assemble OverlapSpec.

Lemma for_each_run {E A} (xs : list A) (body : A → io E unit)
    (events : A → list E) :
  (∀ x, x ∈ xs → body x = (events x, Ok tt)) →
  for_each xs body = (flat_map events xs, Ok tt).
Proof.
  induction xs as [|x xs IH]; intros Hbody; [done|].
  cbn [for_each flat_map].
  rewrite (Hbody x) by (by left). rewrite bind_logged.
  rewrite IH; [done|]. intros y Hy. apply Hbody. by right.
Qed.

Lemma elem_of_range (a b i : nat) : i ∈ range a b ↔ (a ≤ i < b)%nat.
Proof. unfold range. rewrite elem_of_seq. lia. Qed.

Lemma reportedb_spec (a b : image) : reportedb a b = true ↔ reported a b.
Proof.
  unfold reportedb, reported.
  rewrite andb_true_iff, orb_true_iff, negb_true_iff, Z.eqb_neq. done.
Qed.

Lemma compared_listed d stop f : f ∈ compared d stop → f ∈ listdir d.
Proof. unfold compared. by intros [_ ?]%list_elem_of_filter. Qed.

Lemma compare_pair_run (d : folder) stop (i j : nat) :
  same_shapes d (compared d stop) →
  (i < length (compared d stop))%nat → (j < length (compared d stop))%nat →
  compare_pair d (compared d stop) i j
  = (pair_events d (compared d stop) i j, Ok tt).
Proof.
  intros Hshape Hi Hj. unfold compare_pair, pair_events, getitem.
  destruct (lookup_lt_is_Some_2 _ _ Hi) as [fi Hfi].
  destruct (lookup_lt_is_Some_2 _ _ Hj) as [fj Hfj].
  rewrite Hfi, Hfj, !bind_pure.
  assert (Hini : fi ∈ compared d stop) by (apply list_elem_of_lookup; eauto).
  assert (Hinj : fj ∈ compared d stop) by (apply list_elem_of_lookup; eauto).
  destruct (proj1 (lookup_file_listed d fi) (compared_listed _ _ _ Hini)) as [a Ha].
  destruct (proj1 (lookup_file_listed d fj) (compared_listed _ _ _ Hinj)) as [b Hb].
  rewrite Ha, Hb.
  rewrite (ReadImage_listed d fi a Ha), bind_logged.
  rewrite (ReadImage_listed d fj b Hb), bind_logged.
  rewrite elementwise_same, bind_pure
    by (unfold astype_bool; rewrite !length_fmap; by apply (Hshape fi fj)).
  fold (intersection a b). fold (volume_of a). fold (volume_of b).
  fold (reportedb a b). fold (line_of fi fj a b).
  by destruct (reportedb a b).
Qed.

Lemma AnalyseOverlap_run (d : folder) stop :
  same_shapes d (compared d stop) →
  AnalyseOverlap d stop
  = (flat_map (λ i, flat_map (pair_events d (compared d stop) i)
                      (range (i + 1) (length (compared d stop))))
       (range 0 (length (compared d stop))), Ok 0).
Proof.
  intros Hshape. unfold AnalyseOverlap. fold (compared d stop).
  rewrite (for_each_run _ _
    (λ i, flat_map (pair_events d (compared d stop) i)
            (range (i + 1) (length (compared d stop))))).
  - rewrite bind_logged. cbn [fst snd mret io_ret]. by rewrite app_nil_r.
  - intros i Hi%elem_of_range. apply for_each_run.
    intros j Hj%elem_of_range. apply (compare_pair_run d stop); [done|lia..].
Qed.

Lemma print_in_pair_events d organs i j line :
  EvPrint line ∈ pair_events d organs i j
  ↔ ∃ fname_i fname_j a b,
      organs !! i = Some fname_i ∧ organs !! j = Some fname_j
      ∧ lookup_file d fname_i = Some a ∧ lookup_file d fname_j = Some b
      ∧ reported a b ∧ line = line_of fname_i fname_j a b.
Proof.
  unfold pair_events. split.
  - destruct (organs !! i) as [fi|] eqn:Hfi; [|by intros ?%elem_of_nil].
    destruct (organs !! j) as [fj|] eqn:Hfj; [|by intros ?%elem_of_nil].
    destruct (lookup_file d fi) as [a|] eqn:Ha; [|by intros ?%elem_of_nil].
    destruct (lookup_file d fj) as [b|] eqn:Hb; [|by intros ?%elem_of_nil].
    destruct (reportedb a b) eqn:Hr; cbn [app].
    + rewrite !elem_of_cons. intros [[=]|[[=]|[[= ->]|?%elem_of_nil]]]; [|done].
      apply reportedb_spec in Hr. by exists fi, fj, a, b.
    + rewrite !elem_of_cons. intros [[=]|[[=]|?%elem_of_nil]]. done.
  - intros (fi & fj & a & b & -> & -> & -> & -> & Hr%reportedb_spec & ->).
    rewrite Hr. cbn [app]. rewrite !elem_of_cons. auto.
Qed.

Lemma write_not_in_pair_events d organs i j p img :
  EvWriteImage p img ∉ pair_events d organs i j.
Proof.
  unfold pair_events.
  destruct (organs !! i) as [fi|]; [|by intros ?%elem_of_nil].
  destruct (organs !! j) as [fj|]; [|by intros ?%elem_of_nil].
  destruct (lookup_file d fi) as [a|]; [|by intros ?%elem_of_nil].
  destruct (lookup_file d fj) as [b|]; [|by intros ?%elem_of_nil].
  destruct (reportedb a b); cbn [app]; rewrite !elem_of_cons;
    intros H; repeat (destruct H as [[=]|H]); by apply elem_of_nil in H.
Qed.

Lemma elem_of_pairs (e : event) (d : folder) organs :
  e ∈ flat_map (λ i, flat_map (pair_events d organs i)
                       (range (i + 1) (length organs)))
        (range 0 (length organs))
  ↔ ∃ i j, (i < j < length organs)%nat ∧ e ∈ pair_events d organs i j.
Proof.
  rewrite list_elem_of_In, in_flat_map. split.
  - intros (i & Hi & He). apply in_flat_map in He as (j & Hj & He).
    apply list_elem_of_In, elem_of_range in Hi, Hj.
    exists i, j. split; [lia|]. by apply list_elem_of_In.
  - intros (i & j & Hij & He). exists i. split.
    + apply list_elem_of_In, elem_of_range. lia.
    + apply in_flat_map. exists j. split.
      * apply list_elem_of_In, elem_of_range. lia.
      * by apply list_elem_of_In.
Qed.

Lemma disjoint_intersection (a b : image) :
  (∀ v x y, a !! v = Some x → b !! v = Some y → x = 0 ∨ y = 0) →
  intersection a b = 0.
Proof.
  unfold intersection, astype_bool. revert b.
  induction a as [|x a IH]; intros [|y b] Hdis; try done.
  cbn. rewrite IH.
  - destruct (Hdis 0%nat x y eq_refl eq_refl) as [-> | ->]; cbn; [done|].
    by destruct (x =? 0).
  - intros v. apply (Hdis (S v)).
Qed.

(** *** The report condition in numbers *)

Lemma own_voxels_volume_of (a : image) : ReportSpec.own_voxels a = volume_of a.
Proof.
  unfold ReportSpec.own_voxels, volume_of, astype_bool.
  induction a as [|x a IH]; [done|].
  rewrite filter_cons, fmap_cons.
  change (np_sum (negb (x =? 0) :: ((λ v, negb (v =? 0)) <$> a)))
    with (Z.b2z (negb (x =? 0)) + np_sum ((λ v, negb (v =? 0)) <$> a)).
  rewrite <- IH.
  destruct (Z.eqb_spec x 0) as [->|Hx]; case_decide; try done;
    cbn [length negb Z.b2z]; lia.
Qed.

Lemma common_voxels_intersection (a b : image) :
  ReportSpec.common_voxels a b = intersection a b.
Proof.
  unfold ReportSpec.common_voxels, intersection, astype_bool. revert b.
  induction a as [|x a IH]; intros [|y b]; try done.
  rewrite !fmap_cons.
  change (zip (x :: a) (y :: b)) with ((x, y) :: zip a b).
  change (np_sum (zip_with andb (negb (x =? 0) :: ((λ v, negb (v =? 0)) <$> a))
                    (negb (y =? 0) :: ((λ v, negb (v =? 0)) <$> b))))
    with (Z.b2z (negb (x =? 0) && negb (y =? 0))
          + np_sum (zip_with andb ((λ v, negb (v =? 0)) <$> a)
                      ((λ v, negb (v =? 0)) <$> b))).
  rewrite filter_cons, <- IH. cbn [fst snd].
  destruct (Z.eqb_spec x 0) as [->|Hx], (Z.eqb_spec y 0) as [->|Hy];
    case_decide as H; try (destruct H; done); try (exfalso; apply H; done);
    cbn [length negb andb Z.b2z]; lia.
Qed.

Lemma report_condition_reported (a b : image) :
  ReportSpec.report_condition a b ↔ reported a b.
Proof.
  unfold ReportSpec.report_condition, reported.
  by rewrite common_voxels_intersection, !own_voxels_volume_of.
Qed.

Lemma report_line_line_of fname_i fname_j (a b : image) :
  ReportSpec.report_line fname_i fname_j a b = line_of fname_i fname_j a b.
Proof.
  unfold ReportSpec.report_line, line_of.
  by rewrite common_voxels_intersection, !own_voxels_volume_of.
Qed.

Lemma percentages_checked :
  forallb (λ own, forallb (λ common, ReportSpec.percentage_checked common own)
                    (seqZ 0 (own + 1)))
          (seqZ 1 ReportSpec.checked_counts) = true.
Proof. vm_compute. reflexivity. Qed.

Lemma percentage_checked_in_range (common own : Z) :
  0 ≤ common ≤ own → 0 < own ≤ ReportSpec.checked_counts →
  ReportSpec.percentage_checked common own = true.
Proof.
  intros Hc Ho.
  assert (Hown : In own (seqZ 1 ReportSpec.checked_counts))
    by (apply list_elem_of_In, elem_of_seqZ; lia).
  assert (Hcommon : In common (seqZ 0 (own + 1)))
    by (apply list_elem_of_In, elem_of_seqZ; lia).
  pose proof percentages_checked as H.
  apply forallb_forall with (x := own) in H; [|exact Hown].
  apply forallb_forall with (x := common) in H; [|exact Hcommon].
  exact H.
Qed.

End OverlapFacts.

(** ** The slice importer *)

Section Jpg2niiFacts.
Import Jpg2nii Jpg2niiSpec.

Lemma place_cases layer (seg : volume) (f : entry) :
  (kind f ≠ Some "jpg" ∧ ∃ e, place layer seg f = ([], Raise e))
  ∨ (kind f = Some "jpg" ∧ ∃ r, place layer seg f = ([EvImread (fname f)], r)).
Proof.
  unfold place. destruct (kind f) as [ext|]; [|left; split; [done | by eexists]].
  unfold assert. case_bool_decide as Hext.
  - subst ext. right. split; [done|].
    rewrite bind_pure, bind_emit. cbn [fst snd].
    destruct (layer (fname f)) as [z|e]; [|by eexists].
    destruct (setitem seg z (pixels f)) as [l r] eqn:Hset.
    assert (l = []) as ->; [|by eexists].
    revert Hset. unfold setitem.
    repeat (case_match; try (by intros [= <- _])).
  - left. split; [congruence|]. by eexists.
Qed.

(** Up to an exception the loop reads jpg files only, in listing order, and
    it raises when some file is not a jpg. *)
Lemma place_all_trace layer (seg : volume) (files : list entry) :
  (∃ n, trace (place_all layer seg files).2
        = (λ f, EvImread (fname f)) <$> take n (jpg_prefix files))
  ∧ ((∃ f, f ∈ files ∧ kind f ≠ Some "jpg") →
     ∃ e, result (place_all layer seg files).2 = Raise e).
Proof.
  revert seg. induction files as [|f files IH]; intros seg.
  - split; [by exists 0%nat|]. by intros (f & ?%elem_of_nil & _).
  - cbn [place_all jpg_prefix].
    destruct (place_cases layer seg f) as [[Hk [e ->]]|[Hk [[seg'|e] ->]]].
    + split; [by exists 0%nat | by eexists].
    + rewrite (bool_decide_eq_true_2 _ Hk).
      destruct (IH seg') as [[n Hn] Hraise].
      destruct (place_all layer seg' files) as [mem [log r]].
      unfold trace, result in *. cbn [fst snd] in *. split.
      * exists (S n). by rewrite Hn.
      * intros (g & [->|Hg]%elem_of_cons & Hbad); [done|].
        apply Hraise. by exists g.
    + rewrite (bool_decide_eq_true_2 _ Hk).
      split; [by exists 1%nat; destruct (jpg_prefix files) | by eexists].
Qed.

Lemma shape3_length (v w : volume) : shape3 v = shape3 w → length v = length w.
Proof.
  unfold shape3. intros H. apply (f_equal length) in H.
  by rewrite !length_fmap in H.
Qed.

Lemma shape3_zeros_like3 (v : volume) : shape3 (zeros_like3 v) = shape3 v.
Proof.
  unfold shape3, zeros_like3, map3. rewrite <- list_fmap_compose.
  apply list_fmap_ext. intros _ sl _. cbn. rewrite <- list_fmap_compose.
  apply list_fmap_ext. intros _ row _. cbn. apply length_fmap.
Qed.

Lemma uint8_zeros_like3 (v : volume) : uint8_volume (zeros_like3 v).
Proof.
  unfold uint8_volume, uint8_slice, zeros_like3, map3.
  apply Forall_fmap, Forall_forall. intros sl _.
  apply Forall_fmap, Forall_forall. intros row _.
  apply Forall_fmap, Forall_forall. intros x _. cbn. lia.
Qed.

Lemma place_placeable layer (img seg : volume) (f : entry) :
  shape3 seg = shape3 img → uint8_volume seg → placeable layer img f →
  ∃ seg', place layer seg f = ([EvImread (fname f)], Ok seg')
          ∧ shape3 seg' = shape3 img ∧ uint8_volume seg'.
Proof.
  intros Hshape Hrange (Hkind & sl & z & Hpix & Hlayer & Hz & Hsl & Hu8).
  pose proof (shape3_length _ _ Hshape) as Hlen.
  unfold place, assert. rewrite Hkind, bool_decide_eq_true_2 by done.
  rewrite bind_pure, bind_emit, Hlayer, Hpix. cbn [fst snd].
  unfold setitem. rewrite Hlen, bool_decide_eq_true_2 by done.
  fold (position (length img) z).
  rewrite <- Hshape in Hsl. unfold shape3 in Hsl.
  rewrite list_lookup_fmap in Hsl.
  destruct (seg !! position (length img) z) as [old|] eqn:Hold; [|done].
  injection Hsl as Hsl. rewrite bool_decide_eq_true_2 by done.
  eexists. split_and!; [done| |].
  - rewrite <- Hshape. unfold shape3. rewrite list_fmap_insert.
    apply list_insert_id. by rewrite list_lookup_fmap, Hold, <- Hsl.
  - by apply Forall_insert.
Qed.

(** On a directory of placeable files the loop completes. *)
Lemma place_all_completes layer (img seg : volume) (files : list entry) :
  shape3 seg = shape3 img → uint8_volume seg →
  Forall (placeable layer img) files →
  ∃ placed, place_all layer seg files
            = (placed, ((λ f, EvImread (fname f)) <$> files, Ok tt))
            ∧ uint8_volume placed.
Proof.
  revert seg. induction files as [|f files IH]; intros seg Hshape Hrange Hfiles.
  - by exists seg.
  - apply Forall_cons in Hfiles as [Hf Hfiles]. cbn [place_all].
    destruct (place_placeable layer img seg f Hshape Hrange Hf)
      as (seg' & -> & Hshape' & Hrange').
    destruct (IH seg' Hshape' Hrange' Hfiles) as (placed & -> & Hplaced).
    by exists placed.
Qed.

(** *** Thresholds and flips *)

Lemma map3_map3 (f g : Z → Z) (v : volume) :
  map3 f (map3 g v) = map3 (λ x, f (g x)) v.
Proof.
  unfold map3. rewrite map_map. apply map_ext. intros sl.
  rewrite map_map. apply map_ext. intros row. apply map_map.
Qed.

Lemma map3_ext_uint8 (f g : Z → Z) (v : volume) :
  uint8_volume v → (∀ x, 0 ≤ x ≤ 255 → f x = g x) → map3 f v = map3 g v.
Proof.
  intros Hv Hfg. unfold map3.
  apply map_ext_Forall. eapply Forall_impl; [exact Hv|]. intros sl Hsl.
  apply map_ext_Forall. eapply Forall_impl; [exact Hsl|]. intros row Hrow.
  apply map_ext_Forall. eapply Forall_impl; [exact Hrow|]. by intros x; apply Hfg.
Qed.

Lemma binarize_threshold (threshold : Z) (v : volume) :
  uint8_volume v → binarize threshold v = map3 (threshold_voxel threshold) v.
Proof.
  intros Hv. unfold binarize. rewrite map3_map3.
  apply map3_ext_uint8; [done|]. intros x Hx. unfold threshold_voxel.
  destruct (Z.gtb_spec x threshold), (Z.ltb_spec threshold x); try lia.
  - destruct (Z.leb_spec 255 threshold); lia.
  - destruct (Z.leb_spec x threshold); lia.
Qed.

Lemma np_flip_axes (v : volume) :
  np_flip v = flip_axis0 (flip_axis1 (flip_axis2 v)).
Proof.
  unfold np_flip, flip_axis0, flip_axis1, flip_axis2.
  by rewrite map_map.
Qed.

Lemma np_flip_map3 (f : Z → Z) (v : volume) :
  np_flip (map3 f v) = map3 f (np_flip v).
Proof.
  unfold np_flip, map3. rewrite <- !map_rev, !map_map.
  apply map_ext. intros sl. rewrite <- !map_rev, !map_map.
  apply map_ext. intros row. symmetry. apply map_rev.
Qed.

Lemma Cast_threshold (threshold : Z) (v : volume) :
  Cast_UInt8 (map3 (threshold_voxel threshold) v)
  = map3 (threshold_voxel threshold) v.
Proof.
  unfold Cast_UInt8. rewrite map3_map3. unfold map3.
  apply map_ext. intros sl. apply map_ext. intros row. apply map_ext.
  intros x. unfold threshold_voxel. by destruct (threshold <? x).
Qed.

End Jpg2niiFacts.

(** ** The array in memory *)

Section Jpg2niiPlacement.
Import Jpg2nii Jpg2niiSpec Jpg2niiMore.

Lemma place_exact layer (img seg : volume) (f : entry) (sl : slice) (z : Z) :
  shape3 seg = shape3 img →
  kind f = Some "jpg" → pixels f = Some sl → layer (fname f) = Ok z →
  - Z.of_nat (length img) ≤ z < Z.of_nat (length img) →
  shape3 img !! position (length img) z = Some (length <$> sl) →
  place layer seg f
  = ([EvImread (fname f)], Ok (<[position (length img) z := sl]> seg))
  ∧ shape3 (<[position (length img) z := sl]> seg) = shape3 img.
Proof.
  intros Hshape Hkind Hpix Hlayer Hz Hsl.
  pose proof (shape3_length _ _ Hshape) as Hlen.
  unfold place, assert. rewrite Hkind, bool_decide_eq_true_2 by done.
  rewrite bind_pure, bind_emit, Hlayer, Hpix. cbn [fst snd].
  unfold setitem. rewrite Hlen, bool_decide_eq_true_2 by done.
  fold (position (length img) z).
  rewrite <- Hshape in Hsl. unfold shape3 in Hsl.
  rewrite list_lookup_fmap in Hsl.
  destruct (seg !! position (length img) z) as [old|] eqn:Hold; [|done].
  injection Hsl as Hsl. rewrite bool_decide_eq_true_2 by done.
  split; [done|].
  rewrite <- Hshape. unfold shape3. rewrite list_fmap_insert.
  apply list_insert_id. by rewrite list_lookup_fmap, Hold, <- Hsl.
Qed.

Lemma place_all_shape layer (img seg : volume) (files : list entry) :
  shape3 seg = shape3 img →
  Forall (placeable layer img) files →
  (place_all layer seg files).2 = ((λ f, EvImread (fname f)) <$> files, Ok tt)
  ∧ shape3 (place_all layer seg files).1 = shape3 img
  ∧ ∀ k, (place_all layer seg files).1 !! k
         = match last_slice layer (length img) k files with
           | Some sl => Some sl
           | None => seg !! k
           end.
Proof.
  revert seg. induction files as [|f files IH]; intros seg Hshape Hfiles.
  - by split_and!.
  - apply Forall_cons in Hfiles as [(Hkind & sl & z & Hpix & Hlayer & Hz & Hsl & _) Hfiles].
    cbn [place_all last_slice].
    destruct (place_exact layer img seg f sl z Hshape Hkind Hpix Hlayer Hz Hsl)
      as [-> Hshape'].
    destruct (IH _ Hshape' Hfiles) as (Hrun & Hsh & Hlast).
    destruct (place_all layer _ files) as [mem [log r]]. cbn [fst snd] in *.
    injection Hrun as -> ->. split_and!; [done..|].
    intros k. rewrite Hlast.
    destruct (last_slice layer (length img) k files) as [sl'|]; [done|].
    unfold placed_at. rewrite Hlayer, Hpix.
    pose proof (shape3_length _ _ Hshape) as Hlen.
    case_bool_decide as Hk.
    + injection Hk as <-. apply list_lookup_insert_eq.
      rewrite Hlen. apply lookup_lt_Some in Hsl. unfold shape3 in Hsl.
      by rewrite length_fmap in Hsl.
    + apply list_lookup_insert_ne. congruence.
Qed.

Lemma lookup_zeros_like3 (img : volume) (k : nat) :
  zeros_like3 img !! k = blank_slice <$> img !! k.
Proof.
  unfold zeros_like3, map3.
  change (map (map (map (λ _ : Z, 0))) img)
    with (map (map (λ _ : Z, 0)) <$> img).
  rewrite list_lookup_fmap. apply option_fmap_ext. intros sl.
  unfold blank_slice. apply list_fmap_ext. intros _ row _.
  by apply (const_fmap (λ _ : Z, 0)).
Qed.

(** The loop on placeable files followed by a file that is not a jpg: the
    files before it are read and placed, and the loop is left on it. *)
Lemma place_all_wrong_type layer (img seg : volume) (pre post : list entry)
    (f : entry) :
  shape3 seg = shape3 img →
  Forall (placeable layer img) pre →
  kind f ≠ Some "jpg" →
  place_all layer seg (pre ++ f :: post)
  = ((place_all layer seg pre).1,
     ((λ f, EvImread (fname f)) <$> pre, Raise (wrong_type_error f))).
Proof.
  revert seg. induction pre as [|g pre IH]; intros seg Hshape Hpre Hf.
  - cbn [app place_all fmap list_fmap fst]. unfold place, wrong_type_error, assert.
    destruct (kind f) as [ext|]; [|done].
    rewrite bool_decide_eq_false_2 by congruence. done.
  - apply Forall_cons in Hpre as [(Hkind & sl & z & Hpix & Hlayer & Hz & Hsl & _) Hpre].
    cbn [app place_all].
    destruct (place_exact layer img seg g sl z Hshape Hkind Hpix Hlayer Hz Hsl)
      as [-> Hshape'].
    rewrite (IH _ Hshape' Hpre Hf).
    by destruct (place_all layer _ pre) as [mem [log r]].
Qed.

End Jpg2niiPlacement.
(** ** Claims about the assembler *)

Section AssembleClaims.
Import Assemble AssembleSpec.

(** C1, as stated, fails: Body precedes Skin in [OrganID] and both are
    foreground at voxel 0, yet the voxel holds 13 (Muscle, painted after
    both) and not Skin's 11. *)
Lemma later_of_two_overridden_by_third :
  ¬ (∀ seg : image,
       result (Execute None [0] three_overlapping (Some "seg.nii")) = Ok seg →
       fg three_overlapping "Body" 0 = true →
       fg three_overlapping "Skin" 0 = true →
       seg !! 0%nat = Some 11).
Proof.
  intros H. specialize (H [13] eq_refl eq_refl eq_refl). discriminate H.
Qed.

(** C1, amended: when A precedes B in the table, both masks are input
    files and both are foreground at a voxel, the voxel holds B's ID in the
    volume returned by [Execute], provided no mask painted after B is
    foreground there; with the table [A:1, B:2], A at voxels 0,1,2 and B
    at 2,3, the volume is 1,1,2,2. *)
Theorem later_mask_wins :
  (∀ tbl1 A idA tbl2 B idB tbl3 self_fpath_save (img : image) (d : folder)
     fpath_save path v,
     let tbl := tbl1 ++ (A, idA) :: tbl2 ++ (B, idB) :: tbl3 in
     or_attribute fpath_save self_fpath_save = Some path →
     all_known tbl d →
     shapes_agree tbl d img →
     0 ≤ idB < 256 →
     fg d A v = true →
     fg d B v = true →
     (∀ C, C ∈ tbl3.*1 → fg d C v = false) →
     ∃ seg : image,
       result (ExecuteWith tbl self_fpath_save img d fpath_save) = Ok seg
       ∧ seg !! v = Some idB)
  ∧ result (ExecuteWith [("A", 1); ("B", 2)] None [0; 0; 0; 0]
              two_overlapping (Some "seg.nii")) = Ok [1; 1; 2; 2].
Proof.
  split; [|reflexivity].
  intros tbl1 A idA tbl2 B idB tbl3 sp img d fp path v tbl
         Hpath Hknown Hshape Hid HA HB Hlater.
  assert (HBin : B ∈ tbl.*1).
  { apply (list_elem_of_fmap_2 fst _ (B, idB)). subst tbl.
    rewrite elem_of_app, elem_of_cons, elem_of_app, elem_of_cons. auto. }
  destruct (ExecuteWith_voxelwise tbl sp img d fp path Hpath Hknown Hshape)
    as (seg & Hrun & _ & Hv).
  exists seg. rewrite Hrun. split; [done|].
  rewrite Hv.
  destruct (fg_in_range d tbl img B v Hshape HBin HB) as [x ->].
  cbn [fmap option_fmap option_map]. f_equal.
  subst tbl.
  replace (tbl1 ++ (A, idA) :: tbl2 ++ (B, idB) :: tbl3)
    with ((tbl1 ++ (A, idA) :: tbl2) ++ (B, idB) :: tbl3)
    by (by rewrite <- app_assoc).
  rewrite voxel_after_last_fg by done.
  apply Z.mod_small. lia.
Qed.

Lemma later_mask_wins_witness :
  ∃ seg : image,
    result (ExecuteWith OrganID None [0; 0]
              [("Body.nii", [255; 255]); ("Skin.nii", [0; 255])]
              (Some "seg.nii")) = Ok seg
    ∧ seg !! 1%nat = Some 11.
Proof.
  apply (proj1 later_mask_wins [("Outline", 10)] "Body" 10 [] "Skin" 11
           (drop 3 OrganID) None [0; 0]
           [("Body.nii", [255; 255]); ("Skin.nii", [0; 255])]
           (Some "seg.nii") "seg.nii" 1%nat).
  - reflexivity.
  - by apply (bool_decide_unpack _).
  - intros n m _ Hm. unfold mask_of in Hm. simpl in Hm.
    repeat (case_bool_decide; [by injection Hm as <-|]). done.
  - lia.
  - reflexivity.
  - reflexivity.
  - intros C HC. unfold fg, mask_of. simpl.
    case_bool_decide as HC'.
    { apply (nii_inj "Body" C) in HC'. subst C.
      apply (bool_decide_pack _) in HC. vm_compute in HC. done. }
    clear HC'. case_bool_decide as HC'; [|done].
    apply (nii_inj "Skin" C) in HC'. subst C.
    apply (bool_decide_pack _) in HC. vm_compute in HC. done.
Defined.

(** C3: when no voxel is foreground in the masks of two different organs,
    the volume returned by [Execute] is the voxel-wise sum of the masks that
    are input files, each scaled by its ID (the ID where the mask is not 0,
    and 0 elsewhere), and it is this same volume for every order [tbl'] of
    the table.  With Lung at voxel 1 and Liver at voxel 0 of three voxels
    the volume is 32, 33, 0, also when the table is painted backwards. *)
Theorem disjoint_masks_union_any_order
    (tbl tbl' : list (string * Z)) self_fpath_save (img : image) (d : folder)
    fpath_save path :
  NoDup tbl.*1 →
  ids_uint8 tbl →
  tbl ≡ₚ tbl' →
  or_attribute fpath_save self_fpath_save = Some path →
  all_known tbl d →
  shapes_agree tbl d img →
  pairwise_disjoint tbl d →
  result (ExecuteWith tbl' self_fpath_save img d fpath_save)
  = Ok (union_of_labels d tbl img).
Proof.
  intros Hnd Hids Hperm Hpath Hknown Hshape Hdis.
  assert (Hkeys : ∀ n, n ∈ tbl'.*1 ↔ n ∈ tbl.*1).
  { intros n. by rewrite Hperm. }
  assert (Hknown' : all_known tbl' d).
  { unfold all_known in *. eapply Forall_impl; [exact Hknown|].
    intros f Hf. by apply Hkeys. }
  assert (Hshape' : shapes_agree tbl' d img).
  { intros n m Hn. apply Hshape. by apply Hkeys. }
  destruct (ExecuteWith_voxelwise tbl' _ img d _ path Hpath Hknown' Hshape')
    as (seg & Hrun & Hlen & Hv).
  rewrite Hrun. unfold result. cbn [snd]. f_equal.
  apply list_eq. intros v.
  rewrite Hv, lookup_union_of_labels by done.
  apply option_fmap_ext. intros _.
  rewrite voxel_after_disjoint.
  - rewrite <- (voxel_sum_perm d tbl tbl' v Hperm).
    rewrite <- (voxel_after_disjoint d tbl v Hnd)
      by (intros n1 n2 ?????; by apply (Hdis n1 n2 v)).
    apply Z.mod_small. by apply voxel_after_uint8.
  - by rewrite <- Hperm.
  - intros n1 n2 H1 H2 Hne F1 F2.
    apply (Hdis n1 n2 v); [by apply Hkeys | by apply Hkeys | done..].
Qed.

Lemma disjoint_masks_union_witness :
  result (ExecuteWith (reverse OrganID) None [0; 0; 0] two_disjoint (Some "seg.nii"))
  = Ok [32; 33; 0].
Proof.
  change [32; 33; 0] with (union_of_labels two_disjoint OrganID [0; 0; 0]).
  apply (disjoint_masks_union_any_order OrganID (reverse OrganID) None
           [0; 0; 0] two_disjoint (Some "seg.nii") "seg.nii").
  - by apply (bool_decide_unpack _).
  - by apply (bool_decide_unpack _).
  - symmetry. apply reverse_Permutation.
  - reflexivity.
  - by apply (bool_decide_unpack _).
  - intros n m _ Hm. unfold mask_of in Hm. simpl in Hm.
    repeat (case_bool_decide; [by injection Hm as <-|]). done.
  - intros n1 n2 v _ _ Hne F1 F2.
    assert (Hcases : ∀ n, fg two_disjoint n v = true →
              (n = "Lung" ∧ v = 1%nat) ∨ (n = "Liver" ∧ v = 0%nat)).
    { intros n. unfold fg, mask_of. simpl.
      case_bool_decide as Hn.
      { apply (nii_inj "Lung" n) in Hn. destruct v as [|[|[|v]]]; by auto. }
      clear Hn. case_bool_decide as Hn; [|done].
      apply (nii_inj "Liver" n) in Hn. destruct v as [|[|[|v]]]; by auto. }
    destruct (Hcases n1 F1) as [[-> ->]|[-> ->]],
             (Hcases n2 F2) as [[-> ?]|[-> ?]]; done.
Defined.

(** The validation as the code makes it: on the file names without their
    last four characters. *)
Lemma unknown_name_aborts_before_loading
    self_fpath_save (img : image) (d : folder) fpath_save :
  ((∃ fname, fname ∈ listdir d ∧ drop_last4 fname ∉ OrganID.*1) →
     (∃ e, result (Execute self_fpath_save img d fpath_save) = Raise e)
     ∧ (is_Some (or_attribute fpath_save self_fpath_save) →
        result (Execute self_fpath_save img d fpath_save)
        = Raise (AssertionError "Missed organ in OrganID."))
     ∧ trace (Execute self_fpath_save img d fpath_save) = [])
  ∧ ((∀ fname, fname ∈ listdir d → drop_last4 fname ∈ OrganID.*1) →
     result (Execute self_fpath_save img d fpath_save)
     ≠ Raise (AssertionError "Missed organ in OrganID.")).
Proof.
  unfold Execute, ExecuteWith. split.
  - intros (fname & Hin & Hout).
    destruct (or_attribute fpath_save self_fpath_save) as [path|].
    + rewrite bool_decide_eq_false_2.
      * split_and!; [by eexists | done | done].
      * apply validation_fails. intros Hall.
        apply Hout. by apply (proj1 (Forall_forall _ _) Hall).
    + split_and!; [by eexists | by intros [? ?] | done].
  - intros Hall.
    destruct (or_attribute fpath_save self_fpath_save) as [path|]; [|done].
    rewrite validation_passes by (by apply Forall_forall).
    rewrite bool_decide_eq_true_2 by done.
    unfold assert. rewrite bind_pure.
    destruct (paint_all OrganID d _) as [l [st|e]] eqn:Hp.
    + rewrite bind_logged. done.
    + rewrite bind_raised. unfold result. cbn [snd]. intros [= ->].
      destruct (paint_all_raises OrganID d _ _ (f_equal snd Hp)); done.
Qed.

(** C5, as stated, fails in both directions, because the code takes the
    name without its last four characters for the stem: the stem of
    [Lung1234] is no key of [OrganID], yet [Execute] raises nothing (it
    checks [Lung]); and the stem of [Liver.nrrd] is the key [Liver], yet the
    assertion on missed organs fails (it checks [Liver.]). *)
Lemma stem_is_not_what_is_checked :
  ¬ ((∃ fname, fname ∈ listdir lung_without_extension ∧ stem fname ∉ OrganID.*1) →
     ∃ e, result (Execute None [0; 0] lung_without_extension (Some "seg.nii"))
          = Raise e)
  ∧ ¬ ((∀ fname, fname ∈ listdir liver_nrrd → stem fname ∈ OrganID.*1) →
       result (Execute None [0; 0] liver_nrrd (Some "seg.nii"))
       ≠ Raise (AssertionError "Missed organ in OrganID.")).
Proof.
  split.
  - intros H. destruct H as [e He]; [|discriminate He].
    exists "Lung1234". split; [left|]. by apply (bool_decide_unpack _).
  - intros H. apply H; [|reflexivity].
    intros fname Hf. apply list_elem_of_singleton in Hf as ->.
    by apply (bool_decide_unpack _).
Qed.

(** C5, amended: in a directory whose file names all consist of a stem, a
    dot and an extension of three characters, when the stem of some file is
    not a key of [OrganID], [Execute] raises before it reads a mask or
    writes the volume (with a save path the error is the assertion on
    missed organs); when every stem is a key, this assertion does not
    fail. *)
Theorem unknown_stem_aborts_before_loading
    self_fpath_save (img : image) (d : folder) fpath_save :
  (∀ fname, fname ∈ listdir d → three_letter_extension fname) →
  ((∃ fname, fname ∈ listdir d ∧ stem fname ∉ OrganID.*1) →
     (∃ e, result (Execute self_fpath_save img d fpath_save) = Raise e)
     ∧ (is_Some (or_attribute fpath_save self_fpath_save) →
        result (Execute self_fpath_save img d fpath_save)
        = Raise (AssertionError "Missed organ in OrganID."))
     ∧ trace (Execute self_fpath_save img d fpath_save) = [])
  ∧ ((∀ fname, fname ∈ listdir d → stem fname ∈ OrganID.*1) →
     result (Execute self_fpath_save img d fpath_save)
     ≠ Raise (AssertionError "Missed organ in OrganID.")).
Proof.
  intros Hext.
  destruct (unknown_name_aborts_before_loading self_fpath_save img d fpath_save)
    as [Hfail Hpass].
  split.
  - intros (fname & Hin & Hout). apply Hfail. exists fname. split; [done|].
    by rewrite <- (stem_three_letter_extension fname (Hext fname Hin)).
  - intros Hall. apply Hpass. intros fname Hin.
    rewrite <- (stem_three_letter_extension fname (Hext fname Hin)). by apply Hall.
Qed.

Lemma unknown_stem_aborts_witness :
  (result (Execute None [0; 0] [("Liver.nii", [255; 0]); ("Tumor.nii", [0; 255])]
             (Some "seg.nii"))
   = Raise (AssertionError "Missed organ in OrganID.")
   ∧ trace (Execute None [0; 0] [("Liver.nii", [255; 0]); ("Tumor.nii", [0; 255])]
              (Some "seg.nii")) = [])
  ∧ result (Execute None [0; 0] [("Liver.nii", [255; 0])] (Some "seg.nii"))
    ≠ Raise (AssertionError "Missed organ in OrganID.").
Proof.
  assert (Hliver : three_letter_extension "Liver.nii").
  { exists "L"%char, "iver", "n"%char, "i"%char, "i"%char.
    split_and!; [reflexivity | discriminate..]. }
  assert (Htumor : three_letter_extension "Tumor.nii").
  { exists "T"%char, "umor", "n"%char, "i"%char, "i"%char.
    split_and!; [reflexivity | discriminate..]. }
  split.
  - destruct (proj1 (unknown_stem_aborts_before_loading None [0; 0]
             [("Liver.nii", [255; 0]); ("Tumor.nii", [0; 255])] (Some "seg.nii")
             (λ fname Hf,
                match proj1 (elem_of_cons _ _ _) Hf with
                | or_introl E => eq_ind_r three_letter_extension Hliver E
                | or_intror Hf' =>
                    eq_ind_r three_letter_extension Htumor
                      (proj1 (list_elem_of_singleton _ _) Hf')
                end)))
      as (_ & Hres & Htr).
    + exists "Tumor.nii". split; [by apply (bool_decide_unpack _)|].
      by apply (bool_decide_unpack _).
    + split; [apply Hres; by eexists | exact Htr].
  - apply (proj2 (unknown_stem_aborts_before_loading None [0; 0]
             [("Liver.nii", [255; 0])] (Some "seg.nii")
             (λ fname Hf,
                eq_ind_r three_letter_extension Hliver
                  (proj1 (list_elem_of_singleton _ _) Hf)))).
    intros fname Hf. apply list_elem_of_singleton in Hf as ->.
    by apply (bool_decide_unpack _).
Defined.

End AssembleClaims.

(** ** Claims about the splitter *)

Section SplitClaims.
Import Split SplitSpec.

Lemma split_mask_binary (seg : image) (ID : Z) :
  Forall (λ x, x = 0 ∨ x = 255) (split_mask seg ID).
Proof.
  unfold split_mask, Cast_UInt8.
  destruct (MultipleOrgans !! ID) as [IDs|] eqn:HID.
  - apply MultipleOrgans_sound in HID as (Hnd & _ & _).
    rewrite sum_extracts_voxelwise, <- list_fmap_compose.
    apply Forall_fmap, Forall_forall. intros s _. cbn.
    rewrite sum_hits by done. case_bool_decide; auto.
  - rewrite extract_voxelwise, <- list_fmap_compose.
    apply Forall_fmap, Forall_forall. intros s _. cbn. unfold hit.
    destruct (s =? ID); auto.
Qed.

Lemma split_mask_combined (seg : image) (ID : Z) (IDs : list Z) :
  MultipleOrgans !! ID = Some IDs →
  split_mask seg ID = union_masks seg (label_mask seg <$> IDs)
  ∧ split_mask seg ID = sum_masks seg (label_mask seg <$> IDs)
  ∧ split_mask seg ID = (λ s, if bool_decide (s ∈ IDs) then 255 else 0) <$> seg.
Proof.
  intros HID. unfold split_mask, Cast_UInt8. rewrite HID.
  apply MultipleOrgans_sound in HID as (Hnd & _ & _).
  rewrite sum_extracts_voxelwise, union_masks_voxelwise, sum_masks_voxelwise.
  rewrite <- list_fmap_compose.
  split_and!; apply list_fmap_ext; intros _ s _; cbn;
    rewrite sum_hits, ?max_hits, ?sum_of_hits by done;
    by case_bool_decide.
Qed.

(** C4: for a key of [MultipleOrgans] that occurs in the volume, the file
    written for it holds the voxel-wise union of the extraction masks of the
    labels listed under it (the mask of a label is 255 at the voxels equal
    to the label and 0 at all others); this union is also the voxel-wise
    sum of those masks, and a voxel of it is 255 exactly when the voxel of
    the volume is one of the listed labels.  For the volume 18, 0, 77, 76,
    33 the file of Brain (18, 76, 77) holds 255, 0, 255, 255, 0. *)
Theorem combined_mask_is_union self_folder_save save_dir (seg : image)
    folder_save folder ID IDs name :
  or_attribute folder_save self_folder_save = Some folder →
  save_dir ≠ DirMissing false →
  (ID, name) ∈ StandardName →
  MultipleOrgans !! ID = Some IDs →
  ID ∈ seg →
  (path_join folder (file_name ID name), union_masks seg (label_mask seg <$> IDs))
    ∈ written (trace (Execute self_folder_save save_dir seg folder_save))
  ∧ union_masks seg (label_mask seg <$> IDs) = sum_masks seg (label_mask seg <$> IDs)
  ∧ union_masks seg (label_mask seg <$> IDs)
    = (λ s, if bool_decide (s ∈ IDs) then 255 else 0) <$> seg.
Proof.
  intros Hfolder Hdir Hname HID Hocc.
  destruct (split_mask_combined seg ID IDs HID) as (Hu & Hs & Hv).
  split_and!; [|congruence..].
  apply (written_for_label _ _ _ _ folder ID name _ Hfolder Hdir Hname).
  by split.
Qed.

Lemma combined_mask_is_union_witness :
  ("out/18_Brain.nii", [255; 0; 255; 255; 0])
    ∈ written (trace (Execute None DirExists [18; 0; 77; 76; 33] (Some "out")))
  ∧ [255; 0; 255; 255; 0]
    = sum_masks [18; 0; 77; 76; 33]
        [ [255; 0; 0; 0; 0]; [0; 0; 0; 255; 0]; [0; 0; 255; 0; 0] ].
Proof.
  destruct (combined_mask_is_union None DirExists [18; 0; 77; 76; 33] (Some "out")
              "out" 18 [18; 76; 77] "Brain") as (Hw & Hs & _).
  - reflexivity.
  - discriminate.
  - by apply (bool_decide_unpack _).
  - reflexivity.
  - by apply (bool_decide_unpack _).
  - split; [exact Hw | exact Hs].
Defined.

(** C6: for every label of [StandardName], [Execute] writes the file of the
    label exactly when some voxel of the volume equals the label; for a key of
    [MultipleOrgans] whose listed labels are all absent no file is written. *)
Theorem file_emitted_iff_label_occurs self_folder_save save_dir (seg : image)
    folder_save folder :
  or_attribute folder_save self_folder_save = Some folder →
  save_dir ≠ DirMissing false →
  (∀ ID name, (ID, name) ∈ StandardName →
     emitted (trace (Execute self_folder_save save_dir seg folder_save)) folder ID name
     ↔ ID ∈ seg)
  ∧ (∀ ID IDs name, (ID, name) ∈ StandardName →
       MultipleOrgans !! ID = Some IDs →
       (∀ sub, sub ∈ IDs → sub ∉ seg) →
       ¬ emitted (trace (Execute self_folder_save save_dir seg folder_save))
           folder ID name).
Proof.
  intros Hfolder Hdir.
  assert (Hiff : ∀ ID name, (ID, name) ∈ StandardName →
     emitted (trace (Execute self_folder_save save_dir seg folder_save)) folder ID name
     ↔ ID ∈ seg).
  { intros ID name Hname. unfold emitted. split.
    - intros [img Himg].
      by apply (written_for_label _ _ _ _ folder ID name img Hfolder Hdir Hname) in Himg
        as [? _].
    - intros Hocc. exists (split_mask seg ID).
      by apply (written_for_label _ _ _ _ folder ID name _ Hfolder Hdir Hname). }
  split; [exact Hiff|].
  intros ID IDs name Hname HID Habsent Hem.
  apply (Hiff ID name Hname) in Hem.
  apply MultipleOrgans_sound in HID as (_ & Hmain & _).
  by apply (Habsent ID Hmain).
Qed.

Lemma file_emitted_iff_label_occurs_witness :
  emitted (trace (Execute None DirExists [33; 0; 33] (Some "out"))) "out" 33 "Lung"
  ∧ ¬ emitted (trace (Execute None DirExists [33; 0; 33] (Some "out"))) "out" 18 "Brain".
Proof.
  destruct (file_emitted_iff_label_occurs None DirExists [33; 0; 33] (Some "out")
              "out" eq_refl) as [Hiff Hcombined]; [discriminate|].
  split.
  - apply Hiff; by apply (bool_decide_unpack _).
  - apply (Hcombined 18 [18; 76; 77] "Brain").
    + by apply (bool_decide_unpack _).
    + reflexivity.
    + intros sub Hsub. apply (bool_decide_unpack _).
      rewrite !elem_of_cons in Hsub.
      destruct Hsub as [->|[->|[->|Hsub]]]; [done..|].
      by apply elem_of_nil in Hsub.
Defined.

(** C10: the file of a key of [MultipleOrgans] is written only when the key
    itself occurs in the volume (a volume with label 47 and without 46 gets
    no file for 46); every mask written has its voxels in {0, 255}; and the
    sum of the extraction masks of the listed labels never passes 255, so the
    8-bit addition does not wrap. *)
Theorem combined_gated_on_main_label self_folder_save save_dir (seg : image)
    folder_save folder :
  or_attribute folder_save self_folder_save = Some folder →
  save_dir ≠ DirMissing false →
  (∀ ID IDs name, MultipleOrgans !! ID = Some IDs → (ID, name) ∈ StandardName →
     emitted (trace (Execute self_folder_save save_dir seg folder_save)) folder ID name →
     ID ∈ seg)
  ∧ (∀ p (img : image),
       (p, img) ∈ written (trace (Execute self_folder_save save_dir seg folder_save)) →
       Forall (λ x, x = 0 ∨ x = 255) img)
  ∧ (∀ ID IDs, MultipleOrgans !! ID = Some IDs →
       sum_extracts seg IDs = plain_sum seg IDs
       ∧ Forall (λ x, 0 ≤ x ≤ 255) (plain_sum seg IDs))
  ∧ written (trace (Execute None DirExists [47; 0; 47] (Some "out")))
    = [("out/47_Marrow.nii", [255; 0; 255])].
Proof.
  intros Hfolder Hdir. split_and!.
  - intros ID IDs name _ Hname [img Himg].
    by apply (written_for_label _ _ _ _ folder ID name img Hfolder Hdir Hname) in Himg
      as [? _].
  - intros p img. rewrite (Execute_run _ _ _ _ folder Hfolder Hdir).
    unfold trace. cbn [fst]. rewrite written_makedirs, written_writes.
    intros (ID & name & _ & _ & _ & ->). apply split_mask_binary.
  - intros ID IDs (Hnd & _ & _)%MultipleOrgans_sound.
    rewrite sum_extracts_voxelwise, plain_sum_voxelwise. split.
    + apply list_fmap_ext. intros _ s _. by rewrite sum_hits, plain_sum_hits.
    + apply Forall_fmap, Forall_forall. intros s _. cbn.
      rewrite plain_sum_hits by done. case_bool_decide; lia.
  - reflexivity.
Qed.

Lemma combined_gated_on_main_label_witness :
  (∀ p (img : image),
     (p, img) ∈ written (trace (Execute None (DirMissing true) [47; 10; 11] (Some "out/"))) →
     Forall (λ x, x = 0 ∨ x = 255) img)
  ∧ ¬ emitted (trace (Execute None (DirMissing true) [47; 10; 11] (Some "out/")))
        "out/" 46 "Bone".
Proof.
  destruct (combined_gated_on_main_label None (DirMissing true) [47; 10; 11]
              (Some "out/") "out/" eq_refl) as (Hmain & Hbin & _); [discriminate|].
  split; [exact Hbin|].
  intros Hem. apply (Hmain 46 [46; 47] "Bone") in Hem.
  - revert Hem. by apply (bool_decide_unpack _).
  - reflexivity.
  - by apply (bool_decide_unpack _).
Defined.

End SplitClaims.

(** ** Assembling, then splitting *)

Section RoundTrip.
Import AssembleSpec SplitSpec.

Lemma OrganID_ids : Forall (λ e : string * Z, 0 < e.2 < 256) Assemble.OrganID.
Proof. by apply (bool_decide_unpack _). Qed.

(** C2, as stated, fails: the Muscle mask is foreground at both voxels, the
    Lung mask painted later takes the second one, and the file split off for
    label 13 is not the Muscle mask. *)
Lemma overlapped_mask_not_reproduced :
  ¬ (∀ seg : image,
       result (Assemble.Execute None [0; 0] muscle_under_lung (Some "seg.nii")) = Ok seg →
       ("out/13_Muscle.nii", [255; 255])
         ∈ Split.written (trace (Split.Execute None DirExists seg (Some "out")))).
Proof.
  intros H. specialize (H [13; 33] eq_refl).
  apply (bool_decide_pack _) in H. vm_compute in H. done.
Qed.

(** The other conditions of the amended claim are needed as well: a mask
    whose foreground value is not 255 comes back with 255, a mask without
    foreground gets no file, and two aliases of one label come back merged. *)
Lemma foreground_value_not_kept :
  result (Assemble.Execute None [0; 0] liver_of_ones (Some "seg.nii")) = Ok [32; 0]
  ∧ Split.written (trace (Split.Execute None DirExists [32; 0] (Some "out")))
    = [("out/32_Liver.nii", [255; 0])].
Proof. split; reflexivity. Qed.

Lemma empty_mask_gets_no_file :
  result (Assemble.Execute None [0; 0] empty_liver (Some "seg.nii")) = Ok [0; 33]
  ∧ Split.written (trace (Split.Execute None DirExists [0; 33] (Some "out")))
    = [("out/33_Lung.nii", [0; 255])].
Proof. split; reflexivity. Qed.

Lemma aliases_come_back_merged :
  result (Assemble.Execute None [0; 0] two_aliases (Some "seg.nii")) = Ok [65; 65]
  ∧ Split.written (trace (Split.Execute None DirExists [65; 65] (Some "out")))
    = [("out/65_SpinalCord.nii", [255; 255])].
Proof. split; reflexivity. Qed.

(** C2, amended: an input mask of an organ whose ID is not a key of
    [MultipleOrgans] is reproduced exactly by splitting the assembled volume
    when its voxels are 0 or 255, it has a foreground voxel, no mask painted
    after it is foreground where it is, and no other input mask with
    foreground has the same ID. *)
Theorem round_trip_of_unoverlapped_mask
    self_fpath_save (img : image) (d : folder) fpath_save path
    self_folder_save save_dir folder_save folder
    (l1 l3 : list (string * Z)) X idX name (mX : image) :
  Assemble.OrganID = l1 ++ (X, idX) :: l3 →
  or_attribute fpath_save self_fpath_save = Some path →
  all_known Assemble.OrganID d →
  shapes_agree Assemble.OrganID d img →
  or_attribute folder_save self_folder_save = Some folder →
  save_dir ≠ DirMissing false →
  (idX, name) ∈ Split.StandardName →
  Split.MultipleOrgans !! idX = None →
  mask_of d X = Some mX →
  Forall (λ x, x = 0 ∨ x = 255) mX →
  (∃ v, fg d X v = true) →
  (∀ C v, C ∈ l3.*1 → fg d X v = true → fg d C v = false) →
  (∀ C v, (C, idX) ∈ Assemble.OrganID → C ≠ X → fg d C v = false) →
  ∃ seg : image,
    result (Assemble.Execute self_fpath_save img d fpath_save) = Ok seg
    ∧ (path_join folder (Split.file_name idX name), mX)
        ∈ Split.written
            (trace (Split.Execute self_folder_save save_dir seg folder_save)).
Proof.
  intros Htbl Hpath Hknown Hshape Hfolder Hdir Hname Hsingle HmX Hbin
         [v0 Hv0] Hlater Halias.
  destruct (ExecuteWith_voxelwise Assemble.OrganID _ img d _ path Hpath Hknown Hshape)
    as (seg & Hrun & Hlen & Hv).
  exists seg. split; [unfold Assemble.Execute; by rewrite Hrun|].
  assert (HXin : X ∈ Assemble.OrganID.*1).
  { rewrite Htbl, fmap_app, fmap_cons, elem_of_app, elem_of_cons. auto. }
  assert (HidX : 0 < idX < 256).
  { pose proof OrganID_ids as Hids. rewrite Htbl, Forall_app, Forall_cons in Hids.
    by destruct Hids as (_ & ? & _). }
  assert (HlenX : length mX = length img) by (by apply (Hshape X)).
  (* the label of a voxel is X's ID exactly where X's mask is foreground *)
  assert (Hlabel : ∀ v x, img !! v = Some x →
            (voxel_after d Assemble.OrganID v 0 `mod` 256 =? idX) = fg d X v).
  { intros v x Hx. destruct (fg d X v) eqn:HfgX.
    - apply Z.eqb_eq. rewrite Htbl, voxel_after_last_fg; [|done|].
      + apply Z.mod_small. lia.
      + intros C HC. by apply Hlater.
    - apply Z.eqb_neq.
      pose proof (voxel_after_uint8 d Assemble.OrganID v 0) as Hrange.
      rewrite Z.mod_small.
      2:{ apply Hrange; [|lia]. eapply Forall_impl; [apply OrganID_ids|].
          intros e [? ?]. split; lia. }
      destruct (voxel_after_cases d Assemble.OrganID v 0)
        as [[-> _]|(k1 & n & ID & k3 & Hk & Hfg & _ & ->)]; [lia|].
      intros ->.
      assert (Hne : n ≠ X) by (intros ->; congruence).
      rewrite (Halias n v) in Hfg; [done| |done].
      rewrite Hk, elem_of_app, elem_of_cons. auto. }
  apply (written_for_label _ _ _ _ folder idX name _ Hfolder Hdir Hname).
  split.
  - apply list_elem_of_lookup. exists v0.
    destruct (fg_in_range d _ img X v0 Hshape HXin Hv0) as [x Hx].
    pose proof (Hlabel v0 x Hx) as Hlab0. rewrite Hv0 in Hlab0.
    apply Z.eqb_eq in Hlab0.
    rewrite Hv, Hx. cbn [fmap option_fmap option_map]. by rewrite Hlab0.
  - unfold split_mask, Cast_UInt8. rewrite Hsingle, extract_voxelwise.
    rewrite <- list_fmap_compose. apply list_eq. intros v.
    rewrite list_lookup_fmap, Hv.
    destruct (img !! v) as [x|] eqn:Hx; cbn [fmap option_fmap option_map compose].
    + destruct (lookup_lt_is_Some_2 mX v) as [o Ho].
      { rewrite HlenX. by apply lookup_lt_Some in Hx. }
      rewrite Ho. f_equal. unfold hit. rewrite (Hlabel v x Hx).
      unfold fg. rewrite HmX, Ho.
      assert (Ho' : o = 0 ∨ o = 255).
      { apply (proj1 (Forall_forall _ _) Hbin). apply list_elem_of_lookup. eauto. }
      by destruct Ho' as [->| ->].
    + apply lookup_ge_None. rewrite HlenX. by apply lookup_ge_None in Hx.
Qed.

Lemma fg_liver_and_lung n v :
  fg liver_and_lung n v = true →
  (n = "Liver" ∧ fg liver_and_lung "Lung" v = false) ∨ n = "Lung".
Proof.
  unfold fg at 1, mask_of. simpl.
  case_bool_decide as Hn.
  { apply (nii_inj "Liver" n) in Hn. destruct v as [|[|[|v]]]; by auto. }
  clear Hn. case_bool_decide as Hn; [|done].
  apply (nii_inj "Lung" n) in Hn. by auto.
Qed.

Lemma round_trip_witness :
  ∃ seg : image,
    result (Assemble.Execute None [0; 0; 0] liver_and_lung (Some "seg.nii")) = Ok seg
    ∧ ("out/32_Liver.nii", [255; 0; 255])
        ∈ Split.written (trace (Split.Execute None DirExists seg (Some "out"))).
Proof.
  apply (round_trip_of_unoverlapped_mask None [0; 0; 0] liver_and_lung
           (Some "seg.nii") "seg.nii" None DirExists (Some "out") "out"
           (take 15 Assemble.OrganID) (drop 16 Assemble.OrganID)
           "Liver" 32 "Liver" [255; 0; 255]).
  - reflexivity.
  - reflexivity.
  - by apply (bool_decide_unpack _).
  - intros n m _ Hm. unfold mask_of in Hm. simpl in Hm.
    repeat (case_bool_decide; [by injection Hm as <-|]). done.
  - reflexivity.
  - discriminate.
  - by apply (bool_decide_unpack _).
  - reflexivity.
  - reflexivity.
  - by apply (bool_decide_unpack _).
  - by exists 0%nat.
  - intros C v HC HX. destruct (fg liver_and_lung C v) eqn:HfgC; [exfalso|done].
    destruct (fg_liver_and_lung C v HfgC) as [[-> _]| ->].
    + revert HC. by apply (bool_decide_unpack _).
    + destruct (fg_liver_and_lung "Liver" v HX) as [[_ Hl]|[=]]. congruence.
  - intros C v HC Hne. destruct (fg liver_and_lung C v) eqn:HfgC; [exfalso|done].
    destruct (fg_liver_and_lung C v HfgC) as [[-> _]| ->]; [done|].
    revert HC. by apply (bool_decide_unpack _).
Defined.

End RoundTrip.

(** ** The claim about the overlap analysis *)

Section OverlapClaims.
Import Assemble OverlapSpec ReportSpec.

(** C7: on masks of one shape [AnalyseOverlap] returns 0 and prints exactly
    the lines of the pairs [i < j] of compared files whose intersection is
    not empty and for which one of the two percentages (the intersection
    divided by the organ's own voxel count, times 100, rounded to one
    decimal) is at least 1; it prints nothing when no two masks share a
    voxel, and it writes no file.  In numbers, for counts up to 300: the
    percentage is at least 1 exactly when the intersection is at least 0.95
    percent of the organ's own count, and it is the double of a tenth
    nearest to the exact percentage; 1 of 3 voxels is 33.3 percent, 1 of 106
    is 0.9 percent, 19 of 2000 is 1.0 percent. *)
Theorem overlap_report_condition :
  (∀ (d : folder) stop,
     same_shapes d (compared d stop) →
     result (AnalyseOverlap d stop) = Ok 0
     ∧ (∀ line, EvPrint line ∈ trace (AnalyseOverlap d stop)
          ↔ ∃ i j fname_i fname_j a b,
              (i < j)%nat
              ∧ compared d stop !! i = Some fname_i
              ∧ compared d stop !! j = Some fname_j
              ∧ lookup_file d fname_i = Some a ∧ lookup_file d fname_j = Some b
              ∧ report_condition a b ∧ line = report_line fname_i fname_j a b)
     ∧ (no_overlap d (compared d stop) →
        ∀ line, EvPrint line ∉ trace (AnalyseOverlap d stop))
     ∧ (∀ p img, EvWriteImage p img ∉ trace (AnalyseOverlap d stop)))
  ∧ (∀ common own,
       0 ≤ common ≤ own → 0 < own ≤ 300 →
       (at_least (own_percentage common own) 1%float ↔ 19 * own ≤ 2000 * common)
       ∧ ∃ t, nearest_tenth common own t
              ∧ PrimFloat.eqb (own_percentage common own) (tenths t) = true)
  ∧ own_percentage 1 3 = tenths 333
  ∧ own_percentage 1 106 = tenths 9
  ∧ own_percentage 19 2000 = tenths 10.
Proof.
  split_and!; [| |reflexivity..].
  - intros d stop Hshape. rewrite (AnalyseOverlap_run d stop Hshape).
    unfold result, trace. cbn [fst snd].
    assert (Hprint : ∀ line,
      EvPrint line ∈ flat_map (λ i, flat_map (pair_events d (compared d stop) i)
                         (range (i + 1) (length (compared d stop))))
          (range 0 (length (compared d stop)))
      ↔ ∃ i j fname_i fname_j a b,
          (i < j)%nat
          ∧ compared d stop !! i = Some fname_i
          ∧ compared d stop !! j = Some fname_j
          ∧ lookup_file d fname_i = Some a ∧ lookup_file d fname_j = Some b
          ∧ report_condition a b ∧ line = report_line fname_i fname_j a b).
    { intros line. rewrite elem_of_pairs. split.
      - intros (i & j & Hij & (fi & fj & a & b & ? & ? & ? & ? & ? & ?)%print_in_pair_events).
        exists i, j, fi, fj, a, b.
        rewrite report_condition_reported, report_line_line_of.
        split_and!; [lia|done..].
      - intros (i & j & fi & fj & a & b & Hij & Hi & Hj & Ha & Hb & Hr & ->).
        exists i, j. split.
        + apply lookup_lt_Some in Hj. lia.
        + apply print_in_pair_events. exists fi, fj, a, b.
          rewrite <- report_condition_reported, <- report_line_line_of. done. }
    split_and!; [done|exact Hprint| |].
    + intros Hdis line (i & j & fi & fj & a & b & Hij & Hi & Hj & Ha & Hb & [Hne _] & _)%Hprint.
      apply Hne. rewrite common_voxels_intersection.
      apply disjoint_intersection. by apply (Hdis i j fi fj).
    + intros p img (i & j & _ & Hin)%elem_of_pairs.
      by apply write_not_in_pair_events in Hin.
  - intros common own Hc Ho.
    pose proof (percentage_checked_in_range common own Hc) as H.
    unfold percentage_checked in H.
    apply andb_true_iff in H as [Hthr Hten]; [|unfold checked_counts; lia].
    split.
    + unfold threshold_checked in Hthr. apply Bool.eqb_prop in Hthr.
      unfold at_least. rewrite Hthr. apply Z.leb_le.
    + unfold nearest_tenth.
      apply orb_true_iff in Hten as [Hten|Hten];
        apply andb_true_iff in Hten as [Heq Hnear%Z.leb_le]; eauto.
Qed.

Lemma overlap_report_witness :
  EvPrint (Report 1 (tenths 333) (tenths 500) "Body" 3 "Lung" 2 1.5%float)
    ∈ trace (AnalyseOverlap body_and_lung None)
  ∧ (∀ line, EvPrint line ∉ trace (AnalyseOverlap touching None)).
Proof.
  assert (Hlen : ∀ (d : folder) n,
            Forall (λ e, length e.2 = n) d →
            ∀ stop, same_shapes d (compared d stop)).
  { intros d n Hd stop f g a b _ _ Ha Hb.
    assert (Hall : ∀ h (c : image), lookup_file d h = Some c → length c = n).
    { clear -Hd. induction Hd as [|[h' c'] d Hc' Hd IH]; intros h c; simpl; [done|].
      case_bool_decide; [by intros [= <-] | by apply IH]. }
    by rewrite (Hall f a Ha), (Hall g b Hb). }
  split.
  - destruct (proj1 overlap_report_condition body_and_lung None) as (_ & Hiff & _).
    { apply (Hlen _ 4%nat). by repeat constructor. }
    apply Hiff.
    exists 0%nat, 1%nat, "Body.nii", "Lung.nii", [255; 255; 255; 0], [0; 0; 255; 255].
    split_and!; [lia | reflexivity.. | | reflexivity].
    split; [discriminate | left; reflexivity].
  - destruct (proj1 overlap_report_condition touching None) as (_ & Hiff & _).
    { apply (Hlen _ 211%nat). by repeat constructor. }
    intros line (i & j & fi & fj & a & b & Hij & Hi & Hj & Ha & Hb & Hr & _)%Hiff.
    destruct i as [|i], j as [|[|j]]; try lia; try discriminate Hj.
    injection Hi as <-. injection Hj as <-.
    injection Ha as <-. injection Hb as <-.
    destruct Hr as [_ [Hr|Hr]]; vm_compute in Hr; discriminate Hr.
Defined.

End OverlapClaims.

(** ** Claims about the slice importer *)

Section Jpg2niiClaims.
Import Jpg2nii Jpg2niiSpec Jpg2niiMore.

(** C8, as stated, fails: the second file of the directory is not a jpg,
    and when the assertion fails the first slice has been read and placed
    into the array in memory. *)
Lemma slice_read_before_wrong_type_found :
  ¬ ((∃ f, f ∈ jpg_then_png ∧ kind f ≠ Some "jpg") →
     (∀ name, EvImread name
        ∉ trace (OrganConvert no_int cube jpg_then_png DirExists "out/o.nii"
                   (Some layer_zero) 128).2)
     ∧ (OrganConvert no_int cube jpg_then_png DirExists "out/o.nii"
          (Some layer_zero) 128).1 = zeros_like3 cube).
Proof.
  intros H. destruct H as [Hread _].
  - exists (Entry "a0001.jpg" (Some "png") (Some corner_slice)).
    split; [|discriminate]. right. left.
  - apply (Hread "a0000.jpg"). left.
Qed.

(** C8, amended: when some file of the directory is not a jpg,
    [OrganConvert] raises, creates no directory and writes no file, and it
    reads nothing but jpg files listed before the first file that is not
    one, in listing order.  The type is checked file by file inside the
    loop: when the files listed before the first file that is not a jpg can
    all be placed, exactly these files have been read, the array in memory
    holds at each layer the picture of the last of them placed there and
    zeros at the other layers, and the exception is that of the type check
    ([AttributeError] for a file of no known type, else the assertion). *)
Theorem wrong_type_aborts_without_output (py_int : string → outcome Z)
    (img : volume) (files : list entry) save_dir fpath_save layer threshold :
  (∃ f, f ∈ files ∧ kind f ≠ Some "jpg") →
  (∃ e, result (OrganConvert py_int img files save_dir fpath_save layer threshold).2
        = Raise e)
  ∧ (∃ n, trace (OrganConvert py_int img files save_dir fpath_save layer threshold).2
          = (λ f, EvImread (fname f)) <$> take n (jpg_prefix files))
  ∧ (∀ p out, EvWriteImage p out
       ∉ trace (OrganConvert py_int img files save_dir fpath_save layer threshold).2)
  ∧ (∀ p, EvMkdir p
       ∉ trace (OrganConvert py_int img files save_dir fpath_save layer threshold).2)
  ∧ (∀ pre f post,
       files = pre ++ f :: post →
       Forall (placeable (default (GetImageLayerByName py_int) layer) img) pre →
       kind f ≠ Some "jpg" →
       result (OrganConvert py_int img files save_dir fpath_save layer threshold).2
       = Raise (wrong_type_error f)
       ∧ trace (OrganConvert py_int img files save_dir fpath_save layer threshold).2
         = (λ f, EvImread (fname f)) <$> pre
       ∧ ∀ k, (OrganConvert py_int img files save_dir fpath_save layer threshold).1
                !! k
              = match last_slice (default (GetImageLayerByName py_int) layer)
                        (length img) k pre with
                | Some sl => Some sl
                | None => blank_slice <$> img !! k
                end).
Proof.
  intros Hbad. split_and!.
  - unfold OrganConvert.
    destruct (place_all_trace (default (GetImageLayerByName py_int) layer)
                (zeros_like3 img) files) as [_ Hraise].
    destruct (Hraise Hbad) as [e He].
    destruct (place_all _ (zeros_like3 img) files) as [mem [log r]].
    unfold result in *. cbn [fst snd] in *. subst r. by eexists.
  - unfold OrganConvert.
    destruct (place_all_trace (default (GetImageLayerByName py_int) layer)
                (zeros_like3 img) files) as [[n Hn] Hraise].
    destruct (Hraise Hbad) as [e He].
    destruct (place_all _ (zeros_like3 img) files) as [mem [log r]].
    unfold trace, result in *. cbn [fst snd] in *. subst r log. by exists n.
  - unfold OrganConvert.
    destruct (place_all_trace (default (GetImageLayerByName py_int) layer)
                (zeros_like3 img) files) as [[n Hn] Hraise].
    destruct (Hraise Hbad) as [e He].
    destruct (place_all _ (zeros_like3 img) files) as [mem [log r]].
    unfold trace, result in *. cbn [fst snd] in *. subst r log.
    intros p out (f & [=] & _)%list_elem_of_fmap.
  - unfold OrganConvert.
    destruct (place_all_trace (default (GetImageLayerByName py_int) layer)
                (zeros_like3 img) files) as [[n Hn] Hraise].
    destruct (Hraise Hbad) as [e He].
    destruct (place_all _ (zeros_like3 img) files) as [mem [log r]].
    unfold trace, result in *. cbn [fst snd] in *. subst r log.
    intros p (f & [=] & _)%list_elem_of_fmap.
  - intros pre f post -> Hpre Hf. unfold OrganConvert.
    rewrite (place_all_wrong_type _ img (zeros_like3 img) pre post f
               (shape3_zeros_like3 img) Hpre Hf).
    destruct (place_all_shape (default (GetImageLayerByName py_int) layer)
                img (zeros_like3 img) pre (shape3_zeros_like3 img) Hpre)
      as (_ & _ & Hlast).
    unfold result, trace. cbn [fst snd]. split_and!; [done..|].
    intros k. rewrite Hlast. by rewrite lookup_zeros_like3.
Qed.

Lemma wrong_type_aborts_witness :
  result (OrganConvert no_int cube jpg_then_png DirExists "out/o.nii"
            (Some layer_zero) 128).2
  = Raise (AssertionError "Wrong type in specified folder.")
  ∧ trace (OrganConvert no_int cube jpg_then_png DirExists "out/o.nii"
             (Some layer_zero) 128).2
    = [EvImread "a0000.jpg"]
  ∧ (OrganConvert no_int cube jpg_then_png DirExists "out/o.nii"
       (Some layer_zero) 128).1
    = [ [ [200; 0]; [0; 0] ]; [ [0; 0]; [0; 0] ] ].
Proof.
  destruct (wrong_type_aborts_without_output no_int cube jpg_then_png DirExists
              "out/o.nii" (Some layer_zero) 128) as (_ & _ & _ & _ & Hexact).
  - exists (Entry "a0001.jpg" (Some "png") (Some corner_slice)).
    split; [|discriminate]. right. left.
  - destruct (Hexact [Entry "a0000.jpg" (Some "jpg") (Some corner_slice)]
                (Entry "a0001.jpg" (Some "png") (Some corner_slice)) [])
      as (Hres & Htrace & Hmem).
    + reflexivity.
    + constructor; [|constructor]. split; [reflexivity|].
      exists corner_slice, 0.
      split; [reflexivity|]. split; [reflexivity|]. split; [cbn; lia|].
      split; [reflexivity|]. repeat constructor; lia.
    + discriminate.
    + split_and!; [exact Hres | exact Htrace |].
      apply list_eq. intros k. rewrite Hmem.
      by destruct k as [|[|k]].
Defined.

(** C9, as stated, fails: with one bright voxel in a corner of the volume
    the result is not the binarized array flipped along any single axis. *)
Lemma flip_is_not_along_one_axis :
  ¬ (result (OrganConvert no_int cube one_jpg DirExists "out/o.nii"
               (Some layer_zero) 128).2
       = Ok (flip_axis0 (OrganConvert no_int cube one_jpg DirExists "out/o.nii"
                           (Some layer_zero) 128).1)
     ∨ result (OrganConvert no_int cube one_jpg DirExists "out/o.nii"
                 (Some layer_zero) 128).2
       = Ok (flip_axis1 (OrganConvert no_int cube one_jpg DirExists "out/o.nii"
                           (Some layer_zero) 128).1)
     ∨ result (OrganConvert no_int cube one_jpg DirExists "out/o.nii"
                 (Some layer_zero) 128).2
       = Ok (flip_axis2 (OrganConvert no_int cube one_jpg DirExists "out/o.nii"
                           (Some layer_zero) 128).1)).
Proof. vm_compute. intros [H|[H|H]]; discriminate H. Qed.

(** C9, amended: after all slices are placed, every voxel strictly greater
    than the threshold is 255 and every other voxel is 0, and the array is
    then reversed along each of its three axes before it is cast, written
    and returned. *)
Theorem binarized_then_flipped_on_all_axes (py_int : string → outcome Z)
    (img : volume) (files : list entry) save_dir fpath_save layer threshold :
  Forall (placeable (default (GetImageLayerByName py_int) layer) img) files →
  save_dir ≠ DirMissing false →
  let placed :=
    (place_all (default (GetImageLayerByName py_int) layer)
       (zeros_like3 img) files).1 in
  let vox := map3 (threshold_voxel threshold) placed in
  (OrganConvert py_int img files save_dir fpath_save layer threshold).1 = vox
  ∧ result (OrganConvert py_int img files save_dir fpath_save layer threshold).2
    = Ok (flip_axis0 (flip_axis1 (flip_axis2 vox)))
  ∧ EvWriteImage fpath_save (flip_axis0 (flip_axis1 (flip_axis2 vox)))
      ∈ trace (OrganConvert py_int img files save_dir fpath_save layer threshold).2.
Proof.
  intros Hfiles Hdir placed vox. subst vox placed. unfold OrganConvert.
  destruct (place_all_completes (default (GetImageLayerByName py_int) layer)
              img (zeros_like3 img) files (shape3_zeros_like3 img)
              (uint8_zeros_like3 img) Hfiles) as (placed & -> & Hplaced).
  cbn [fst snd]. rewrite (binarize_threshold _ _ Hplaced).
  rewrite np_flip_map3, Cast_threshold, <- np_flip_map3, np_flip_axes.
  rewrite bind_logged. unfold result, trace.
  destruct save_dir as [|[|]]; [| |done].
  - rewrite bind_pure, bind_emit. cbn [fst snd mret io_ret].
    split_and!; [done..|]. rewrite elem_of_app. right. left.
  - rewrite !bind_emit. cbn [fst snd mret io_ret].
    split_and!; [done..|]. rewrite elem_of_app. right. right. left.
Qed.

Lemma binarized_then_flipped_witness :
  result (OrganConvert no_int cube one_jpg (DirMissing true) "out/o.nii"
            (Some layer_zero) 128).2
  = Ok [ [ [0; 0]; [0; 0] ]; [ [0; 0]; [0; 255] ] ].
Proof.
  destruct (binarized_then_flipped_on_all_axes no_int cube one_jpg
              (DirMissing true) "out/o.nii" (Some layer_zero) 128)
    as (_ & Hres & _).
  - constructor; [|constructor]. split; [reflexivity|].
    exists corner_slice, 0.
    split; [reflexivity|]. split; [reflexivity|]. split; [cbn; lia|].
    split; [reflexivity|]. repeat constructor; lia.
  - discriminate.
  - exact Hres.
Defined.

End Jpg2niiClaims.

(** ** Further properties of the assembler *)

Section AssembleMore.
Import Assemble AssembleSpec.

(** *** What the loop reads *)

Lemma paint_trace st organ ID : (paint st organ ID).1 = [].
Proof.
  destruct st as [seg seg_bool]. unfold paint, elementwise.
  repeat (case_bool_decide; [rewrite bind_pure | done]). done.
Qed.

Lemma paint_all_reads tbl (d : folder) st ev :
  ev ∈ (paint_all tbl d st).1 →
  ∃ n, ev = EvReadImage (n +:+ ".nii") ∧ n ∈ tbl.*1 ∧ (n +:+ ".nii") ∈ listdir d.
Proof.
  revert st. induction tbl as [|[n ID] tbl IH]; intros st; cbn [paint_all].
  - by intros ?%elem_of_nil.
  - assert (Htail : ∀ st', ev ∈ (paint_all tbl d st').1 →
      ∃ n0, ev = EvReadImage (n0 +:+ ".nii") ∧ n0 ∈ ((n, ID) :: tbl).*1
            ∧ (n0 +:+ ".nii") ∈ listdir d).
    { intros st' (n0 & ? & ? & ?)%IH. exists n0. rewrite fmap_cons.
      split_and!; [done | by right | done]. }
    case_bool_decide as Hin; [|by apply Htail].
    destruct (proj1 (lookup_file_listed d _) Hin) as [m Hm].
    rewrite (ReadImage_listed _ _ _ Hm), bind_logged. cbn [fst].
    rewrite elem_of_app, list_elem_of_singleton. intros [->|Hev].
    + exists n. rewrite fmap_cons. split_and!; [done | by left | done].
    + pose proof (paint_trace st m ID) as Hnil.
      destruct (paint st m ID) as [l [st'|e]]; cbn [fst] in Hnil; subst l.
      * rewrite bind_logged in Hev. by apply (Htail st').
      * rewrite bind_raised in Hev. by apply elem_of_nil in Hev.
Qed.

Lemma paint_all_done tbl (d : folder) st st' :
  (paint_all tbl d st).2 = Ok st' → (paint_all tbl d st).1 = reads d tbl.
Proof.
  revert st. induction tbl as [|[n ID] tbl IH]; intros st; cbn [paint_all]; [done|].
  unfold reads. cbn [omap list_omap fst]. fold (reads d tbl). unfold mask_of.
  case_bool_decide as Hin.
  - destruct (proj1 (lookup_file_listed d _) Hin) as [m Hm].
    rewrite bool_decide_eq_true_2 by eauto.
    rewrite (ReadImage_listed _ _ _ Hm), bind_logged. cbn [fst snd].
    pose proof (paint_trace st m ID) as Hnil.
    destruct (paint st m ID) as [l [st1|e]]; cbn [fst] in Hnil; subst l.
    + rewrite bind_logged. cbn [fst snd app]. intros H. by rewrite (IH st1 H).
    + by rewrite bind_raised.
  - rewrite bool_decide_eq_false_2; [apply IH|].
    intros Hsome. by apply Hin, lookup_file_listed.
Qed.

(** The directory enters [ExecuteWith] through the validation and through
    the files named after a key of the table. *)
Lemma paint_all_ext tbl (d d' : folder) st :
  (∀ n, n ∈ tbl.*1 → lookup_file d (n +:+ ".nii") = lookup_file d' (n +:+ ".nii")) →
  paint_all tbl d st = paint_all tbl d' st.
Proof.
  revert st. induction tbl as [|[n ID] tbl IH]; intros st Hsame; [done|].
  cbn [paint_all].
  assert (Htail : ∀ st', paint_all tbl d st' = paint_all tbl d' st').
  { intros st'. apply IH. intros n' Hn'. apply Hsame. rewrite fmap_cons. by right. }
  assert (Hn : lookup_file d (n +:+ ".nii") = lookup_file d' (n +:+ ".nii"))
    by (apply Hsame; rewrite fmap_cons; by left).
  rewrite (bool_decide_ext _ ((n +:+ ".nii") ∈ listdir d'))
    by (by rewrite !lookup_file_listed, Hn).
  case_bool_decide; [|apply Htail].
  unfold ReadImage. rewrite Hn.
  destruct (lookup_file d' (n +:+ ".nii")) as [m|]; [|done].
  rewrite !bind_emit. cbn [fst snd mret io_ret]. rewrite !bind_logged.
  destruct (paint st m ID) as [l [st'|e]].
  - by rewrite !bind_logged, Htail.
  - by rewrite !bind_raised.
Qed.

Lemma ExecuteWith_ext tbl self_fpath_save (img : image) (d d' : folder) fpath_save :
  (all_known tbl d ↔ all_known tbl d') →
  (∀ n, n ∈ tbl.*1 → lookup_file d (n +:+ ".nii") = lookup_file d' (n +:+ ".nii")) →
  ExecuteWith tbl self_fpath_save img d fpath_save
  = ExecuteWith tbl self_fpath_save img d' fpath_save.
Proof.
  intros Hknown Hsame. unfold ExecuteWith.
  destruct (or_attribute fpath_save self_fpath_save) as [path|]; [|done].
  rewrite (paint_all_ext tbl d d' _ Hsame).
  destruct (decide (all_known tbl d)) as [Hk|Hk].
  - by rewrite !validation_passes by tauto.
  - rewrite !bool_decide_eq_false_2; [done|apply validation_fails; tauto|
      by apply validation_fails].
Qed.

Lemma lookup_file_perm (d d' : folder) fname :
  NoDup d.*1 → d ≡ₚ d' → lookup_file d fname = lookup_file d' fname.
Proof.
  intros Hnd Hperm. revert Hnd.
  induction Hperm as [|[n a] d d' Hp IH|[n1 a1] [n2 a2] d|d1 d2 d3 Hp1 IH1 Hp2 IH2];
    intros Hnd.
  - done.
  - rewrite fmap_cons in Hnd. apply NoDup_cons in Hnd as [_ Hnd].
    cbn [lookup_file]. by rewrite IH.
  - rewrite !fmap_cons in Hnd. cbn [fst] in Hnd.
    apply NoDup_cons in Hnd as [Hne _]. apply not_elem_of_cons in Hne as [Hne _].
    cbn [lookup_file]. repeat case_bool_decide; congruence.
  - rewrite IH1 by done. apply IH2. by rewrite <- Hp1.
Qed.

Lemma lookup_file_filter (P : string → bool) (d : folder) fname :
  P fname = true → lookup_file (filter (λ e, P e.1 = true) d) fname = lookup_file d fname.
Proof.
  intros HP. induction d as [|[n a] d IH]; [done|].
  rewrite filter_cons. cbn [fst lookup_file].
  destruct (decide (P n = true)) as [Hn|Hn]; cbn [lookup_file].
  - by rewrite IH.
  - rewrite IH. case_bool_decide; congruence.
Qed.

(** X1: on a directory that passes the validation, with masks of the shape
    of the reference image and positive 8-bit IDs, the volume returned by
    [Execute] has the shape of the reference image; a voxel is 0 exactly when
    no input mask is foreground there, and otherwise holds the ID of an input
    organ whose mask is foreground there. *)
Theorem labels_are_ids_of_covering_masks tbl self_fpath_save (img : image)
    (d : folder) fpath_save path :
  Forall (λ e : string * Z, 0 < e.2 < 256) tbl →
  or_attribute fpath_save self_fpath_save = Some path →
  all_known tbl d →
  shapes_agree tbl d img →
  ∃ seg : image,
    result (ExecuteWith tbl self_fpath_save img d fpath_save) = Ok seg
    ∧ length seg = length img
    ∧ ∀ v s, seg !! v = Some s →
        (s = 0 ↔ ∀ n, n ∈ tbl.*1 → fg d n v = false)
        ∧ (s ≠ 0 → ∃ n, (n, s) ∈ tbl ∧ fg d n v = true).
Proof.
  intros Hids Hpath Hknown Hshape.
  destruct (ExecuteWith_voxelwise tbl _ img d _ path Hpath Hknown Hshape)
    as (seg & Hrun & Hlen & Hv).
  exists seg. rewrite Hrun. split_and!; [done..|].
  intros v s. rewrite Hv. destruct (img !! v) as [x|]; [|done].
  cbn [fmap option_fmap option_map]. intros [= <-].
  destruct (voxel_after_cases d tbl v 0)
    as [[-> Hno]|(l1 & n & ID & l3 & -> & Hfg & _ & ->)].
  - split; [done|]. intros H. by exfalso.
  - assert (HID : 0 < ID < 256).
    { rewrite Forall_app, Forall_cons in Hids. by destruct Hids as (_ & ? & _). }
    rewrite Z.mod_small by lia. split.
    + split; [lia|]. intros Hno. rewrite Hno in Hfg; [done|].
      rewrite fmap_app, fmap_cons, elem_of_app, elem_of_cons. auto.
    + intros _. exists n. split; [|done].
      rewrite elem_of_app, elem_of_cons. auto.
Qed.

Lemma labels_are_ids_witness :
  ∃ seg : image,
    result (ExecuteWith OrganID None [0; 0; 0] liver_and_lung (Some "seg.nii")) = Ok seg
    ∧ length seg = 3%nat
    ∧ ∀ v s, seg !! v = Some s →
        (s = 0 ↔ ∀ n, n ∈ OrganID.*1 → fg liver_and_lung n v = false)
        ∧ (s ≠ 0 → ∃ n, (n, s) ∈ OrganID ∧ fg liver_and_lung n v = true).
Proof.
  apply (labels_are_ids_of_covering_masks OrganID None [0; 0; 0] liver_and_lung
           (Some "seg.nii") "seg.nii").
  - apply OrganID_ids.
  - reflexivity.
  - by apply (bool_decide_unpack _).
  - intros n m _ Hm. unfold mask_of in Hm. simpl in Hm.
    repeat (case_bool_decide; [by injection Hm as <-|]). done.
Defined.

(** X2: [Execute] writes the volume exactly when it returns it: then its
    events are the reads of the input organs in table order followed by one
    write of the returned volume at the save path; when it raises, nothing
    has been written. *)
Theorem volume_written_iff_returned tbl self_fpath_save (img : image)
    (d : folder) fpath_save :
  (∀ seg, result (ExecuteWith tbl self_fpath_save img d fpath_save) = Ok seg →
     ∃ path, or_attribute fpath_save self_fpath_save = Some path
       ∧ trace (ExecuteWith tbl self_fpath_save img d fpath_save)
         = reads d tbl ++ [EvWriteImage path seg])
  ∧ (∀ e, result (ExecuteWith tbl self_fpath_save img d fpath_save) = Raise e →
     ∀ p a, EvWriteImage p a
       ∉ trace (ExecuteWith tbl self_fpath_save img d fpath_save)).
Proof.
  unfold ExecuteWith.
  destruct (or_attribute fpath_save self_fpath_save) as [path|].
  2:{ split; [done|]. intros e _ p a ?%elem_of_nil. done. }
  unfold assert. case_bool_decide.
  2:{ split; [done|]. intros e _ p a ?%elem_of_nil. done. }
  rewrite bind_pure.
  pose proof (paint_all_reads tbl d (zeros_like img, astype_bool (zeros_like img)))
    as Hreads.
  pose proof (paint_all_done tbl d (zeros_like img, astype_bool (zeros_like img)))
    as Hdone.
  destruct (paint_all tbl d _) as [l [st|e]]; cbn [fst snd] in *.
  - rewrite bind_logged, bind_emit. unfold result, trace.
    cbn [fst snd mret io_ret]. split; [|done].
    intros seg [= <-]. exists path. by rewrite (Hdone st eq_refl).
  - rewrite bind_raised. unfold result, trace. cbn [fst snd]. split; [done|].
    intros e' _ p a (n' & [=] & _)%Hreads.
Qed.

Lemma volume_written_witness :
  ∃ path, Some "seg.nii" = Some path
    ∧ trace (ExecuteWith OrganID None [0; 0; 0] liver_and_lung (Some "seg.nii"))
      = reads liver_and_lung OrganID ++ [EvWriteImage path [32; 33; 32]].
Proof.
  apply (proj1 (volume_written_iff_returned OrganID None [0; 0; 0] liver_and_lung
                  (Some "seg.nii")) [32; 33; 32]).
  reflexivity.
Defined.

(** X3: files that pass the validation without being named [<key>.nii]
    (a mask in another format, for one) are ignored without notice: [Execute]
    behaves as if they were not in the directory. *)
Theorem files_not_named_after_a_key_are_ignored tbl self_fpath_save (img : image)
    (d : folder) fpath_save :
  all_known tbl d →
  ExecuteWith tbl self_fpath_save img d fpath_save
  = ExecuteWith tbl self_fpath_save img
      (filter (λ e, MoreSpec.named_after_key tbl e.1 = true) d) fpath_save.
Proof.
  intros Hknown. apply ExecuteWith_ext.
  - split; [|done]. intros _. unfold all_known, listdir in *.
    apply Forall_forall. intros f (e & -> & [_ He]%list_elem_of_filter)%list_elem_of_fmap.
    apply (proj1 (Forall_forall _ _) Hknown). by apply list_elem_of_fmap_2.
  - intros n Hn. symmetry.
    apply (lookup_file_filter (MoreSpec.named_after_key tbl) d).
    apply bool_decide_eq_true_2.
    by apply (list_elem_of_fmap_2 (λ n, n +:+ ".nii")).
Qed.

Lemma files_not_named_after_a_key_witness :
  Execute None [0; 0] liver_mha_and_lung (Some "seg.nii")
  = Execute None [0; 0] [("Lung.nii", [0; 255])] (Some "seg.nii").
Proof.
  apply (files_not_named_after_a_key_are_ignored OrganID None [0; 0]
           liver_mha_and_lung (Some "seg.nii")).
  by apply (bool_decide_unpack _).
Defined.

(** X4: the order in which the directory lists its files does not matter:
    two listings of the same files give the same events and the same
    outcome. *)
Theorem listing_order_is_irrelevant tbl self_fpath_save (img : image)
    (d d' : folder) fpath_save :
  NoDup d.*1 →
  d ≡ₚ d' →
  ExecuteWith tbl self_fpath_save img d fpath_save
  = ExecuteWith tbl self_fpath_save img d' fpath_save.
Proof.
  intros Hnd Hperm. apply ExecuteWith_ext.
  - unfold all_known, listdir. by rewrite Hperm.
  - intros n _. by apply lookup_file_perm.
Qed.

Lemma listing_order_witness :
  Execute None [0; 0; 0] liver_and_lung (Some "seg.nii")
  = Execute None [0; 0; 0] (reverse liver_and_lung) (Some "seg.nii").
Proof.
  apply (listing_order_is_irrelevant OrganID None [0; 0; 0] liver_and_lung
           (reverse liver_and_lung) (Some "seg.nii")).
  - by apply (bool_decide_unpack _).
  - symmetry. apply reverse_Permutation.
Defined.

End AssembleMore.

(** ** Further properties of the splitter *)

Section SplitMore.
Import Split SplitSpec MoreSpec.

Lemma written_writes_list folder (seg : image) (tbl : list (Z * string)) :
  written (writes folder seg tbl)
  = file_of folder seg <$> filter (λ e, contains e.1 seg = true) tbl.
Proof.
  unfold written, writes. induction tbl as [|[ID name] tbl IH]; [done|].
  cbn [flat_map fst snd]. rewrite omap_app, IH, filter_cons. cbn [fst].
  destruct (contains ID seg) eqn:Hc; cbn.
  - by destruct (decide (true = true)).
  - by destruct (decide (false = true)).
Qed.

Lemma split_mask_voxelwise (seg : image) (ID : Z) :
  ID ∈ StandardName.*1 →
  split_mask seg ID = (λ s, if bool_decide (s ∈ members ID) then 255 else 0) <$> seg.
Proof.
  intros HID. unfold split_mask, members, Cast_UInt8.
  destruct (MultipleOrgans !! ID) as [IDs|] eqn:HIDs; cbn [default].
  - apply MultipleOrgans_sound in HIDs as (Hnd & _ & _).
    rewrite sum_extracts_voxelwise, <- list_fmap_compose.
    apply list_fmap_ext. intros _ s _. cbn. rewrite sum_hits by done.
    by case_bool_decide.
  - rewrite extract_voxelwise, <- list_fmap_compose.
    apply list_fmap_ext. intros _ s _. cbn. unfold hit.
    destruct (Z.eqb_spec s ID) as [->|Hne].
    + by rewrite bool_decide_eq_true_2 by (by left).
    + rewrite bool_decide_eq_false_2; [done|].
      by intros ->%list_elem_of_singleton.
Qed.

Lemma members_named (ID : Z) :
  ID ∈ StandardName.*1 → ∀ s, s ∈ members ID → s ∈ StandardName.*1.
Proof.
  intros HID s. unfold members.
  destruct (MultipleOrgans !! ID) as [IDs|] eqn:HIDs; cbn [default].
  - apply MultipleOrgans_entries in HIDs.
    repeat (apply elem_of_cons in HIDs as [[= -> ->]|HIDs];
            [intros Hs; repeat (apply elem_of_cons in Hs as [->|Hs];
                                [by apply (bool_decide_unpack _)|]);
             by apply elem_of_nil in Hs|]).
    by apply elem_of_nil in HIDs.
  - by intros ->%list_elem_of_singleton.
Qed.

Lemma Execute_written self_folder_save save_dir (seg : image) folder_save :
  written (trace (Execute self_folder_save save_dir seg folder_save)) = []
  ∨ ∃ folder, or_attribute folder_save self_folder_save = Some folder
      ∧ written (trace (Execute self_folder_save save_dir seg folder_save))
        = file_of folder seg <$> filter (λ e, contains e.1 seg = true) StandardName.
Proof.
  destruct (or_attribute folder_save self_folder_save) as [folder|] eqn:Hf.
  - assert (Hcases : save_dir = DirMissing false ∨ save_dir ≠ DirMissing false)
      by (destruct save_dir as [|[|]]; auto).
    destruct Hcases as [->|Hdir].
    + left. unfold Execute. by rewrite Hf.
    + right. exists folder. split; [done|].
      rewrite (Execute_run _ _ _ _ folder Hf Hdir). unfold trace. cbn [fst].
      by rewrite written_makedirs, written_writes_list.
  - left. unfold Execute. by rewrite Hf.
Qed.

(** X5: the files that [Execute] writes have pairwise different paths, so no
    mask overwrites another; there is at most one per entry of
    [StandardName], and every mask has the shape of the input volume. *)
Theorem split_files_are_distinct self_folder_save save_dir (seg : image) folder_save :
  NoDup (written (trace (Execute self_folder_save save_dir seg folder_save))).*1
  ∧ (length (written (trace (Execute self_folder_save save_dir seg folder_save)))
     ≤ length StandardName)%nat
  ∧ Forall (λ f : string * image, length f.2 = length seg)
      (written (trace (Execute self_folder_save save_dir seg folder_save))).
Proof.
  destruct (Execute_written self_folder_save save_dir seg folder_save)
    as [->|(folder & _ & ->)].
  - split_and!; [constructor | cbn; lia | constructor].
  - split_and!.
    + rewrite <- list_fmap_compose.
      change (fst ∘ file_of folder seg)
        with (path_join folder ∘ (λ e : Z * string, file_name e.1 e.2)).
      rewrite list_fmap_compose. apply NoDup_fmap_2.
      * intros x y. apply path_join_inj.
      * eapply sublist_NoDup; [apply file_names_distinct|].
        apply fmap_sublist, sublist_filter.
    + rewrite length_fmap. apply length_filter.
    + apply Forall_fmap, Forall_forall. intros [ID name] [_ Hin]%list_elem_of_filter.
      cbn. rewrite split_mask_voxelwise; [apply length_fmap|].
      by apply (list_elem_of_fmap_2 fst _ (ID, name)).
Qed.

(** X6: in the file written for a label, a voxel is foreground (255) exactly
    when its label is the label itself or, for a key of [MultipleOrgans], one
    of the labels listed under it, and 0 otherwise; so a voxel whose label is
    not in [StandardName] - the background 0 among them - is foreground in
    no file. *)
Theorem voxel_foreground_iff_label_listed self_folder_save save_dir (seg : image)
    folder_save folder ID name (img : image) :
  or_attribute folder_save self_folder_save = Some folder →
  (ID, name) ∈ StandardName →
  (path_join folder (file_name ID name), img)
    ∈ written (trace (Execute self_folder_save save_dir seg folder_save)) →
  (∀ v, img !! v
        = (λ s, if bool_decide (s ∈ members ID) then 255 else 0) <$> seg !! v)
  ∧ (∀ v s, seg !! v = Some s → s ∉ StandardName.*1 → img !! v = Some 0).
Proof.
  intros Hfolder Hname Hin.
  assert (Hdir : save_dir ≠ DirMissing false).
  { intros ->. unfold Execute in Hin. rewrite Hfolder in Hin.
    by apply elem_of_nil in Hin. }
  apply (written_for_label _ _ _ _ folder ID name img Hfolder Hdir Hname) in Hin
    as [_ ->].
  assert (HID : ID ∈ StandardName.*1)
    by (by apply (list_elem_of_fmap_2 fst _ (ID, name))).
  rewrite split_mask_voxelwise by done.
  split; intros v; rewrite list_lookup_fmap; [done|].
  intros s -> Hs. cbn. rewrite bool_decide_eq_false_2; [done|].
  intros Hmem. by apply Hs, (members_named ID).
Qed.

Lemma voxel_foreground_witness :
  [255; 0; 255; 0] !! 3%nat = Some 0.
Proof.
  apply (proj2 (voxel_foreground_iff_label_listed None DirExists [46; 0; 47; 99]
                  (Some "out") "out" 46 "Bone" [255; 0; 255; 0] eq_refl
                  ltac:(by apply (bool_decide_unpack _))
                  ltac:(by apply (bool_decide_unpack _))) 3%nat 99).
  - reflexivity.
  - by apply (bool_decide_unpack _).
Defined.



Lemma split_names_unknown_to_assembler :
  Forall (λ e : Z * string,
            drop_last4 (file_name e.1 e.2) ∉ Assemble.OrganID.*1) StandardName.
Proof. by apply (bool_decide_unpack _). Qed.

(** X8: the files of the splitter cannot be given back to the assembler: a
    directory that holds a file named as [Execute] of the splitter names its
    output makes [Execute] of the assembler fail on its validation, before
    it reads anything. *)
Theorem split_files_are_rejected_by_the_assembler self_fpath_save (img : image)
    (d : folder) fpath_save path ID name :
  (ID, name) ∈ StandardName →
  or_attribute fpath_save self_fpath_save = Some path →
  file_name ID name ∈ listdir d →
  Assemble.Execute self_fpath_save img d fpath_save
  = ([], Raise (AssertionError "Missed organ in OrganID.")).
Proof.
  intros Hname Hpath Hin. unfold Assemble.Execute, Assemble.ExecuteWith.
  rewrite Hpath, bool_decide_eq_false_2; [done|].
  apply validation_fails. intros Hknown.
  apply (proj1 (Forall_forall _ _) split_names_unknown_to_assembler (ID, name) Hname).
  by apply (proj1 (Forall_forall _ _) Hknown).
Qed.

Lemma split_files_are_rejected_witness :
  Assemble.Execute None [0; 0] [("32_Liver.nii", [255; 0])] (Some "seg.nii")
  = ([], Raise (AssertionError "Missed organ in OrganID.")).
Proof.
  apply (split_files_are_rejected_by_the_assembler None [0; 0]
           [("32_Liver.nii", [255; 0])] (Some "seg.nii") "seg.nii" 32 "Liver").
  - by apply (bool_decide_unpack _).
  - reflexivity.
  - by apply (bool_decide_unpack _).
Defined.

End SplitMore.

(** ** Further properties of the overlap analysis *)

Section OverlapMore.
Import Assemble OverlapSpec MoreSpec.

Lemma AnalyseOverlap_compared (d : folder) stop stop' :
  compared d stop = compared d stop' →
  AnalyseOverlap d stop = AnalyseOverlap d stop'.
Proof.
  intros Heq. unfold AnalyseOverlap. fold (compared d stop) (compared d stop').
  by rewrite Heq.
Qed.

Lemma compared_unstopped (l stop : list string) :
  (∀ f, f ∈ stop → f ∉ l) →
  filter (λ organ, organ ∉ stop) l = filter (λ organ, organ ∉ []) l.
Proof.
  induction l as [|f l IH]; intros Hstop; [done|].
  rewrite !filter_cons, IH.
  - destruct (decide (f ∉ stop)) as [|Hin], (decide (f ∉ [])) as [|Hnil]; try done.
    + exfalso. apply Hnil. by intros ?%elem_of_nil.
    + exfalso. apply Hin. intros Hf. apply (Hstop f Hf). by left.
  - intros g Hg Hin. apply (Hstop g Hg). by right.
Qed.

(** X9: the stop list is compared with the file names as the directory
    lists them: a stop list none of whose entries is the name of a file of
    the directory (organ names without the extension, for one) changes
    nothing. *)
Theorem stop_list_of_other_names_changes_nothing (d : folder) (stop : list string) :
  (∀ f, f ∈ stop → f ∉ listdir d) →
  AnalyseOverlap d (Some stop) = AnalyseOverlap d None.
Proof.
  intros Hstop. apply AnalyseOverlap_compared. unfold compared. cbn [default].
  by apply compared_unstopped.
Qed.

Lemma stop_list_of_other_names_witness :
  AnalyseOverlap body_and_lung (Some ["Body"]) = AnalyseOverlap body_and_lung None.
Proof.
  apply (stop_list_of_other_names_changes_nothing body_and_lung ["Body"]).
  intros f ->%list_elem_of_singleton. by apply (bool_decide_unpack _).
Defined.

(** *** What the two loops read *)

Lemma read_names_app (l1 l2 : list event) :
  read_names (l1 ++ l2) = read_names l1 ++ read_names l2.
Proof. apply omap_app. Qed.

Lemma read_names_pair_events (d : folder) stop (i j : nat) :
  (i < length (compared d stop))%nat → (j < length (compared d stop))%nat →
  ∃ fname_i fname_j,
    compared d stop !! i = Some fname_i ∧ compared d stop !! j = Some fname_j
    ∧ read_names (pair_events d (compared d stop) i j) = [fname_i; fname_j].
Proof.
  intros Hi Hj. unfold pair_events.
  destruct (lookup_lt_is_Some_2 _ _ Hi) as [fi Hfi].
  destruct (lookup_lt_is_Some_2 _ _ Hj) as [fj Hfj].
  exists fi, fj. rewrite Hfi, Hfj. split_and!; [done..|].
  assert (Hini : fi ∈ compared d stop) by (apply list_elem_of_lookup; eauto).
  assert (Hinj : fj ∈ compared d stop) by (apply list_elem_of_lookup; eauto).
  destruct (proj1 (lookup_file_listed d fi) (compared_listed _ _ _ Hini)) as [a ->].
  destruct (proj1 (lookup_file_listed d fj) (compared_listed _ _ _ Hinj)) as [b ->].
  by destruct (reportedb a b).
Qed.

Lemma reads_of_a_row (F : nat → list event) (m s : nat) :
  (∀ j, (s ≤ j < s + m)%nat → length (read_names (F j)) = 2%nat) →
  length (read_names (flat_map F (seq s m))) = (2 * m)%nat.
Proof.
  revert s. induction m as [|m IH]; intros s HF; [done|].
  cbn [seq flat_map]. rewrite read_names_app, length_app, HF by lia.
  rewrite IH; [lia|]. intros j Hj. apply HF. lia.
Qed.

Lemma reads_of_the_rows (F : nat → nat → list event) (N k a : nat) :
  (∀ i j, (i < j < N)%nat → length (read_names (F i j)) = 2%nat) →
  (a + k = N)%nat →
  length (read_names (flat_map (λ i, flat_map (F i) (range (i + 1) N)) (seq a k)))
  = (k * (k - 1))%nat.
Proof.
  intros HF. revert a. induction k as [|k IH]; intros a Hak; [done|].
  cbn [seq flat_map]. rewrite read_names_app, length_app.
  unfold range at 1. rewrite reads_of_a_row by (intros j Hj; apply HF; lia).
  rewrite (IH (S a)) by lia. nia.
Qed.

(** X10: on [n] compared masks of one shape [AnalyseOverlap] loads
    [n * (n - 1)] images: both masks are read again for every pair. *)
Theorem every_pair_reads_both_masks (d : folder) stop :
  same_shapes d (compared d stop) →
  length (read_names (trace (AnalyseOverlap d stop)))
  = (length (compared d stop) * (length (compared d stop) - 1))%nat.
Proof.
  intros Hshape. rewrite (AnalyseOverlap_run d stop Hshape).
  unfold trace. cbn [fst].
  change (range 0 (length (compared d stop)))
    with (seq 0 (length (compared d stop) - 0)).
  rewrite Nat.sub_0_r. apply reads_of_the_rows; [|done].
  intros i j Hij.
  destruct (read_names_pair_events d stop i j) as (fi & fj & _ & _ & ->); [lia..|done].
Qed.

Lemma every_pair_reads_witness :
  length (read_names (trace (AnalyseOverlap body_and_lung None))) = 2%nat.
Proof.
  apply (every_pair_reads_both_masks body_and_lung None).
  assert (Hlen : ∀ f (a : image),
            lookup_file body_and_lung f = Some a → length a = 4%nat).
  { intros f a Ha. simpl in Ha. repeat case_bool_decide; by simplify_eq. }
  intros f g a b _ _ Ha Hb. by rewrite (Hlen f a Ha), (Hlen g b Hb).
Defined.

(** *** Events and failures of a loop *)

Lemma bind_trace_elem {E A B} (m : io E A) (k : A → io E B) (ev : E) :
  ev ∈ (m ≫= k).1 → ev ∈ m.1 ∨ ∃ a, m.2 = Ok a ∧ ev ∈ (k a).1.
Proof.
  destruct m as [l [a|e]].
  - rewrite bind_logged. cbn [fst snd]. rewrite elem_of_app.
    intros [?|?]; [by left | right; by exists a].
  - rewrite bind_raised. by left.
Qed.

Lemma for_each_trace_elem {E A} (xs : list A) (body : A → io E unit) (ev : E) :
  ev ∈ (for_each xs body).1 → ∃ x, x ∈ xs ∧ ev ∈ (body x).1.
Proof.
  induction xs as [|x xs IH]; cbn [for_each].
  - by intros ?%elem_of_nil.
  - intros [Hev|(_ & _ & Hev)]%bind_trace_elem.
    + exists x. split; [by left | done].
    + destruct (IH Hev) as (y & Hy & Hev'). exists y. split; [by right | done].
Qed.

(** X11: whatever happens, [AnalyseOverlap] reads only files of the
    directory that are not on the stop list, and it writes no file. *)
Theorem stopped_files_are_never_read (d : folder) stop :
  (∀ f, EvReadImage f ∈ trace (AnalyseOverlap d stop) →
        f ∈ listdir d ∧ f ∉ default [] stop)
  ∧ (∀ p a, EvWriteImage p a ∉ trace (AnalyseOverlap d stop)).
Proof.
  assert (Hpairs : ∀ ev, ev ∈ trace (AnalyseOverlap d stop) →
            ∃ i j, (i < j < length (compared d stop))%nat
                   ∧ ev ∈ (compare_pair d (compared d stop) i j).1).
  { intros ev. unfold trace, AnalyseOverlap. fold (compared d stop).
    intros [Hev|(_ & _ & ?%elem_of_nil)]%bind_trace_elem; [|done].
    apply for_each_trace_elem in Hev as (i & Hi%elem_of_range & Hev).
    apply for_each_trace_elem in Hev as (j & Hj%elem_of_range & Hev).
    exists i, j. split; [lia | done]. }
  assert (Hevents : ∀ i j ev,
            (i < j < length (compared d stop))%nat →
            ev ∈ (compare_pair d (compared d stop) i j).1 →
            (∃ f, ev = EvReadImage f ∧ f ∈ compared d stop) ∨ ∃ line, ev = EvPrint line).
  { intros i j ev Hij. unfold compare_pair, getitem.
    destruct (lookup_lt_is_Some_2 (compared d stop) i) as [fi Hfi]; [lia|].
    destruct (lookup_lt_is_Some_2 (compared d stop) j) as [fj Hfj]; [lia|].
    assert (Hini : fi ∈ compared d stop) by (apply list_elem_of_lookup; eauto).
    assert (Hinj : fj ∈ compared d stop) by (apply list_elem_of_lookup; eauto).
    destruct (proj1 (lookup_file_listed d fi) (compared_listed _ _ _ Hini)) as [a Ha].
    destruct (proj1 (lookup_file_listed d fj) (compared_listed _ _ _ Hinj)) as [b Hb].
    rewrite Hfi, Hfj, !bind_pure.
    rewrite (ReadImage_listed d fi a Ha), bind_logged.
    rewrite (ReadImage_listed d fj b Hb), bind_logged. cbn [fst].
    rewrite !elem_of_app, !list_elem_of_singleton.
    intros [->|[->|Hev]]; [left; eauto..|].
    unfold elementwise in Hev. case_bool_decide.
    - rewrite bind_pure in Hev. destruct (_ && _).
      + apply list_elem_of_singleton in Hev as ->. right. by eexists.
      + by apply elem_of_nil in Hev.
    - by apply elem_of_nil in Hev. }
  split.
  - intros f (i & j & Hij & Hev)%Hpairs.
    destruct (Hevents i j _ Hij Hev) as [(f' & [= ->] & Hin)|[line [=]]].
    unfold compared in Hin. by apply list_elem_of_filter in Hin as [? ?].
  - intros p a (i & j & Hij & Hev)%Hpairs.
    by destruct (Hevents i j _ Hij Hev) as [(f' & [=] & _)|[line [=]]].
Qed.

Lemma stopped_files_witness :
  "Body.nii" ∈ listdir body_and_lung ∧ "Body.nii" ∉ default [] None.
Proof.
  apply (proj1 (stopped_files_are_never_read body_and_lung None)). left.
Defined.

(** *** The number of lines and the listing order *)

Lemma flat_map_seq_shift {A} (f : nat → list A) (a k : nat) :
  flat_map f (seq (S a) k) = flat_map (λ i, f (S i)) (seq a k).
Proof.
  revert a. induction k as [|k IH]; intros a; [done|].
  cbn [seq flat_map]. by rewrite IH.
Qed.

Lemma flat_map_indices {A B} (G : option A → list B) (l : list A) :
  flat_map (λ j, G (l !! j)) (seq 0 (length l)) = flat_map (λ y, G (Some y)) l.
Proof.
  induction l as [|y l IH]; [done|].
  cbn [length seq flat_map]. by rewrite flat_map_seq_shift, <- IH.
Qed.

Lemma printed_app (l1 l2 : list event) : printed (l1 ++ l2) = printed l1 ++ printed l2.
Proof. apply omap_app. Qed.

Lemma length_printed_flat_map {A} (F : A → list event) (c : A → bool) (l : list A) :
  (∀ y, length (printed (F y)) = if c y then 1%nat else 0%nat) →
  length (printed (flat_map F l)) = length (filter (λ y, c y = true) l).
Proof.
  intros HF. induction l as [|y l IH]; [done|].
  cbn [flat_map]. rewrite printed_app, length_app, HF, IH, filter_cons.
  destruct (c y); cbn; by destruct (decide _).
Qed.

Lemma length_printed_rows (d : folder) (organs : list string) :
  length (printed (flat_map (λ i, flat_map (pair_events d organs i)
                                    (range (i + 1) (length organs)))
                     (range 0 (length organs))))
  = count_pairs (files_reported d) organs.
Proof.
  induction organs as [|x l IH]; [done|].
  unfold range in *. cbn [length]. rewrite Nat.sub_0_r in *.
  cbn [seq flat_map count_pairs]. rewrite printed_app, length_app. f_equal.
  - cbn [Nat.add Nat.sub]. rewrite Nat.sub_0_r, flat_map_seq_shift.
    pose (G := λ o : option string,
      match o with
      | Some fname_j =>
          match lookup_file d x, lookup_file d fname_j with
          | Some a, Some b =>
              [EvReadImage x; EvReadImage fname_j]
              ++ (if reportedb a b
                  then [EvPrint (line_of x fname_j a b)] else [])
          | _, _ => []
          end
      | None => []
      end).
    rewrite (flat_map_ext _ (λ j, G (l !! j))) by (intros j; reflexivity).
    rewrite (flat_map_indices G l).
    apply length_printed_flat_map. intros y. unfold G, files_reported.
    destruct (lookup_file d x), (lookup_file d y); try done.
    by destruct (reportedb _ _).
  - rewrite flat_map_seq_shift, <- IH. do 2 f_equal.
    apply flat_map_ext. intros i.
    change (S i + 1)%nat with (S (i + 1)).
    change (S (length l) - S (i + 1))%nat with (length l - (i + 1))%nat.
    by rewrite flat_map_seq_shift.
Qed.

Lemma np_sum_and_comm (a b : list bool) :
  np_sum (zip_with andb a b) = np_sum (zip_with andb b a).
Proof.
  revert b. induction a as [|x a IH]; intros [|y b]; try done.
  cbn. by rewrite IH, andb_comm.
Qed.

Lemma reportedb_sym (a b : image) : reportedb a b = reportedb b a.
Proof.
  unfold reportedb, intersection. rewrite (np_sum_and_comm (astype_bool a)).
  by rewrite orb_comm.
Qed.

Lemma files_reported_sym (d : folder) f g : files_reported d f g = files_reported d g f.
Proof.
  unfold files_reported. destruct (lookup_file d f), (lookup_file d g); try done.
  apply reportedb_sym.
Qed.

Lemma count_pairs_perm {A} (R : A → A → bool) (l l' : list A) :
  (∀ x y, R x y = R y x) → l ≡ₚ l' → count_pairs R l = count_pairs R l'.
Proof.
  intros Hsym. induction 1 as [|x l l' Hp IH|x y l|l1 l2 l3 _ IH1 _ IH2].
  - done.
  - cbn [count_pairs]. by rewrite IH, Hp.
  - cbn [count_pairs]. rewrite !filter_cons, (Hsym x y).
    destruct (decide (R y x = true)); cbn [length]; lia.
  - congruence.
Qed.

(** X12: the number of lines that [AnalyseOverlap] prints does not depend on
    the order in which the directory lists its files: the report condition
    is symmetric in the two masks. *)
Theorem number_of_reports_ignores_listing_order (d d' : folder) stop :
  NoDup d.*1 →
  d ≡ₚ d' →
  same_shapes d (compared d stop) →
  length (printed (trace (AnalyseOverlap d stop)))
  = length (printed (trace (AnalyseOverlap d' stop))).
Proof.
  intros Hnd Hperm Hshape.
  assert (Hlookup : ∀ f, lookup_file d f = lookup_file d' f)
    by (intros f; by apply lookup_file_perm).
  assert (Hcompared : compared d stop ≡ₚ compared d' stop).
  { unfold compared, listdir. by rewrite Hperm. }
  assert (Hshape' : same_shapes d' (compared d' stop)).
  { intros f g a b Hf Hg Ha Hb. rewrite <- Hcompared in Hf, Hg.
    rewrite <- Hlookup in Ha, Hb. by apply (Hshape f g). }
  rewrite (AnalyseOverlap_run d stop Hshape), (AnalyseOverlap_run d' stop Hshape').
  unfold trace. cbn [fst]. rewrite !length_printed_rows.
  rewrite (count_pairs_perm _ _ _ (files_reported_sym d) Hcompared).
  clear -Hlookup. generalize (compared d' stop) as l.
  induction l as [|x l IH]; [done|].
  cbn [count_pairs]. rewrite IH. f_equal. f_equal.
  apply list_filter_iff. intros y. unfold files_reported.
  by rewrite !Hlookup.
Qed.

Lemma number_of_reports_witness :
  length (printed (trace (AnalyseOverlap body_and_lung None)))
  = length (printed (trace (AnalyseOverlap (reverse body_and_lung) None))).
Proof.
  apply (number_of_reports_ignores_listing_order body_and_lung
           (reverse body_and_lung) None).
  - by apply (bool_decide_unpack _).
  - symmetry. apply reverse_Permutation.
  - assert (Hlen : ∀ f (a : image),
              lookup_file body_and_lung f = Some a → length a = 4%nat).
    { intros f a Ha. simpl in Ha. repeat case_bool_decide; by simplify_eq. }
    intros f g a b _ _ Ha Hb. by rewrite (Hlen f a Ha), (Hlen g b Hb).
Defined.

End OverlapMore.

(** ** Further properties of the slice importer *)

Section Jpg2niiMoreFacts.
Import Jpg2nii Jpg2niiSpec Jpg2niiMore.

(** *** The layer of a file name *)

Lemma substring_skip (p s : string) (k : nat) :
  String.substring (String.length p) k (p +:+ s) = String.substring 0 k s.
Proof. induction p as [|c p IH]; [done | exact IH]. Qed.

(** X13: for a file name that ends with four characters and a four-character
    extension, [GetImageLayerByName] reads the layer from those four
    characters; for a name of at most eight characters it reads it from
    everything before the last four. *)
Theorem layer_is_read_before_the_extension (py_int : string → outcome Z) :
  (∀ prefix digits extension,
     String.length digits = 4%nat → String.length extension = 4%nat →
     GetImageLayerByName py_int (prefix +:+ digits +:+ extension) = py_int digits)
  ∧ (∀ fname, (String.length fname ≤ 8)%nat →
       GetImageLayerByName py_int fname = py_int (drop_last4 fname)).
Proof.
  split.
  - intros p dg e Hd He. unfold GetImageLayerByName, layer_digits. f_equal.
    rewrite !length_string_app, Hd, He.
    replace (String.length p + (4 + 4) - 8)%nat with (String.length p) by lia.
    replace (String.length p + (4 + 4) - 4 - String.length p)%nat with 4%nat by lia.
    rewrite substring_skip, <- Hd. apply substring_whole_prefix.
  - intros f Hf. unfold GetImageLayerByName, layer_digits, drop_last4. f_equal.
    replace (String.length f - 8)%nat with 0%nat by lia.
    by rewrite Nat.sub_0_r.
Qed.

Lemma layer_is_read_witness :
  GetImageLayerByName no_int ("slice" +:+ "0012" +:+ ".jpg") = no_int "0012"
  ∧ GetImageLayerByName no_int "12.jpg" = no_int (drop_last4 "12.jpg").
Proof.
  destruct (layer_is_read_before_the_extension no_int) as [Hlong Hshort].
  split; [by apply Hlong | apply Hshort; cbn; lia].
Defined.

(** *** The loop *)

(** X14: on a directory of placeable files, the array in memory holds at
    each layer the binarized picture of the last listed file placed there
    (a negative layer counts from the end) and a layer of zeros binarized
    when no file is placed there. *)
Theorem last_file_of_a_layer_wins (py_int : string → outcome Z) (img : volume)
    (files : list entry) save_dir fpath_save layer threshold (k : nat) :
  Forall (placeable (default (GetImageLayerByName py_int) layer) img) files →
  (OrganConvert py_int img files save_dir fpath_save layer threshold).1 !! k
  = map (map (threshold_voxel threshold))
      <$> match last_slice (default (GetImageLayerByName py_int) layer)
                  (length img) k files with
          | Some sl => Some sl
          | None => zeros_like3 img !! k
          end.
Proof.
  intros Hfiles. unfold OrganConvert.
  destruct (place_all_completes (default (GetImageLayerByName py_int) layer)
              img (zeros_like3 img) files (shape3_zeros_like3 img)
              (uint8_zeros_like3 img) Hfiles) as (placed & Hrun & Hplaced).
  destruct (place_all_shape (default (GetImageLayerByName py_int) layer)
              img (zeros_like3 img) files (shape3_zeros_like3 img) Hfiles)
    as (_ & _ & Hlast).
  rewrite Hrun in Hlast |- *. cbn [fst snd] in *.
  rewrite (binarize_threshold _ _ Hplaced). unfold map3.
  change (map (map (map (threshold_voxel threshold))) placed)
    with (map (map (threshold_voxel threshold)) <$> placed).
  by rewrite list_lookup_fmap, Hlast.
Qed.

Lemma last_file_of_a_layer_witness :
  (OrganConvert no_int cube two_for_one_layer DirExists "out/o.nii"
     (Some last_layer) 128).1 !! 1%nat
  = Some [ [0; 0]; [0; 255] ].
Proof.
  apply (last_file_of_a_layer_wins no_int cube two_for_one_layer DirExists
           "out/o.nii" (Some last_layer) 128 1).
  repeat constructor; try reflexivity; cbn; try lia.
  - exists corner_slice, (-1).
    split; [reflexivity|]. split; [reflexivity|]. split; [cbn; lia|].
    split; [reflexivity|]. repeat constructor; lia.
  - exists bright_slice, (-1).
    split; [reflexivity|]. split; [reflexivity|]. split; [cbn; lia|].
    split; [reflexivity|]. repeat constructor; lia.
Defined.

(** *** What is written *)

Lemma all_voxels_map3 (P : Z → Prop) (f : Z → Z) (v : volume) :
  (∀ x, P (f x)) → all_voxels P (map3 f v).
Proof.
  intros Hf. unfold all_voxels, map3.
  apply Forall_forall. intros sl (sl0 & <- & _)%list_elem_of_In%in_map_iff.
  apply Forall_forall. intros row (row0 & <- & _)%list_elem_of_In%in_map_iff.
  apply Forall_forall. intros x (x0 & <- & _)%list_elem_of_In%in_map_iff.
  apply Hf.
Qed.

Lemma all_voxels_map3_uint8 (P : Z → Prop) (f : Z → Z) (v : volume) :
  uint8_volume v → (∀ x, 0 ≤ x ≤ 255 → P (f x)) → all_voxels P (map3 f v).
Proof.
  intros Hv Hf. unfold all_voxels, map3, uint8_volume, uint8_slice in *.
  apply Forall_forall. intros sl (sl0 & <- & Hsl%list_elem_of_In)%list_elem_of_In%in_map_iff.
  pose proof (proj1 (Forall_forall _ _) Hv sl0 Hsl) as Hsl0.
  apply Forall_forall. intros row (row0 & <- & Hrow%list_elem_of_In)%list_elem_of_In%in_map_iff.
  pose proof (proj1 (Forall_forall _ _) Hsl0 row0 Hrow) as Hrow0.
  apply Forall_forall. intros x (x0 & <- & Hx%list_elem_of_In)%list_elem_of_In%in_map_iff.
  apply Hf. by apply (proj1 (Forall_forall _ _) Hrow0).
Qed.

Lemma all_voxels_np_flip (P : Z → Prop) (v : volume) :
  all_voxels P v → all_voxels P (np_flip v).
Proof.
  intros Hv. unfold all_voxels, np_flip in *.
  apply Forall_forall. intros sl Hsl%list_elem_of_In.
  apply in_rev, in_map_iff in Hsl as (sl0 & <- & Hsl%list_elem_of_In).
  pose proof (proj1 (Forall_forall _ _) Hv sl0 Hsl) as Hsl0.
  apply Forall_forall. intros row Hrow%list_elem_of_In.
  apply in_rev, in_map_iff in Hrow as (row0 & <- & Hrow%list_elem_of_In).
  pose proof (proj1 (Forall_forall _ _) Hsl0 row0 Hrow) as Hrow0.
  apply Forall_forall. intros x Hx%list_elem_of_In. apply in_rev in Hx.
  by apply (proj1 (Forall_forall _ _) Hrow0), list_elem_of_In.
Qed.

Lemma written_volume (threshold : Z) (mem : volume) :
  Cast_UInt8 (np_flip (binarize threshold mem))
  = map3 (λ x, (if (if x >? threshold then 255 else x) <=? threshold then 0
                else if x >? threshold then 255 else x) `mod` 256)
      (np_flip mem).
Proof.
  unfold binarize, Cast_UInt8. by rewrite map3_map3, np_flip_map3, map3_map3.
Qed.

Lemma OrganConvert_returned (py_int : string → outcome Z) (img : volume)
    (files : list entry) save_dir fpath_save layer threshold (out : volume) :
  result (OrganConvert py_int img files save_dir fpath_save layer threshold).2 = Ok out →
  ∃ mem log,
    place_all (default (GetImageLayerByName py_int) layer) (zeros_like3 img) files
    = (mem, (log, Ok tt))
    ∧ save_dir ≠ DirMissing false
    ∧ out = Cast_UInt8 (np_flip (binarize threshold mem))
    ∧ trace (OrganConvert py_int img files save_dir fpath_save layer threshold).2
      = log ++ match save_dir with
               | DirMissing true => [EvMkdir (dirname fpath_save)]
               | _ => []
               end ++ [EvWriteImage fpath_save out].
Proof.
  unfold OrganConvert.
  destruct (place_all _ (zeros_like3 img) files) as [mem [log [[]|e]]]; [|done].
  rewrite bind_logged. unfold result, trace. cbn [fst snd].
  destruct save_dir as [|[|]]; [| |done].
  - rewrite bind_pure, bind_emit. cbn [fst snd mret io_ret].
    intros [= <-]. by exists mem, log.
  - rewrite !bind_emit. cbn [fst snd mret io_ret].
    intros [= <-]. by exists mem, log.
Qed.

(** X15: whatever the pictures and the threshold, every voxel of a volume
    that [OrganConvert] returns is 0 or 255; with a threshold of 255 or more
    every voxel is 0. *)
Theorem returned_volume_is_binary (py_int : string → outcome Z) (img : volume)
    (files : list entry) save_dir fpath_save layer threshold (out : volume) :
  result (OrganConvert py_int img files save_dir fpath_save layer threshold).2 = Ok out →
  all_voxels (λ x, x = 0 ∨ x = 255) out
  ∧ (255 ≤ threshold → all_voxels (λ x, x = 0) out).
Proof.
  intros (mem & log & _ & _ & -> & _)%OrganConvert_returned.
  rewrite written_volume. split.
  - apply all_voxels_map3. intros x.
    destruct (Z.gtb_spec x threshold).
    + destruct (Z.leb_spec 255 threshold); auto.
    + destruct (Z.leb_spec x threshold); [auto|lia].
  - intros Ht. apply all_voxels_map3. intros x.
    destruct (Z.gtb_spec x threshold).
    + destruct (Z.leb_spec 255 threshold); [done|lia].
    + destruct (Z.leb_spec x threshold); [done|lia].
Qed.

Lemma returned_volume_is_binary_witness :
  all_voxels (λ x, x = 0 ∨ x = 255) [ [ [0; 0]; [0; 0] ]; [ [0; 0]; [0; 255] ] ].
Proof.
  apply (returned_volume_is_binary no_int cube one_jpg DirExists "out/o.nii"
           (Some layer_zero) 128 [ [ [0; 0]; [0; 0] ]; [ [0; 0]; [0; 255] ] ]).
  reflexivity.
Defined.

(** X16: on a directory of placeable files and with a negative threshold
    every voxel of the returned volume is 255, the layers without a picture
    included. *)
Theorem negative_threshold_fills_the_volume (py_int : string → outcome Z)
    (img : volume) (files : list entry) save_dir fpath_save layer threshold :
  Forall (placeable (default (GetImageLayerByName py_int) layer) img) files →
  save_dir ≠ DirMissing false →
  threshold < 0 →
  ∃ out, result (OrganConvert py_int img files save_dir fpath_save layer threshold).2
         = Ok out
         ∧ all_voxels (λ x, x = 255) out.
Proof.
  intros Hfiles Hdir Ht. unfold OrganConvert.
  destruct (place_all_completes (default (GetImageLayerByName py_int) layer)
              img (zeros_like3 img) files (shape3_zeros_like3 img)
              (uint8_zeros_like3 img) Hfiles) as (placed & -> & Hplaced).
  rewrite bind_logged. unfold result. cbn [fst snd].
  exists (Cast_UInt8 (np_flip (binarize threshold placed))). split.
  - destruct save_dir as [|[|]]; [| |done].
    + by rewrite bind_pure, bind_emit.
    + by rewrite !bind_emit.
  - rewrite (binarize_threshold _ _ Hplaced), np_flip_map3, Cast_threshold,
      <- np_flip_map3.
    assert (Hall : all_voxels (λ x, x = 255)
                     (map3 (threshold_voxel threshold) placed)).
    { apply all_voxels_map3_uint8; [done|]. intros x Hx. unfold threshold_voxel.
      destruct (Z.ltb_spec threshold x); [done|lia]. }
    by apply all_voxels_np_flip.
Qed.

Lemma negative_threshold_witness :
  ∃ out, result (OrganConvert no_int cube one_jpg DirExists "out/o.nii"
                   (Some layer_zero) (-1)).2 = Ok out
         ∧ all_voxels (λ x, x = 255) out.
Proof.
  apply (negative_threshold_fills_the_volume no_int cube one_jpg DirExists
           "out/o.nii" (Some layer_zero) (-1)).
  - constructor; [|constructor]. split; [reflexivity|].
    exists corner_slice, 0.
    split; [reflexivity|]. split; [reflexivity|]. split; [cbn; lia|].
    split; [reflexivity|]. repeat constructor; lia.
  - discriminate.
  - lia.
Defined.

(** X17: [OrganConvert] writes a file exactly when it returns: then the
    write of the returned volume at [fpath_save] is its last event and the
    only write; when it raises, no file has been written. *)
Theorem file_written_iff_returned (py_int : string → outcome Z) (img : volume)
    (files : list entry) save_dir fpath_save layer threshold :
  (∀ out,
     result (OrganConvert py_int img files save_dir fpath_save layer threshold).2
     = Ok out →
     ∃ log,
       trace (OrganConvert py_int img files save_dir fpath_save layer threshold).2
       = log ++ [EvWriteImage fpath_save out]
       ∧ ∀ p a, EvWriteImage p a ∉ log)
  ∧ (∀ e,
       result (OrganConvert py_int img files save_dir fpath_save layer threshold).2
       = Raise e →
       ∀ p a, EvWriteImage p a
         ∉ trace (OrganConvert py_int img files save_dir fpath_save layer threshold).2).
Proof.
  pose proof (place_all_trace (default (GetImageLayerByName py_int) layer)
                (zeros_like3 img) files) as [[n Hn] _].
  split.
  - intros out (mem & log & Hrun & _ & -> & ->)%OrganConvert_returned.
    rewrite Hrun in Hn. unfold trace in Hn. cbn [fst snd] in Hn. subst log.
    eexists. rewrite app_assoc. split; [done|].
    intros p a [(f & [=] & _)%list_elem_of_fmap|Hin]%elem_of_app.
    destruct save_dir as [|[|]]; try by apply elem_of_nil in Hin.
    by apply list_elem_of_singleton in Hin.
  - unfold OrganConvert.
    destruct (place_all _ (zeros_like3 img) files) as [mem [log [[]|e]]].
    + unfold trace in Hn. cbn [fst snd] in Hn. subst log.
      rewrite bind_logged. unfold result, trace. cbn [fst snd].
      destruct save_dir as [|[|]].
      * by rewrite bind_pure, bind_emit.
      * by rewrite !bind_emit.
      * rewrite bind_raise. cbn [fst snd]. intros e _ p a.
        rewrite app_nil_r. by intros (f & [=] & _)%list_elem_of_fmap.
    + unfold trace in Hn. cbn [fst snd] in Hn. subst log.
      unfold result, trace. cbn [fst snd]. intros e' _ p a.
      by intros (f & [=] & _)%list_elem_of_fmap.
Qed.

Lemma file_written_witness :
  EvWriteImage "out/o.nii" []
    ∉ trace (OrganConvert no_int cube one_jpg (DirMissing false) "out/o.nii"
               (Some layer_zero) 128).2.
Proof.
  apply (proj2 (file_written_iff_returned no_int cube one_jpg (DirMissing false)
                  "out/o.nii" (Some layer_zero) 128) OSError).
  reflexivity.
Defined.

(** *** The shape of the result *)

Lemma shape3_map3 (f : Z → Z) (v : volume) : shape3 (map3 f v) = shape3 v.
Proof.
  unfold shape3, map3. induction v as [|sl v IH]; [done|].
  cbn. rewrite IH. f_equal.
  induction sl as [|row sl IHsl]; [done|]. cbn. by rewrite IHsl, length_map.
Qed.

Lemma shape3_np_flip (v : volume) :
  shape3 (np_flip v) = rev (map (λ rows : list nat, rev rows) (shape3 v)).
Proof.
  unfold shape3, np_flip.
  change (map (λ sl : slice, length <$> sl)
            (rev (map (λ sl : slice, rev (map (λ row : list Z, rev row) sl)) v))
          = rev (map (λ rows : list nat, rev rows)
                   (map (λ sl : slice, length <$> sl) v))).
  rewrite map_rev, !map_map. f_equal. apply map_ext. intros sl.
  change (map length (rev (map (λ row : list Z, rev row) sl)) = rev (map length sl)).
  rewrite map_rev, map_map. f_equal. apply map_ext. intros row.
  apply length_rev.
Qed.

(** X18: on a directory of placeable files the returned volume has the shape
    of the reference image, flipped as the array is. *)
Theorem returned_volume_has_the_reference_shape (py_int : string → outcome Z)
    (img : volume) (files : list entry) save_dir fpath_save layer threshold
    (out : volume) :
  Forall (placeable (default (GetImageLayerByName py_int) layer) img) files →
  result (OrganConvert py_int img files save_dir fpath_save layer threshold).2 = Ok out →
  shape3 out = shape3 (np_flip img) ∧ length out = length img.
Proof.
  intros Hfiles (mem & log & Hrun & _ & -> & _)%OrganConvert_returned.
  destruct (place_all_shape (default (GetImageLayerByName py_int) layer)
              img (zeros_like3 img) files (shape3_zeros_like3 img) Hfiles)
    as (_ & Hshape & _).
  rewrite Hrun in Hshape. cbn [fst] in Hshape.
  assert (Hout : shape3 (Cast_UInt8 (np_flip (binarize threshold mem)))
                 = shape3 (np_flip img)).
  { by rewrite written_volume, shape3_map3, !shape3_np_flip, Hshape. }
  split; [done|].
  apply shape3_length in Hout. rewrite Hout. unfold np_flip.
  by rewrite length_rev, length_map.
Qed.

Lemma returned_volume_shape_witness :
  shape3 [ [ [0; 0]; [0; 0] ]; [ [0; 0]; [0; 255] ] ] = shape3 (np_flip cube)
  ∧ length [ [ [0; 0]; [0; 0] ]; [ [0; 0]; [0; 255] ] ] = length cube.
Proof.
  apply (returned_volume_has_the_reference_shape no_int cube one_jpg DirExists
           "out/o.nii" (Some layer_zero) 128).
  - constructor; [|constructor]. split; [reflexivity|].
    exists corner_slice, 0.
    split; [reflexivity|]. split; [reflexivity|]. split; [cbn; lia|].
    split; [reflexivity|]. repeat constructor; lia.
  - reflexivity.
Defined.

(** *** The first file that cannot be placed *)

Lemma place_all_stops layer (img seg : volume) (pre post : list entry)
    (f : entry) (e : exn) :
  shape3 seg = shape3 img →
  Forall (placeable layer img) pre →
  (∀ seg', shape3 seg' = shape3 img → (place layer seg' f).2 = Raise e) →
  (place_all layer seg (pre ++ f :: post)).2.2 = Raise e.
Proof.
  revert seg. induction pre as [|g pre IH]; intros seg Hshape Hpre Hf.
  - cbn [app place_all]. specialize (Hf seg Hshape).
    destruct (place layer seg f) as [l r]. cbn [snd] in Hf. by subst r.
  - apply Forall_cons in Hpre as [(Hkind & sl & z & Hpix & Hlayer & Hz & Hsl & _) Hpre].
    cbn [app place_all].
    destruct (place_exact layer img seg g sl z Hshape Hkind Hpix Hlayer Hz Hsl)
      as [-> Hshape'].
    specialize (IH _ Hshape' Hpre Hf).
    by destruct (place_all layer _ (pre ++ f :: post)) as [mem [log r]].
Qed.

Lemma OrganConvert_raised (py_int : string → outcome Z) (img : volume)
    (files : list entry) save_dir fpath_save layer threshold (e : exn) :
  (place_all (default (GetImageLayerByName py_int) layer) (zeros_like3 img) files).2.2
  = Raise e →
  result (OrganConvert py_int img files save_dir fpath_save layer threshold).2
  = Raise e.
Proof.
  unfold OrganConvert.
  destruct (place_all _ (zeros_like3 img) files) as [mem [log r]].
  cbn [snd]. by intros ->.
Qed.

(** X19: the first file of the listing that cannot be placed decides the
    exception of [OrganConvert]: [AttributeError] for a file of no known
    type, the assertion for a file of another type than jpg, the exception of
    the naming function when it rejects the name and [IndexError] for a
    layer outside the reference image. *)
Theorem first_unplaceable_file_decides_the_error (py_int : string → outcome Z)
    (img : volume) (pre post : list entry) (f : entry) save_dir fpath_save
    layer threshold :
  Forall (placeable (default (GetImageLayerByName py_int) layer) img) pre →
  (kind f = None →
   result (OrganConvert py_int img (pre ++ f :: post) save_dir fpath_save
             layer threshold).2 = Raise AttributeError)
  ∧ (∀ extension, kind f = Some extension → extension ≠ "jpg" →
     result (OrganConvert py_int img (pre ++ f :: post) save_dir fpath_save
               layer threshold).2
     = Raise (AssertionError "Wrong type in specified folder."))
  ∧ (∀ e, kind f = Some "jpg" →
     default (GetImageLayerByName py_int) layer (fname f) = Raise e →
     result (OrganConvert py_int img (pre ++ f :: post) save_dir fpath_save
               layer threshold).2 = Raise e)
  ∧ (∀ z, kind f = Some "jpg" →
     default (GetImageLayerByName py_int) layer (fname f) = Ok z →
     ¬ (- Z.of_nat (length img) ≤ z < Z.of_nat (length img)) →
     result (OrganConvert py_int img (pre ++ f :: post) save_dir fpath_save
               layer threshold).2 = Raise IndexError).
Proof.
  intros Hpre.
  assert (Hstop : ∀ e,
    (∀ seg', shape3 seg' = shape3 img →
       (place (default (GetImageLayerByName py_int) layer) seg' f).2 = Raise e) →
    result (OrganConvert py_int img (pre ++ f :: post) save_dir fpath_save
              layer threshold).2 = Raise e).
  { intros e He. apply OrganConvert_raised.
    by apply (place_all_stops _ img); [apply shape3_zeros_like3|..]. }
  split_and!.
  - intros Hkind. apply Hstop. intros seg' _. unfold place. by rewrite Hkind.
  - intros ext Hkind Hext. apply Hstop. intros seg' _. unfold place, assert.
    by rewrite Hkind, bool_decide_eq_false_2.
  - intros e Hkind Hlayer. apply Hstop. intros seg' _. unfold place, assert.
    rewrite Hkind, bool_decide_eq_true_2 by done.
    by rewrite bind_pure, bind_emit, Hlayer.
  - intros z Hkind Hlayer Hz. apply Hstop. intros seg' Hshape. unfold place, assert.
    rewrite Hkind, bool_decide_eq_true_2 by done.
    rewrite bind_pure, bind_emit, Hlayer. unfold setitem.
    rewrite (shape3_length _ _ Hshape). by rewrite bool_decide_eq_false_2.
Qed.

Lemma first_unplaceable_file_witness :
  result (OrganConvert no_int cube jpg_then_unknown DirExists "out/o.nii"
            (Some layer_zero) 128).2 = Raise AttributeError.
Proof.
  apply (proj1 (first_unplaceable_file_decides_the_error no_int cube
                  [Entry "a0000.jpg" (Some "jpg") (Some corner_slice)] []
                  (Entry "notes" None None) DirExists "out/o.nii"
                  (Some layer_zero) 128
           ltac:(constructor; [|constructor]; split; [reflexivity|];
                 exists corner_slice, 0;
                 split; [reflexivity|]; split; [reflexivity|]; split; [cbn; lia|];
                 split; [reflexivity|]; repeat constructor; lia))).
  reflexivity.
Defined.

End Jpg2niiMoreFacts.
